(** * LLGL: staging-buffer pool, swap chain, canvas listeners, testbed modules

    A shallow embedding of the parts of LLGL that the specification talks
    about:

    - [D3D12]   sources/Renderer/Direct3D12/Buffer/D3D12StagingBufferPool.cpp
    - [GL]      sources/Renderer/OpenGL/GLSwapChain.cpp and
                sources/Renderer/OpenGL/Command/GLCommand.h
    - [Platform] sources/Platform/Canvas.cpp
    - [Testbed] tests/Testbed/TestbedMain.cpp

    Unsigned 64-bit quantities (UINT64, SIZE_T) are integers in [Z], with
    the wrap-around written out where the source subtracts; HRESULTs are
    signed integers in [Z]; vectors are lists indexed with stdpp's lookup;
    native resources live in a finite map from handles to their bytes. *)

From Stdlib Require Import ZArith List Bool Lia Ascii String.
From stdpp Require Import base option list gmap strings.

Local Open Scope Z_scope.

(* ===================================================================== *)
(** * Direct3D 12 staging-buffer pool                                     *)
(* ===================================================================== *)

Module D3D12.

(** ** Native API values *)

Definition HRESULT := Z.
Definition S_OK : HRESULT := 0.
Definition E_OUTOFMEMORY : HRESULT := -2147024882.

(** The FAILED macro of the Windows SDK: the sign bit of the HRESULT. *)
Definition FAILED (hr : HRESULT) : bool := hr <? 0.

Definition D3D12_RESOURCE_STATES := Z.
Definition D3D12_RESOURCE_STATE_COMMON : D3D12_RESOURCE_STATES := 0.
Definition D3D12_RESOURCE_STATE_COPY_DEST : D3D12_RESOURCE_STATES := 1024.
Definition D3D12_RESOURCE_STATE_COPY_SOURCE : D3D12_RESOURCE_STATES := 2048.

Inductive D3D12_HEAP_TYPE :=
  | D3D12_HEAP_TYPE_UPLOAD
  | D3D12_HEAP_TYPE_READBACK.

Record D3D12_RANGE := { Begin : Z; End : Z }.

Definition UINT64_modulus : Z := 2 ^ 64.

(** A handle names a native ID3D12Resource; the device memory maps every
    live handle to the bytes of that resource. *)
Abbreviation handle := nat (only parsing).
Abbreviation memory := (gmap nat (list Byte.byte)) (only parsing).

(** ::memcpy(dst + dstOffset, src, n) on byte regions.  Reading past the end
    of [src] or writing past the end of [dst] is undefined: [None]. *)
Definition memcpy (dst : list Byte.byte) (dstOffset : Z) (src : list Byte.byte) (n : Z)
  : option (list Byte.byte) :=
  if (0 <=? dstOffset) && (0 <=? n)
     && (n <=? Z.of_nat (length src))
     && (dstOffset + n <=? Z.of_nat (length dst))
  then Some (take (Z.to_nat dstOffset) dst
             ++ take (Z.to_nat n) src
             ++ drop (Z.to_nat (dstOffset + n)) dst)
  else None.

(** A transition barrier: the resource and the states it leaves and enters. *)
Record D3D12_RESOURCE_BARRIER := {
  pResource : option handle;
  StateBefore : D3D12_RESOURCE_STATES;
  StateAfter : D3D12_RESOURCE_STATES
}.

(** Commands recorded into an ID3D12GraphicsCommandList. *)
Inductive D3D12Command :=
  | CopyBufferRegion (dst : option handle) (dstOffset : Z)
                     (src : option handle) (srcOffset : Z) (numBytes : Z)
  | ResourceBarrier (barrier : D3D12_RESOURCE_BARRIER).

(** What the GPU does with one command.  A copy whose source or destination
    range is not inside the resource is invalid: [None]. *)
Definition execCommand (mem : memory) (c : D3D12Command) : option memory :=
  match c with
  | CopyBufferRegion (Some d) dstOffset (Some s) srcOffset n =>
      match mem !! s, mem !! d with
      | Some sBytes, Some dBytes =>
          if (0 <=? srcOffset) && (0 <=? n)
             && (srcOffset + n <=? Z.of_nat (length sBytes))
          then
            match memcpy dBytes dstOffset (drop (Z.to_nat srcOffset) sBytes) n with
            | Some dBytes' => Some (<[d := dBytes']> mem)
            | None => None
            end
          else None
      | _, _ => None
      end
  | CopyBufferRegion _ _ _ _ _ => None
  | ResourceBarrier _ => Some mem
  end.

Fixpoint execCommands (mem : memory) (cs : list D3D12Command) : option memory :=
  match cs with
  | [] => Some mem
  | c :: cs' =>
      match execCommand mem c with
      | Some mem' => execCommands mem' cs'
      | None => None
      end
  end.

(** ** Types declared outside D3D12StagingBufferPool.cpp *)

(** Modelled from the spec: D3D12Resource (D3D12Resource.h is not among the
    sources).  The pool reads and saves [currentState] and passes [Get()],
    the native resource, to the copy commands. *)
Record D3D12Resource := {
  native : option handle;
  currentState : D3D12_RESOURCE_STATES
}.

Definition D3D12Resource_Get (r : D3D12Resource) : option handle := native r.

(** Modelled from the spec: D3D12CommandContext (D3D12CommandContext.h is
    not among the sources): the command list being recorded and the resource
    barriers that were requested and not yet flushed into it. *)
Record D3D12CommandContext := {
  commandList : list D3D12Command;
  resourceBarriers : list D3D12_RESOURCE_BARRIER
}.

Definition FlushResourceBarriers (ctx : D3D12CommandContext) : D3D12CommandContext :=
  {| commandList := commandList ctx ++ (ResourceBarrier <$> resourceBarriers ctx);
     resourceBarriers := [] |}.

(** Modelled from the spec: D3D12CommandContext::TransitionResource, "the
    buffer is transitioned to COPY_DEST or COPY_SOURCE and is transitioned
    back to the saved old state": a barrier is requested when the state
    changes, the tracked state becomes [newState], and the pending barriers
    are flushed when [flushImmediate] is set. *)
Definition TransitionResource (ctx : D3D12CommandContext) (resource : D3D12Resource)
    (newState : D3D12_RESOURCE_STATES) (flushImmediate : bool)
  : D3D12CommandContext * D3D12Resource :=
  let ctx1 :=
    if currentState resource =? newState then ctx
    else {| commandList := commandList ctx;
            resourceBarriers := resourceBarriers ctx
              ++ [{| pResource := native resource;
                     StateBefore := currentState resource;
                     StateAfter := newState |}] |} in
  let ctx2 := if flushImmediate then FlushResourceBarriers ctx1 else ctx1 in
  (ctx2, {| native := native resource; currentState := newState |}).

(** Appends to the native command list, as
    commandContext.GetCommandList()->CopyBufferRegion(...) does. *)
Definition recordCommand (ctx : D3D12CommandContext) (c : D3D12Command)
  : D3D12CommandContext :=
  {| commandList := commandList ctx ++ [c];
     resourceBarriers := resourceBarriers ctx |}.

(** Modelled from the spec: D3D12CommandQueue::FinishAndSubmitCommandContext
    with waitIdle = true ("CPU/GPU synchronization for buffer transfers"):
    pending barriers are flushed, the recorded commands are executed on the
    device memory before the call returns, and the list starts over. *)
Definition FinishAndSubmitCommandContext (mem : memory) (ctx : D3D12CommandContext)
  : option (memory * D3D12CommandContext) :=
  match execCommands mem (commandList (FlushResourceBarriers ctx)) with
  | Some mem' => Some (mem', {| commandList := []; resourceBarriers := [] |})
  | None => None
  end.

(** Modelled from the spec: GetAlignedSize of Core/CoreUtils.h, the
    "alignment-rounded requested size": [size] rounded up to the next
    multiple of [alignment]; alignments 0 and 1 leave the size as it is.
    Sizes so close to 2^64 that a 64-bit sum would wrap around are outside
    this description. *)
Definition GetAlignedSize (size alignment : Z) : Z :=
  if 1 <? alignment then ((size + alignment - 1) / alignment) * alignment
  else size.

(** Modelled from the spec: D3D12StagingBuffer (D3D12StagingBuffer.h/.cpp are
    not among the sources), one region of CPU-visible memory with a write
    offset: the native resource (null until created), its size in bytes and
    the offset of the next staged write. *)
Record D3D12StagingBuffer := {
  native_ : option handle;
  size_ : Z;
  offset_ : Z
}.

(** The default-constructed staging buffer of the pool's global buffers. *)
Definition D3D12StagingBuffer_default : D3D12StagingBuffer :=
  {| native_ := None; size_ := 0; offset_ := 0 |}.

Definition GetNative (sb : D3D12StagingBuffer) : option handle := native_ sb.

(** Modelled from the spec: D3D12StagingBuffer::Capacity, false exactly for
    "a chunk whose remaining capacity is less than dataSize". *)
Definition Capacity (sb : D3D12StagingBuffer) (dataSize : Z) : bool :=
  dataSize <=? size_ sb - offset_ sb.

(** Modelled from the spec: D3D12StagingBuffer::Reset, "every chunk's write
    offset is set to zero" while its memory is retained. *)
Definition StagingBuffer_Reset (sb : D3D12StagingBuffer) : D3D12StagingBuffer :=
  {| native_ := native_ sb; size_ := size_ sb; offset_ := 0 |}.

(** Calls on a native resource that the CPU side makes directly:
    ID3D12Resource::Map with its read range and result, and
    ID3D12Resource::Unmap with its written range. *)
Inductive NativeCall :=
  | Map (resource : handle) (readRange : D3D12_RANGE) (result : HRESULT)
  | Unmap (resource : handle) (writtenRange : D3D12_RANGE).

(** The device: the bytes of every live native resource and the Map/Unmap
    calls made so far, oldest first. *)
Record Device := {
  resources : memory;
  calls : list NativeCall
}.

Definition logCall (dev : Device) (c : NativeCall) : Device :=
  {| resources := resources dev; calls := calls dev ++ [c] |}.

Definition setResources (dev : Device) (mem : memory) : Device :=
  {| resources := mem; calls := calls dev |}.

(** Modelled from the spec: D3D12StagingBuffer::Create, the buffer is
    "re-created" as a new native resource of the alignment-rounded size,
    zero-filled, with the write offset at its start.  The new resource gets
    a handle that is not in use. *)
Definition StagingBuffer_Create (dev : Device) (size alignment : Z)
    (heapType : D3D12_HEAP_TYPE) : Device * D3D12StagingBuffer :=
  let h := fresh (dom (resources dev)) in
  let alignedSize := GetAlignedSize size alignment in
  (setResources dev (<[h := replicate (Z.to_nat alignedSize) Byte.x00]> (resources dev)),
   {| native_ := Some h; size_ := alignedSize; offset_ := 0 |}).

(** Modelled from the spec: the constructor D3D12StagingBuffer(device, size)
    used by emplace_back: an upload buffer "of size" [size]. *)
Definition StagingBuffer_new (dev : Device) (size : Z) : Device * D3D12StagingBuffer :=
  StagingBuffer_Create dev size 1 D3D12_HEAP_TYPE_UPLOAD.

(** Modelled from the spec: D3D12StagingBuffer::Write.  The native buffer is
    mapped ([mapResult] is what ID3D12Resource::Map returns); on failure that
    HRESULT is returned and nothing else happens; otherwise the data is
    copied to the mapped memory at the write offset, the buffer is unmapped
    with the written range, and the copy of that region to the destination
    is recorded. *)
Definition StagingBuffer_Write (sb : D3D12StagingBuffer) (dev : Device)
    (ctx : D3D12CommandContext) (dstBuffer : option handle) (dstOffset : Z)
    (data : list Byte.byte) (dataSize : Z) (mapResult : HRESULT)
  : option (HRESULT * Device * D3D12CommandContext) :=
  match native_ sb with
  | None => None
  | Some h =>
      let dev1 := logCall dev (Map h {| Begin := 0; End := 0 |} mapResult) in
      if FAILED mapResult then Some (mapResult, dev1, ctx)
      else
        match resources dev1 !! h with
        | None => None
        | Some mapped =>
            match memcpy mapped (offset_ sb) data dataSize with
            | None => None
            | Some mapped' =>
                let dev2 := setResources dev1 (<[h := mapped']> (resources dev1)) in
                let dev3 := logCall dev2
                  (Unmap h {| Begin := offset_ sb; End := offset_ sb + dataSize |}) in
                Some (S_OK, dev3,
                      recordCommand ctx
                        (CopyBufferRegion dstBuffer dstOffset (Some h) (offset_ sb) dataSize))
            end
        end
  end.

(** Modelled from the spec: D3D12StagingBuffer::WriteAndIncrementOffset,
    [Write] followed by advancing the write offset past the data when the
    write succeeded. *)
Definition StagingBuffer_WriteAndIncrementOffset (sb : D3D12StagingBuffer)
    (dev : Device) (ctx : D3D12CommandContext) (dstBuffer : option handle)
    (dstOffset : Z) (data : list Byte.byte) (dataSize : Z) (mapResult : HRESULT)
  : option (HRESULT * D3D12StagingBuffer * Device * D3D12CommandContext) :=
  match StagingBuffer_Write sb dev ctx dstBuffer dstOffset data dataSize mapResult with
  | None => None
  | Some (hr, dev', ctx') =>
      let sb' := if FAILED hr then sb
                 else {| native_ := native_ sb; size_ := size_ sb;
                         offset_ := offset_ sb + dataSize |} in
      Some (hr, sb', dev', ctx')
  end.

(** ** D3D12StagingBufferPool *)

Record D3D12StagingBufferPool := {
  device_ : nat;
  chunkSize_ : Z;
  chunks_ : list D3D12StagingBuffer;
  chunkIdx_ : nat;
  globalUploadBuffer_ : D3D12StagingBuffer;
  globalReadbackBuffer_ : D3D12StagingBuffer
}.

(** D3D12StagingBufferPool::D3D12StagingBufferPool(device, chunkSize) *)
Definition Pool_new (device : nat) (chunkSize : Z) : D3D12StagingBufferPool :=
  {| device_ := device; chunkSize_ := chunkSize;
     chunks_ := []; chunkIdx_ := 0%nat;
     globalUploadBuffer_ := D3D12StagingBuffer_default;
     globalReadbackBuffer_ := D3D12StagingBuffer_default |}.

(** void InitializeDevice(ID3D12Device* device, UINT64 chunkSize) *)
Definition InitializeDevice (p : D3D12StagingBufferPool) (device : nat) (chunkSize : Z)
  : D3D12StagingBufferPool :=
  {| device_ := device; chunkSize_ := chunkSize;
     chunks_ := chunks_ p; chunkIdx_ := chunkIdx_ p;
     globalUploadBuffer_ := globalUploadBuffer_ p;
     globalReadbackBuffer_ := globalReadbackBuffer_ p |}.

(** void Reset():
      for (D3D12StagingBuffer& chunk : chunks_) chunk.Reset();
      chunkIdx_ = 0; *)
Definition Reset (p : D3D12StagingBufferPool) : D3D12StagingBufferPool :=
  {| device_ := device_ p; chunkSize_ := chunkSize_ p;
     chunks_ := StagingBuffer_Reset <$> chunks_ p;
     chunkIdx_ := 0%nat;
     globalUploadBuffer_ := globalUploadBuffer_ p;
     globalReadbackBuffer_ := globalReadbackBuffer_ p |}.

Definition setChunks (p : D3D12StagingBufferPool) (chunks : list D3D12StagingBuffer)
    (chunkIdx : nat) : D3D12StagingBufferPool :=
  {| device_ := device_ p; chunkSize_ := chunkSize_ p;
     chunks_ := chunks; chunkIdx_ := chunkIdx;
     globalUploadBuffer_ := globalUploadBuffer_ p;
     globalReadbackBuffer_ := globalReadbackBuffer_ p |}.

(** void AllocChunk(UINT64 minChunkSize):
      chunks_.emplace_back(device_, std::max(chunkSize_, minChunkSize));
      chunkIdx_ = chunks_.size() - 1; *)
Definition AllocChunk (p : D3D12StagingBufferPool) (dev : Device) (minChunkSize : Z)
  : D3D12StagingBufferPool * Device :=
  let '(dev', chunk) := StagingBuffer_new dev (Z.max (chunkSize_ p) minChunkSize) in
  let chunks := chunks_ p ++ [chunk] in
  (setChunks p chunks (length chunks - 1)%nat, dev').

(** The loop of WriteStaged,
      while (chunkIdx_ < chunks_.size() && !chunks_[chunkIdx_].Capacity(dataSize))
          ++chunkIdx_;
    with one unit of [fuel] per iteration. *)
Fixpoint findChunk (fuel : nat) (chunks : list D3D12StagingBuffer) (chunkIdx : nat)
    (dataSize : Z) : nat :=
  match fuel with
  | O => chunkIdx
  | S fuel' =>
      match chunks !! chunkIdx with
      | Some chunk =>
          if negb (Capacity chunk dataSize)
          then findChunk fuel' chunks (S chunkIdx) dataSize
          else chunkIdx
      | None => chunkIdx
      end
  end.

(** HRESULT WriteStaged(commandContext, dstBuffer, dstOffset, data, dataSize).
    [chunks_[chunkIdx_]] past the end of the vector is undefined: [None]. *)
Definition WriteStaged (p : D3D12StagingBufferPool) (dev : Device)
    (commandContext : D3D12CommandContext) (dstBuffer : D3D12Resource)
    (dstOffset : Z) (data : list Byte.byte) (dataSize : Z) (mapResult : HRESULT)
  : option (HRESULT * D3D12StagingBufferPool * Device
            * D3D12CommandContext * D3D12Resource) :=
  (* Find a chunk that fits the requested data size or allocate a new chunk *)
  let idx := findChunk (length (chunks_ p)) (chunks_ p) (chunkIdx_ p) dataSize in
  let p1 := setChunks p (chunks_ p) idx in
  let '(p2, dev2) :=
    if Nat.eqb (chunkIdx_ p1) (length (chunks_ p1)) then AllocChunk p1 dev dataSize
    else (p1, dev) in
  (* Write data to current chunk *)
  let oldResourceState := currentState dstBuffer in
  let '(ctx1, dst1) :=
    TransitionResource commandContext dstBuffer D3D12_RESOURCE_STATE_COPY_DEST true in
  match chunks_ p2 !! chunkIdx_ p2 with
  | None => None
  | Some chunk =>
      match StagingBuffer_WriteAndIncrementOffset chunk dev2 ctx1
              (D3D12Resource_Get dst1) dstOffset data dataSize mapResult with
      | None => None
      | Some (hr, chunk', dev3, ctx2) =>
          let p3 := setChunks p2 (<[chunkIdx_ p2 := chunk']> (chunks_ p2)) (chunkIdx_ p2) in
          let '(ctx3, dst2) := TransitionResource ctx2 dst1 oldResourceState false in
          Some (hr, p3, dev3, ctx3, dst2)
      end
  end.

Definition setGlobalUploadBuffer (p : D3D12StagingBufferPool) (sb : D3D12StagingBuffer)
  : D3D12StagingBufferPool :=
  {| device_ := device_ p; chunkSize_ := chunkSize_ p;
     chunks_ := chunks_ p; chunkIdx_ := chunkIdx_ p;
     globalUploadBuffer_ := sb;
     globalReadbackBuffer_ := globalReadbackBuffer_ p |}.

Definition setGlobalReadbackBuffer (p : D3D12StagingBufferPool) (sb : D3D12StagingBuffer)
  : D3D12StagingBufferPool :=
  {| device_ := device_ p; chunkSize_ := chunkSize_ p;
     chunks_ := chunks_ p; chunkIdx_ := chunkIdx_ p;
     globalUploadBuffer_ := globalUploadBuffer_ p;
     globalReadbackBuffer_ := sb |}.

(** constexpr UINT64 minAlignment = 4096ull; *)
Definition minAlignment : Z := 4096.

(** void ResizeBuffer(stagingBuffer, heapType, size, alignment) *)
Definition ResizeBuffer (dev : Device) (stagingBuffer : D3D12StagingBuffer)
    (heapType : D3D12_HEAP_TYPE) (size alignment : Z) : Device * D3D12StagingBuffer :=
  (* Check if global upload buffer must be resized *)
  let alignedSize := GetAlignedSize size alignment in
  if negb (Capacity stagingBuffer alignedSize)
  then StagingBuffer_Create dev alignedSize minAlignment heapType
  else (dev, stagingBuffer).

Definition GetUploadBufferAndGrow (p : D3D12StagingBufferPool) (dev : Device)
    (size alignment : Z) : D3D12StagingBufferPool * Device :=
  let '(dev', sb) :=
    ResizeBuffer dev (globalUploadBuffer_ p) D3D12_HEAP_TYPE_UPLOAD size alignment in
  (setGlobalUploadBuffer p sb, dev').

Definition GetReadbackBufferAndGrow (p : D3D12StagingBufferPool) (dev : Device)
    (size alignment : Z) : D3D12StagingBufferPool * Device :=
  let '(dev', sb) :=
    ResizeBuffer dev (globalReadbackBuffer_ p) D3D12_HEAP_TYPE_READBACK size alignment in
  (setGlobalReadbackBuffer p sb, dev').

(** HRESULT WriteImmediate(commandContext, dstBuffer, dstOffset, data, dataSize, alignment) *)
Definition WriteImmediate (p : D3D12StagingBufferPool) (dev : Device)
    (commandContext : D3D12CommandContext) (dstBuffer : D3D12Resource)
    (dstOffset : Z) (data : list Byte.byte) (dataSize alignment : Z) (mapResult : HRESULT)
  : option (HRESULT * D3D12StagingBufferPool * Device
            * D3D12CommandContext * D3D12Resource) :=
  (* Write data to global upload buffer and copy region to destination buffer *)
  let oldResourceState := currentState dstBuffer in
  let '(ctx1, dst1) :=
    TransitionResource commandContext dstBuffer D3D12_RESOURCE_STATE_COPY_DEST true in
  let '(p1, dev1) := GetUploadBufferAndGrow p dev dataSize alignment in
  match StagingBuffer_Write (globalUploadBuffer_ p1) dev1 ctx1
          (D3D12Resource_Get dst1) dstOffset data dataSize mapResult with
  | None => None
  | Some (hr, dev2, ctx2) =>
      let '(ctx3, dst2) := TransitionResource ctx2 dst1 oldResourceState false in
      Some (hr, p1, dev2, ctx3, dst2)
  end.

(** The commands that FinishAndSubmitCommandContext hands to the queue for
    a context: its command list with the pending barriers flushed into it. *)
Definition submittedCommands (ctx : D3D12CommandContext) : list D3D12Command :=
  commandList (FlushResourceBarriers ctx).

(** The result of ReadSubresourceRegion: the HRESULT, the states that the
    call updates in place, the commands that [commandQueue] received from
    the call, and the caller's output memory [data]. *)
Record ReadResult := {
  read_hr : HRESULT;
  read_pool : D3D12StagingBufferPool;
  read_dev : Device;
  read_ctx : D3D12CommandContext;
  read_submitted : list D3D12Command;
  read_src : D3D12Resource;
  read_data : list Byte.byte
}.

(** HRESULT ReadSubresourceRegion(commandContext, commandQueue, srcBuffer,
                                  srcOffset, data, dataSize, alignment).
    [mapResult] is what Map on the readback buffer returns; calling through
    a null native buffer is undefined: [None]. *)
Definition ReadSubresourceRegion (p : D3D12StagingBufferPool) (dev : Device)
    (commandContext : D3D12CommandContext) (srcBuffer : D3D12Resource)
    (srcOffset : Z) (data : list Byte.byte) (dataSize alignment : Z) (mapResult : HRESULT)
  : option ReadResult :=
  let '(p1, dev1) := GetReadbackBufferAndGrow p dev dataSize alignment in
  let readbackBuffer := globalReadbackBuffer_ p1 in
  (* Copy source buffer region to readback buffer and flush command list *)
  let oldResourceState := currentState srcBuffer in
  let '(ctx1, src1) :=
    TransitionResource commandContext srcBuffer D3D12_RESOURCE_STATE_COPY_SOURCE true in
  let ctx2 := recordCommand ctx1
    (CopyBufferRegion (GetNative readbackBuffer) 0 (D3D12Resource_Get src1) srcOffset dataSize) in
  let '(ctx3, src2) := TransitionResource ctx2 src1 oldResourceState false in
  match FinishAndSubmitCommandContext (resources dev1) ctx3 with
  | None => None
  | Some (mem2, ctx4) =>
      let dev2 := setResources dev1 mem2 in
      (* Map readback buffer to CPU memory space *)
      match GetNative readbackBuffer with
      | None => None
      | Some h =>
          let readRange := {| Begin := 0; End := dataSize |} in
          let dev3 := logCall dev2 (Map h readRange mapResult) in
          if FAILED mapResult
          then Some {| read_hr := mapResult; read_pool := p1; read_dev := dev3;
                       read_ctx := ctx4; read_submitted := submittedCommands ctx3;
                       read_src := src2; read_data := data |}
          else
            match resources dev3 !! h with
            | None => None
            | Some mappedData =>
                (* Copy readback buffer into output data *)
                match memcpy data 0 mappedData dataSize with
                | None => None
                | Some data' =>
                    (* Unmap buffer with range of written data *)
                    let writtenRange := {| Begin := 0; End := 0 |} in
                    let dev4 := logCall dev3 (Unmap h writtenRange) in
                    Some {| read_hr := S_OK; read_pool := p1; read_dev := dev4;
                            read_ctx := ctx4; read_submitted := submittedCommands ctx3;
                            read_src := src2; read_data := data' |}
                end
            end
      end
  end.

(** HRESULT MapFeedbackBuffer(commandContext, commandQueue, srcBuffer,
                              readRange, mappedData).
    [alignment] stands for the default argument of GetReadbackBufferAndGrow,
    which the header declares; the mapped pointer is the readback handle. *)
Definition MapFeedbackBuffer (p : D3D12StagingBufferPool) (dev : Device)
    (commandContext : D3D12CommandContext) (srcBuffer : D3D12Resource)
    (readRange : D3D12_RANGE) (alignment : Z) (mapResult : HRESULT)
  : option (HRESULT * D3D12StagingBufferPool * Device
            * D3D12CommandContext * D3D12Resource) :=
  (* Copy content from GPU host memory to CPU memory *)
  let numBytes := (End readRange - Begin readRange) mod UINT64_modulus in
  let '(p1, dev1) := GetReadbackBufferAndGrow p dev numBytes alignment in
  let readbackBuffer := globalReadbackBuffer_ p1 in
  let '(ctx1, src1) :=
    TransitionResource commandContext srcBuffer D3D12_RESOURCE_STATE_COPY_SOURCE true in
  let ctx2 := recordCommand ctx1
    (CopyBufferRegion (GetNative readbackBuffer) 0 (D3D12Resource_Get src1)
                      (Begin readRange) numBytes) in
  match FinishAndSubmitCommandContext (resources dev1) ctx2 with
  | None => None
  | Some (mem2, ctx3) =>
      match GetNative readbackBuffer with
      | None => None
      | Some h =>
          (* Map with read range *)
          let cpuAccessRange := {| Begin := 0; End := numBytes |} in
          Some (mapResult, p1,
                logCall (setResources dev1 mem2) (Map h cpuAccessRange mapResult),
                ctx3, src1)
      end
  end.

(** void UnmapFeedbackBuffer() *)
Definition UnmapFeedbackBuffer (p : D3D12StagingBufferPool) (dev : Device)
  : option Device :=
  match GetNative (globalReadbackBuffer_ p) with
  | None => None
  | Some h => Some (logCall dev (Unmap h {| Begin := 0; End := 0 |}))
  end.

(** HRESULT MapUploadBuffer(size, mappedData) *)
Definition MapUploadBuffer (p : D3D12StagingBufferPool) (dev : Device)
    (size alignment : Z) (mapResult : HRESULT)
  : option (HRESULT * D3D12StagingBufferPool * Device) :=
  (* Map without read range *)
  let '(p1, dev1) := GetUploadBufferAndGrow p dev size alignment in
  match GetNative (globalUploadBuffer_ p1) with
  | None => None
  | Some h =>
      Some (mapResult, p1, logCall dev1 (Map h {| Begin := 0; End := 0 |} mapResult))
  end.

(** void UnmapUploadBuffer(commandContext, commandQueue, dstBuffer, writtenRange) *)
Definition UnmapUploadBuffer (p : D3D12StagingBufferPool) (dev : Device)
    (commandContext : D3D12CommandContext) (dstBuffer : D3D12Resource)
    (writtenRange : D3D12_RANGE)
  : option (Device * D3D12CommandContext * D3D12Resource) :=
  match GetNative (globalUploadBuffer_ p) with
  | None => None
  | Some h =>
      (* Unmap with written range *)
      let dev1 := logCall dev (Unmap h writtenRange) in
      (* Copy content from CPU memory to GPU host memory *)
      let '(ctx1, dst1) :=
        TransitionResource commandContext dstBuffer D3D12_RESOURCE_STATE_COPY_DEST true in
      let ctx2 := recordCommand ctx1
        (CopyBufferRegion (D3D12Resource_Get dst1) (Begin writtenRange) (Some h) 0
           ((End writtenRange - Begin writtenRange) mod UINT64_modulus)) in
      match FinishAndSubmitCommandContext (resources dev1) ctx2 with
      | None => None
      | Some (mem2, ctx3) => Some (setResources dev1 mem2, ctx3, dst1)
      end
  end.

(** ** Sequences of calls on one pool *)

(** One call of a public member function.  The device, the command context
    and the resource are whatever the caller passes at that call; only the
    pool itself is carried from call to call. *)
Inductive PoolCall :=
  | CallInitializeDevice (device : nat) (chunkSize : Z)
  | CallReset
  | CallWriteStaged (dev : Device) (commandContext : D3D12CommandContext)
      (dstBuffer : D3D12Resource) (dstOffset : Z) (data : list Byte.byte)
      (dataSize : Z) (mapResult : HRESULT)
  | CallWriteImmediate (dev : Device) (commandContext : D3D12CommandContext)
      (dstBuffer : D3D12Resource) (dstOffset : Z) (data : list Byte.byte)
      (dataSize alignment : Z) (mapResult : HRESULT)
  | CallReadSubresourceRegion (dev : Device) (commandContext : D3D12CommandContext)
      (srcBuffer : D3D12Resource) (srcOffset : Z) (data : list Byte.byte)
      (dataSize alignment : Z) (mapResult : HRESULT)
  | CallMapFeedbackBuffer (dev : Device) (commandContext : D3D12CommandContext)
      (srcBuffer : D3D12Resource) (readRange : D3D12_RANGE) (alignment : Z)
      (mapResult : HRESULT)
  | CallUnmapFeedbackBuffer (dev : Device)
  | CallMapUploadBuffer (dev : Device) (size alignment : Z) (mapResult : HRESULT)
  | CallUnmapUploadBuffer (dev : Device) (commandContext : D3D12CommandContext)
      (dstBuffer : D3D12Resource) (writtenRange : D3D12_RANGE).

(** The pool after one call, [None] when the call is undefined. *)
Definition callPool (p : D3D12StagingBufferPool) (c : PoolCall)
  : option D3D12StagingBufferPool :=
  match c with
  | CallInitializeDevice device chunkSize => Some (InitializeDevice p device chunkSize)
  | CallReset => Some (Reset p)
  | CallWriteStaged dev ctx dst dstOffset data dataSize mapResult =>
      match WriteStaged p dev ctx dst dstOffset data dataSize mapResult with
      | Some (_, p', _, _, _) => Some p'
      | None => None
      end
  | CallWriteImmediate dev ctx dst dstOffset data dataSize alignment mapResult =>
      match WriteImmediate p dev ctx dst dstOffset data dataSize alignment mapResult with
      | Some (_, p', _, _, _) => Some p'
      | None => None
      end
  | CallReadSubresourceRegion dev ctx src srcOffset data dataSize alignment mapResult =>
      match ReadSubresourceRegion p dev ctx src srcOffset data dataSize alignment mapResult with
      | Some r => Some (read_pool r)
      | None => None
      end
  | CallMapFeedbackBuffer dev ctx src readRange alignment mapResult =>
      match MapFeedbackBuffer p dev ctx src readRange alignment mapResult with
      | Some (_, p', _, _, _) => Some p'
      | None => None
      end
  | CallUnmapFeedbackBuffer dev =>
      match UnmapFeedbackBuffer p dev with
      | Some _ => Some p
      | None => None
      end
  | CallMapUploadBuffer dev size alignment mapResult =>
      match MapUploadBuffer p dev size alignment mapResult with
      | Some (_, p', _) => Some p'
      | None => None
      end
  | CallUnmapUploadBuffer dev ctx dst writtenRange =>
      match UnmapUploadBuffer p dev ctx dst writtenRange with
      | Some _ => Some p
      | None => None
      end
  end.

Fixpoint callsPool (p : D3D12StagingBufferPool) (cs : list PoolCall)
  : option D3D12StagingBufferPool :=
  match cs with
  | [] => Some p
  | c :: cs' =>
      match callPool p c with
      | Some p' => callsPool p' cs'
      | None => None
      end
  end.

(** The staging capacity a pool holds: the size of every chunk, in order,
    and the sizes of the two global buffers. *)
Definition chunkSizes (p : D3D12StagingBufferPool) : list Z := size_ <$> chunks_ p.

(** [retains p p']: everything [p] holds is still there in [p'], at least as
    large. *)
Definition retains (p p' : D3D12StagingBufferPool) : Prop :=
  chunkSizes p `prefix_of` chunkSizes p'
  /\ size_ (globalUploadBuffer_ p) <= size_ (globalUploadBuffer_ p')
  /\ size_ (globalReadbackBuffer_ p) <= size_ (globalReadbackBuffer_ p').

(** The global buffers are only written with [Write], never with
    [WriteAndIncrementOffset]: their write offset stays at the start. *)
Definition globalsAtStart (p : D3D12StagingBufferPool) : Prop :=
  offset_ (globalUploadBuffer_ p) = 0 /\ offset_ (globalReadbackBuffer_ p) = 0.

(** A staging buffer is backed on a device when its native resource is live
    there, has exactly [size_] bytes, and the write offset is not negative. *)
Definition backed (dev : Device) (sb : D3D12StagingBuffer) : Prop :=
  exists h bytes,
    native_ sb = Some h /\ resources dev !! h = Some bytes
    /\ Z.of_nat (length bytes) = size_ sb /\ 0 <= offset_ sb.

(** The barrier that takes [resource] to [newState], if it is not there. *)
Definition transitionBarriers (resource : D3D12Resource)
    (newState : D3D12_RESOURCE_STATES) : list D3D12_RESOURCE_BARRIER :=
  if currentState resource =? newState then []
  else [{| pResource := native resource;
           StateBefore := currentState resource;
           StateAfter := newState |}].

(** [copyBracketed ctx ctx' buffer copyState copies]: between [ctx] and
    [ctx'] the command list received the barriers that were pending, the
    transition of [buffer] to [copyState], and then [copies]; the transition
    back to the state [buffer] had is what is pending in [ctx']. *)
Definition copyBracketed (ctx ctx' : D3D12CommandContext) (buffer : D3D12Resource)
    (copyState : D3D12_RESOURCE_STATES) (copies : list D3D12Command) : Prop :=
  commandList ctx'
    = commandList ctx
      ++ (ResourceBarrier <$> (resourceBarriers ctx ++ transitionBarriers buffer copyState))
      ++ copies
  /\ resourceBarriers ctx'
     = transitionBarriers {| native := native buffer; currentState := copyState |}
                          (currentState buffer).

(** The invariant of a pool in use: the global buffers are at their start
    and the current chunk index is inside the chunk list or just behind. *)
Definition poolInvariant (p : D3D12StagingBufferPool) : Prop :=
  globalsAtStart p /\ (chunkIdx_ p <= length (chunks_ p))%nat.

(** ** A small scenario

    A device with a four-byte staging resource (handle 1) and a four-byte
    GPU buffer (handle 7); a pool whose only chunk has one byte left. *)

Definition exampleDevice : Device :=
  {| resources := {[ 1%nat := [Byte.x00; Byte.x00; Byte.x00; Byte.x00];
                     7%nat := [Byte.x01; Byte.x02; Byte.x03; Byte.x04] ]};
     calls := [] |}.

Definition examplePool : D3D12StagingBufferPool :=
  {| device_ := 0%nat; chunkSize_ := 8;
     chunks_ := [{| native_ := Some 1%nat; size_ := 4; offset_ := 3 |}];
     chunkIdx_ := 0%nat;
     globalUploadBuffer_ := D3D12StagingBuffer_default;
     globalReadbackBuffer_ := D3D12StagingBuffer_default |}.

Definition exampleContext : D3D12CommandContext :=
  {| commandList := []; resourceBarriers := [] |}.

Definition exampleBuffer : D3D12Resource :=
  {| native := Some 7%nat; currentState := D3D12_RESOURCE_STATE_COMMON |}.

Definition exampleData : list Byte.byte := [Byte.x0a; Byte.x0b].

Definition exampleOutput : list Byte.byte := [Byte.xff; Byte.xff; Byte.xff].

(** A staged write on a new pool; then a reset, a readback and a staged
    write of ten bytes, which the chunk of eight bytes cannot take. *)
Definition exampleCalls : list PoolCall :=
  [CallWriteStaged exampleDevice exampleContext exampleBuffer 1 exampleData 2 S_OK].

Definition exampleMoreCalls : list PoolCall :=
  [CallReset;
   CallReadSubresourceRegion exampleDevice exampleContext exampleBuffer
     1 exampleOutput 2 256 S_OK;
   CallWriteStaged exampleDevice exampleContext exampleBuffer 0
     (exampleData ++ exampleData ++ exampleData ++ exampleData ++ exampleData) 10 S_OK].

End D3D12.

(* ===================================================================== *)
(** * OpenGL backend                                                       *)
(* ===================================================================== *)

Module GL.

(** ** GLSwapChain.cpp *)

(** The members of GLSwapChain that GLSwapChain.cpp sets: the cached
    framebuffer height and the sample count of the GL context. *)
Record GLSwapChain := {
  framebufferHeight_ : Z;
  contextSamples : Z
}.

(** std::uint32_t GLSwapChain::GetCurrentSwapIndex() const { return 0; } *)
Definition GetCurrentSwapIndex (sc : GLSwapChain) : Z := 0.

(** std::uint32_t GLSwapChain::GetNumSwapBuffers() const { return 1; } *)
Definition GetNumSwapBuffers (sc : GLSwapChain) : Z := 1.

(** std::uint32_t GLSwapChain::GetSamples() const *)
Definition GetSamples (sc : GLSwapChain) : Z := contextSamples sc mod 2 ^ 32.

(** static_cast<GLint> of a std::uint32_t: the 32 bits read as a signed
    number, negative from 2^31 on. *)
Definition static_cast_GLint (u : Z) : Z :=
  let bits := u mod 2 ^ 32 in
  if bits <? 2 ^ 31 then bits else bits - 2 ^ 32.

(** bool GLSwapChain::ResizeBuffersPrimary(const Extent2D& resolution):
      const GLint height = static_cast<GLint>(resolution.height);
      framebufferHeight_ = height;
      return true;
    [resolutionHeight] is resolution.height. *)
Definition ResizeBuffersPrimary (sc : GLSwapChain) (resolutionHeight : Z)
  : GLSwapChain * bool :=
  (* Update context height *)
  let height := static_cast_GLint resolutionHeight in
  ({| framebufferHeight_ := height; contextSamples := contextSamples sc |}, true).

(** ** GLCommand.h: the payload structs of the deferred command buffer *)

(** One opcode per payload struct GLCmd<Name>, and one for each command whose
    struct is commented out because it has no payload.  GLCmdCopyImageBuffer
    serves the two opcodes its comment names. *)
Inductive GLOpcode :=
  | GLOpcodeBufferSubData
  | GLOpcodeCopyBufferSubData
  | GLOpcodeClearBufferData
  | GLOpcodeClearBufferSubData
  | GLOpcodeCopyImageSubData
  | GLOpcodeCopyImageToBuffer
  | GLOpcodeCopyImageFromBuffer
  | GLOpcodeGenerateMipmap
  | GLOpcodeGenerateMipmapSubresource
  | GLOpcodeExecute
  | GLOpcodeViewport
  | GLOpcodeViewportArray
  | GLOpcodeScissor
  | GLOpcodeScissorArray
  | GLOpcodeClearColor
  | GLOpcodeClearDepth
  | GLOpcodeClearStencil
  | GLOpcodeClear
  | GLOpcodeClearAttachmentsWithRenderPass
  | GLOpcodeClearBuffers
  | GLOpcodeBindVertexArray
  | GLOpcodeBindGL2XVertexArray
  | GLOpcodeBindElementArrayBufferToVAO
  | GLOpcodeBindBufferBase
  | GLOpcodeBindBuffersBase
  | GLOpcodeBeginTransformFeedback
  | GLOpcodeBeginTransformFeedbackNV
  | GLOpcodeEndTransformFeedback
  | GLOpcodeEndTransformFeedbackNV
  | GLOpcodeBindResourceHeap
  | GLOpcodeBindRenderTarget
  | GLOpcodeBindPipelineState
  | GLOpcodeSetBlendColor
  | GLOpcodeSetStencilRef
  | GLOpcodeSetUniforms
  | GLOpcodeBeginQuery
  | GLOpcodeEndQuery
  | GLOpcodeBeginConditionalRender
  | GLOpcodeEndConditionalRender
  | GLOpcodeDrawArrays
  | GLOpcodeDrawArraysInstanced
  | GLOpcodeDrawArraysInstancedBaseInstance
  | GLOpcodeDrawArraysIndirect
  | GLOpcodeDrawElements
  | GLOpcodeDrawElementsBaseVertex
  | GLOpcodeDrawElementsInstanced
  | GLOpcodeDrawElementsInstancedBaseVertex
  | GLOpcodeDrawElementsInstancedBaseVertexBaseInstance
  | GLOpcodeDrawElementsIndirect
  | GLOpcodeMultiDrawArraysIndirect
  | GLOpcodeMultiDrawElementsIndirect
  | GLOpcodeDispatchCompute
  | GLOpcodeDispatchComputeIndirect
  | GLOpcodeBindTexture
  | GLOpcodeBindImageTexture
  | GLOpcodeBindSampler
  | GLOpcodeBindGL2XSampler
  | GLOpcodeUnbindResources
  | GLOpcodePushDebugGroup
  | GLOpcodePopDebugGroup.

Definition allOpcodes : list GLOpcode :=
  [GLOpcodeBufferSubData;
   GLOpcodeCopyBufferSubData;
   GLOpcodeClearBufferData;
   GLOpcodeClearBufferSubData;
   GLOpcodeCopyImageSubData;
   GLOpcodeCopyImageToBuffer;
   GLOpcodeCopyImageFromBuffer;
   GLOpcodeGenerateMipmap;
   GLOpcodeGenerateMipmapSubresource;
   GLOpcodeExecute;
   GLOpcodeViewport;
   GLOpcodeViewportArray;
   GLOpcodeScissor;
   GLOpcodeScissorArray;
   GLOpcodeClearColor;
   GLOpcodeClearDepth;
   GLOpcodeClearStencil;
   GLOpcodeClear;
   GLOpcodeClearAttachmentsWithRenderPass;
   GLOpcodeClearBuffers;
   GLOpcodeBindVertexArray;
   GLOpcodeBindGL2XVertexArray;
   GLOpcodeBindElementArrayBufferToVAO;
   GLOpcodeBindBufferBase;
   GLOpcodeBindBuffersBase;
   GLOpcodeBeginTransformFeedback;
   GLOpcodeBeginTransformFeedbackNV;
   GLOpcodeEndTransformFeedback;
   GLOpcodeEndTransformFeedbackNV;
   GLOpcodeBindResourceHeap;
   GLOpcodeBindRenderTarget;
   GLOpcodeBindPipelineState;
   GLOpcodeSetBlendColor;
   GLOpcodeSetStencilRef;
   GLOpcodeSetUniforms;
   GLOpcodeBeginQuery;
   GLOpcodeEndQuery;
   GLOpcodeBeginConditionalRender;
   GLOpcodeEndConditionalRender;
   GLOpcodeDrawArrays;
   GLOpcodeDrawArraysInstanced;
   GLOpcodeDrawArraysInstancedBaseInstance;
   GLOpcodeDrawArraysIndirect;
   GLOpcodeDrawElements;
   GLOpcodeDrawElementsBaseVertex;
   GLOpcodeDrawElementsInstanced;
   GLOpcodeDrawElementsInstancedBaseVertex;
   GLOpcodeDrawElementsInstancedBaseVertexBaseInstance;
   GLOpcodeDrawElementsIndirect;
   GLOpcodeMultiDrawArraysIndirect;
   GLOpcodeMultiDrawElementsIndirect;
   GLOpcodeDispatchCompute;
   GLOpcodeDispatchComputeIndirect;
   GLOpcodeBindTexture;
   GLOpcodeBindImageTexture;
   GLOpcodeBindSampler;
   GLOpcodeBindGL2XSampler;
   GLOpcodeUnbindResources;
   GLOpcodePushDebugGroup;
   GLOpcodePopDebugGroup].

Global Instance GLOpcode_eq_dec : EqDecision GLOpcode.
Proof. solve_decision. Defined.

(** The layout of one payload struct: the names of its scalar fields in
    declaration order (members of nested structs and array elements
    spelled out), and the variable-length arrays that the struct's comments
    place directly after it, each with the field that holds its element
    count and the number of scalars per element.

    The member types that GLCommand.h takes from other headers are spelled
    out as the public headers declare them: Offset3D is x, y, z; Extent3D
    is width, height, depth; TextureRegion is a subresource (baseArrayLayer,
    numArrayLayers, baseMipLevel, numMipLevels), an offset and an extent;
    GLViewport and GLScissor are x, y, width, height; GLDepthRange is
    minDepth, maxDepth; an AttachmentClear is flags, colorAttachment and a
    ClearValue of four color components, depth and stencil (8 scalars).
    Floating-point members are carried as their bit patterns. *)
Record GLCmdFormat := {
  fields : list string;
  arrays : list (string * nat)
}.

Definition GLCmdCopyImageBuffer_fields : list string :=
  ["texture"; "region.subresource.baseArrayLayer"; "region.subresource.numArrayLayers"; "region.subresource.baseMipLevel"; "region.subresource.numMipLevels"; "region.offset.x"; "region.offset.y"; "region.offset.z"; "region.extent.width"; "region.extent.height"; "region.extent.depth"; "bufferID"; "offset"; "size"; "rowLength"; "imageHeight"].

Definition format (op : GLOpcode) : GLCmdFormat :=
  match op with
  | GLOpcodeBufferSubData =>
      {| fields := ["buffer"; "offset"; "size"];
         arrays := [("size", 1%nat)] |}
  | GLOpcodeCopyBufferSubData =>
      {| fields := ["writeBuffer"; "readBuffer"; "readOffset"; "writeOffset"; "size"];
         arrays := [] |}
  | GLOpcodeClearBufferData =>
      {| fields := ["buffer"; "data"];
         arrays := [] |}
  | GLOpcodeClearBufferSubData =>
      {| fields := ["buffer"; "offset"; "size"; "data"];
         arrays := [] |}
  | GLOpcodeCopyImageSubData =>
      {| fields := ["dstTexture"; "dstLevel"; "dstOffset.x"; "dstOffset.y"; "dstOffset.z"; "srcTexture"; "srcLevel"; "srcOffset.x"; "srcOffset.y"; "srcOffset.z"; "extent.width"; "extent.height"; "extent.depth"];
         arrays := [] |}
  | GLOpcodeCopyImageToBuffer =>
      {| fields := GLCmdCopyImageBuffer_fields;
         arrays := [] |}
  | GLOpcodeCopyImageFromBuffer =>
      {| fields := GLCmdCopyImageBuffer_fields;
         arrays := [] |}
  | GLOpcodeGenerateMipmap =>
      {| fields := ["texture"];
         arrays := [] |}
  | GLOpcodeGenerateMipmapSubresource =>
      {| fields := ["texture"; "baseMipLevel"; "numMipLevels"; "baseArrayLayer"; "numArrayLayers"];
         arrays := [] |}
  | GLOpcodeExecute =>
      {| fields := ["commandBuffer"];
         arrays := [] |}
  | GLOpcodeViewport =>
      {| fields := ["viewport.x"; "viewport.y"; "viewport.width"; "viewport.height"; "depthRange.minDepth"; "depthRange.maxDepth"];
         arrays := [] |}
  | GLOpcodeViewportArray =>
      {| fields := ["first"; "count"];
         arrays := [("count", 4%nat); ("count", 2%nat)] |}
  | GLOpcodeScissor =>
      {| fields := ["scissor.x"; "scissor.y"; "scissor.width"; "scissor.height"];
         arrays := [] |}
  | GLOpcodeScissorArray =>
      {| fields := ["first"; "count"];
         arrays := [("count", 4%nat)] |}
  | GLOpcodeClearColor =>
      {| fields := ["color[0]"; "color[1]"; "color[2]"; "color[3]"];
         arrays := [] |}
  | GLOpcodeClearDepth =>
      {| fields := ["depth"];
         arrays := [] |}
  | GLOpcodeClearStencil =>
      {| fields := ["stencil"];
         arrays := [] |}
  | GLOpcodeClear =>
      {| fields := ["flags"];
         arrays := [] |}
  | GLOpcodeClearAttachmentsWithRenderPass =>
      {| fields := ["renderPass"; "numClearValues"];
         arrays := [("numClearValues", 1%nat)] |}
  | GLOpcodeClearBuffers =>
      {| fields := ["numAttachments"];
         arrays := [("numAttachments", 8%nat)] |}
  | GLOpcodeBindVertexArray =>
      {| fields := ["vao"];
         arrays := [] |}
  | GLOpcodeBindGL2XVertexArray =>
      {| fields := ["vertexArrayGL2X"];
         arrays := [] |}
  | GLOpcodeBindElementArrayBufferToVAO =>
      {| fields := ["id"; "indexType16Bits"];
         arrays := [] |}
  | GLOpcodeBindBufferBase =>
      {| fields := ["target"; "index"; "id"];
         arrays := [] |}
  | GLOpcodeBindBuffersBase =>
      {| fields := ["target"; "first"; "count"];
         arrays := [("count", 1%nat)] |}
  | GLOpcodeBeginTransformFeedback =>
      {| fields := ["primitiveMove"];
         arrays := [] |}
  | GLOpcodeBeginTransformFeedbackNV =>
      {| fields := ["primitiveMove"];
         arrays := [] |}
  | GLOpcodeEndTransformFeedback =>
      {| fields := [];
         arrays := [] |}
  | GLOpcodeEndTransformFeedbackNV =>
      {| fields := [];
         arrays := [] |}
  | GLOpcodeBindResourceHeap =>
      {| fields := ["resourceHeap"; "descriptorSet"];
         arrays := [] |}
  | GLOpcodeBindRenderTarget =>
      {| fields := ["renderTarget"];
         arrays := [] |}
  | GLOpcodeBindPipelineState =>
      {| fields := ["pipelineState"];
         arrays := [] |}
  | GLOpcodeSetBlendColor =>
      {| fields := ["color[0]"; "color[1]"; "color[2]"; "color[3]"];
         arrays := [] |}
  | GLOpcodeSetStencilRef =>
      {| fields := ["ref"; "face"];
         arrays := [] |}
  | GLOpcodeSetUniforms =>
      {| fields := ["program"; "type"; "location"; "count"; "size"];
         arrays := [("size", 1%nat)] |}
  | GLOpcodeBeginQuery =>
      {| fields := ["queryHeap"; "query"];
         arrays := [] |}
  | GLOpcodeEndQuery =>
      {| fields := ["queryHeap"];
         arrays := [] |}
  | GLOpcodeBeginConditionalRender =>
      {| fields := ["id"; "mode"];
         arrays := [] |}
  | GLOpcodeEndConditionalRender =>
      {| fields := [];
         arrays := [] |}
  | GLOpcodeDrawArrays =>
      {| fields := ["mode"; "first"; "count"];
         arrays := [] |}
  | GLOpcodeDrawArraysInstanced =>
      {| fields := ["mode"; "first"; "count"; "instancecount"];
         arrays := [] |}
  | GLOpcodeDrawArraysInstancedBaseInstance =>
      {| fields := ["mode"; "first"; "count"; "instancecount"; "baseinstance"];
         arrays := [] |}
  | GLOpcodeDrawArraysIndirect =>
      {| fields := ["id"; "numCommands"; "mode"; "indirect"; "stride"];
         arrays := [] |}
  | GLOpcodeDrawElements =>
      {| fields := ["mode"; "count"; "type"; "indices"];
         arrays := [] |}
  | GLOpcodeDrawElementsBaseVertex =>
      {| fields := ["mode"; "count"; "type"; "indices"; "basevertex"];
         arrays := [] |}
  | GLOpcodeDrawElementsInstanced =>
      {| fields := ["mode"; "count"; "type"; "indices"; "instancecount"];
         arrays := [] |}
  | GLOpcodeDrawElementsInstancedBaseVertex =>
      {| fields := ["mode"; "count"; "type"; "indices"; "instancecount"; "basevertex"];
         arrays := [] |}
  | GLOpcodeDrawElementsInstancedBaseVertexBaseInstance =>
      {| fields := ["mode"; "count"; "type"; "indices"; "instancecount"; "basevertex"; "baseinstance"];
         arrays := [] |}
  | GLOpcodeDrawElementsIndirect =>
      {| fields := ["id"; "numCommands"; "mode"; "type"; "indirect"; "stride"];
         arrays := [] |}
  | GLOpcodeMultiDrawArraysIndirect =>
      {| fields := ["id"; "mode"; "indirect"; "drawcount"; "stride"];
         arrays := [] |}
  | GLOpcodeMultiDrawElementsIndirect =>
      {| fields := ["id"; "mode"; "type"; "indirect"; "drawcount"; "stride"];
         arrays := [] |}
  | GLOpcodeDispatchCompute =>
      {| fields := ["numgroups[0]"; "numgroups[1]"; "numgroups[2]"];
         arrays := [] |}
  | GLOpcodeDispatchComputeIndirect =>
      {| fields := ["id"; "indirect"];
         arrays := [] |}
  | GLOpcodeBindTexture =>
      {| fields := ["slot"; "texture"];
         arrays := [] |}
  | GLOpcodeBindImageTexture =>
      {| fields := ["unit"; "level"; "format"; "texture"];
         arrays := [] |}
  | GLOpcodeBindSampler =>
      {| fields := ["layer"; "sampler"];
         arrays := [] |}
  | GLOpcodeBindGL2XSampler =>
      {| fields := ["layer"; "samplerGL2X"];
         arrays := [] |}
  | GLOpcodeUnbindResources =>
      {| fields := ["first"; "count"; "resetFlags"];
         arrays := [] |}
  | GLOpcodePushDebugGroup =>
      {| fields := ["source"; "id"; "length"];
         arrays := [("length", 1%nat)] |}
  | GLOpcodePopDebugGroup =>
      {| fields := [];
         arrays := [] |}
  end.

(** ** The deferred command buffer over these structs *)

(** Modelled from the spec: GLOpcode.h is not among the sources; the opcodes
    are numbered from 1 in the order of the structs of GLCommand.h. *)
Definition opcodeValue (op : GLOpcode) : Z :=
  match list_find (fun o => o = op) allOpcodes with
  | Some (i, _) => Z.of_nat (S i)
  | None => 0
  end.

Definition opcodeOfValue (v : Z) : option GLOpcode :=
  if 1 <=? v then allOpcodes !! Z.to_nat (v - 1) else None.

(** A high-level command as it reaches a command buffer: which command it
    is, the values of the payload struct's fields in declaration order, and
    the elements of its variable-length arrays. *)
Record GLCommand := {
  opcode : GLOpcode;
  payload : list Z;
  trailing : list Z
}.

Definition fieldValue (fs : list string) (values : list Z) (name : string) : Z :=
  match list_find (String.eqb name) fs with
  | Some (i, _) => default 0 (values !! i)
  | None => 0
  end.

(** How many scalars follow the payload struct of [op] whose field values
    are [values]: for each array, its count field times the element size. *)
Definition trailingSlots (op : GLOpcode) (values : list Z) : nat :=
  foldr (fun a acc =>
           (Z.to_nat (fieldValue (fields (format op)) values (fst a)) * snd a + acc)%nat)
        0%nat (arrays (format op)).

(** A command is well formed when it carries one value per field of its
    struct and as many array elements as its count fields announce. *)
Definition wellFormed (c : GLCommand) : bool :=
  Nat.eqb (length (payload c)) (length (fields (format (opcode c))))
  && Nat.eqb (length (trailing c)) (trailingSlots (opcode c) (payload c)).

(** Modelled from the spec: a native call made on the GL context, "the same
    native calls, in the same order and with the same arguments": the entry
    point a command maps to, its scalar arguments and its array argument. *)
Record GLNativeCall := {
  entryPoint : GLOpcode;
  arguments : list Z;
  arrayArgument : list Z
}.

Definition nativeCall (op : GLOpcode) (values data : list Z) : GLNativeCall :=
  {| entryPoint := op; arguments := values; arrayArgument := data |}.

(** Modelled from the spec: the immediate command buffer (not among the
    sources), "executed immediately against a native context": every
    command makes its native call when it is issued; the context is the
    list of calls made so far, oldest first. *)
Definition issueImmediate (context : list GLNativeCall) (c : GLCommand)
  : list GLNativeCall :=
  context ++ [nativeCall (opcode c) (payload c) (trailing c)].

Definition immediateCommandBuffer (context : list GLNativeCall) (cs : list GLCommand)
  : list GLNativeCall :=
  foldl issueImmediate context cs.

(** Modelled from the spec: the deferred command buffer (not among the
    sources), "each high-level command is encoded as one fixed opcode payload
    struct, with any variable-length data appended directly after the
    payload": recording appends the opcode, the payload fields and the
    array elements to the stream. *)
Definition encodeCommand (c : GLCommand) : list Z :=
  opcodeValue (opcode c) :: payload c ++ trailing c.

Definition recordDeferred (stream : list Z) (c : GLCommand) : list Z :=
  stream ++ encodeCommand c.

Definition deferredCommandBuffer (cs : list GLCommand) : list Z :=
  foldl recordDeferred [] cs.

(** Modelled from the spec: the replay of an opcode stream (the executor is
    not among the sources): read the opcode, read the payload struct it
    announces, read the arrays the payload announces, make the native call,
    go on behind them.  A stream that ends inside a command or holds an
    unknown opcode is rejected.  One unit of [fuel] per command. *)
Fixpoint replay (fuel : nat) (context : list GLNativeCall) (stream : list Z)
  : option (list GLNativeCall) :=
  match stream with
  | [] => Some context
  | v :: rest =>
      match fuel with
      | O => None
      | S fuel' =>
          match opcodeOfValue v with
          | None => None
          | Some op =>
              let n := length (fields (format op)) in
              if (n <=? length rest)%nat then
                let values := take n rest in
                let m := trailingSlots op values in
                if (m <=? length (drop n rest))%nat then
                  replay fuel' (context ++ [nativeCall op values (take m (drop n rest))])
                         (drop m (drop n rest))
                else None
              else None
          end
      end
  end.

(** Replaying a whole stream: it holds at most one command per scalar. *)
Definition executeDeferred (context : list GLNativeCall) (stream : list Z)
  : option (list GLNativeCall) :=
  replay (length stream) context stream.

(** ** Small examples *)

Definition exampleSwapChain : GLSwapChain :=
  {| framebufferHeight_ := 600; contextSamples := 4 |}.

(** glDrawArrays(GL_TRIANGLES = 4, 0, 3); a buffer update of three bytes; two
    viewports with their depth ranges; an end of a conditional render. *)
Definition exampleCommands : list GLCommand :=
  [ {| opcode := GLOpcodeDrawArrays; payload := [4; 0; 3]; trailing := [] |};
    {| opcode := GLOpcodeBufferSubData; payload := [4096; 16; 3];
       trailing := [10; 11; 12] |};
    {| opcode := GLOpcodeViewportArray; payload := [0; 2];
       trailing := [0; 0; 640; 480; 640; 0; 640; 480; 0; 1; 0; 1] |};
    {| opcode := GLOpcodeEndConditionalRender; payload := []; trailing := [] |} ].

End GL.

(* ===================================================================== *)
(** * Platform: Canvas                                                     *)
(* ===================================================================== *)

Module Platform.

(** A std::shared_ptr<EventListener> is identified by the address of the
    listener it owns. *)
Definition EventListener := nat.

Record Canvas := {
  eventListeners_ : list EventListener
}.

(** What a call of ProcessEvents invokes, in order. *)
Inductive Notification :=
  | ListenerOnProcessEvents (lst : EventListener)
  | CanvasOnProcessEvents.

Section Create.

(** CanvasDescriptor and VideoModeDescriptor are declared in headers that
    are not among the sources; neither function looks inside them. *)
Variables CanvasDescriptor VideoModeDescriptor : Type.

(** On a mobile platform Canvas::Create comes from the platform's own
    source file. *)
Variable platformCreate : CanvasDescriptor -> option Canvas.

(** #ifndef LLGL_MOBILE_PLATFORM
    std::unique_ptr<Canvas> Canvas::Create(const CanvasDescriptor& desc)
    { return nullptr; }
    #endif *)
Definition Create (LLGL_MOBILE_PLATFORM : bool) (desc : CanvasDescriptor)
  : option Canvas :=
  if LLGL_MOBILE_PLATFORM then platformCreate desc else None.

(** bool Canvas::AdaptForVideoMode(VideoModeDescriptor& videoModeDesc) *)
Definition AdaptForVideoMode (canvas : Canvas) (videoModeDesc : VideoModeDescriptor)
  : bool :=
  false.

End Create.

(** void Canvas::ProcessEvents():
      for (const auto& lst : eventListeners_) lst->OnProcessEvents of this canvas;
      OnProcessEvents(); *)
Definition ProcessEvents (canvas : Canvas) : list Notification :=
  (ListenerOnProcessEvents <$> eventListeners_ canvas) ++ [CanvasOnProcessEvents].

(** Modelled from the spec: AddOnceToSharedList of Core/Helper.h (not among
    the sources), "inserts a listener only if it is not already in the
    list". *)
Definition AddOnceToSharedList (cont : list EventListener) (entry : EventListener)
  : list EventListener :=
  if bool_decide (entry ∈ cont) then cont else cont ++ [entry].

(** Modelled from the spec: RemoveFromSharedList of Core/Helper.h (not among
    the sources), "removes it": the entry found first is erased. *)
Fixpoint RemoveFromSharedList (cont : list EventListener) (entry : EventListener)
  : list EventListener :=
  match cont with
  | [] => []
  | e :: cont' =>
      if bool_decide (e = entry) then cont'
      else e :: RemoveFromSharedList cont' entry
  end.

Definition AddEventListener (canvas : Canvas) (eventListener : EventListener) : Canvas :=
  {| eventListeners_ := AddOnceToSharedList (eventListeners_ canvas) eventListener |}.

Definition RemoveEventListener (canvas : Canvas) (eventListener : EventListener) : Canvas :=
  {| eventListeners_ := RemoveFromSharedList (eventListeners_ canvas) eventListener |}.

(** A canvas starts without listeners; its list changes only through the
    two member functions. *)
Definition Canvas_new : Canvas := {| eventListeners_ := [] |}.

Inductive ListenerCall :=
  | CallAddEventListener (lst : EventListener)
  | CallRemoveEventListener (lst : EventListener).

Definition callCanvas (canvas : Canvas) (c : ListenerCall) : Canvas :=
  match c with
  | CallAddEventListener lst => AddEventListener canvas lst
  | CallRemoveEventListener lst => RemoveEventListener canvas lst
  end.

Definition callsCanvas (canvas : Canvas) (cs : list ListenerCall) : Canvas :=
  foldl callCanvas canvas cs.

End Platform.

(* ===================================================================== *)
(** * Testbed: renderer module names                                       *)
(* ===================================================================== *)

Module Testbed.

Local Open Scope string_scope.

(** struct ModuleAndVersion { std::string name; int version; } *)
Record ModuleAndVersion := {
  name : string;
  version : Z
}.

(** The characters of a std::string that a const char* obtained with c_str()
    designates: those before the first NUL. *)
Fixpoint c_str (s : string) : string :=
  match s with
  | EmptyString => EmptyString
  | String c s' => if Ascii.eqb c "000"%char then EmptyString else String c (c_str s')
  end.

(** ModuleAndVersion(const char* name, int version = 0) *)
Definition ModuleAndVersion_from_chars (name : string) (version : Z) : ModuleAndVersion :=
  {| name := c_str name; version := version |}.

(** ModuleAndVersion(const std::string& name, int version = 0) *)
Definition ModuleAndVersion_from_string (name : string) (version : Z) : ModuleAndVersion :=
  {| name := name; version := version |}.

Definition isdigit (c : ascii) : bool :=
  let n := N_of_ascii c in ((48 <=? n) && (n <=? 57))%N.

Definition isspace (c : ascii) : bool :=
  let n := N_of_ascii c in ((n =? 32) || ((9 <=? n) && (n <=? 13)))%N.

Definition digitValue (c : ascii) : Z := Z.of_N (N_of_ascii c) - 48.

(** The regular expressions of GetRendererModule are sequences of atoms,
    each repeated a fixed number of times: a literal character, or \d. *)
Inductive RegexAtom :=
  | Literal (c : ascii)
  | DecimalDigit.

Definition regex := list (RegexAtom * nat).

Definition atomMatches (a : RegexAtom) (c : ascii) : bool :=
  match a with
  | Literal c' => Ascii.eqb c c'
  | DecimalDigit => isdigit c
  end.

(** Consumes exactly [n] characters that match [a]; the rest, or [None]. *)
Fixpoint matchRepeat (a : RegexAtom) (n : nat) (s : string) : option string :=
  match n with
  | O => Some s
  | S n' =>
      match s with
      | EmptyString => None
      | String c s' => if atomMatches a c then matchRepeat a n' s' else None
      end
  end.

(** std::regex_match: the whole string must match the whole expression. *)
Fixpoint regex_match (s : string) (r : regex) : bool :=
  match r with
  | [] => match s with EmptyString => true | _ => false end
  | (a, n) :: r' =>
      match matchRepeat a n s with
      | Some rest => regex_match rest r'
      | None => false
      end
  end.

(** R"(gl\d{3})" *)
Definition regex_gl : regex :=
  [(Literal "g"%char, 1%nat); (Literal "l"%char, 1%nat); (DecimalDigit, 3%nat)].

(** R"(opengl\d{3})" *)
Definition regex_opengl : regex :=
  [(Literal "o"%char, 1%nat); (Literal "p"%char, 1%nat); (Literal "e"%char, 1%nat);
   (Literal "n"%char, 1%nat); (Literal "g"%char, 1%nat); (Literal "l"%char, 1%nat);
   (DecimalDigit, 3%nat)].

Fixpoint skipSpaces (s : string) : string :=
  match s with
  | String c s' => if isspace c then skipSpaces s' else s
  | EmptyString => s
  end.

Fixpoint atoiDigits (acc : Z) (s : string) : Z :=
  match s with
  | String c s' => if isdigit c then atoiDigits (10 * acc + digitValue c) s' else acc
  | EmptyString => acc
  end.

(** std::atoi: leading white space, an optional sign, then decimal digits up
    to the first character that is none.  The value is not reduced to the
    range of int: the calls below pass three digits. *)
Definition atoi (s : string) : Z :=
  match skipSpaces s with
  | String "-"%char s' => - atoiDigits 0 s'
  | String "+"%char s' => atoiDigits 0 s'
  | s' => atoiDigits 0 s'
  end.

(** name.c_str() + n *)
Fixpoint advance (n : nat) (s : string) : string :=
  match n, s with
  | S n', String _ s' => advance n' s'
  | _, _ => s
  end.

(** static ModuleAndVersion GetRendererModule(const std::string& name) *)
Definition GetRendererModule (name : string) : ModuleAndVersion :=
  if String.eqb name "gl" || String.eqb name "opengl" then
    ModuleAndVersion_from_chars "OpenGL" 0
  else if String.eqb name "vk" || String.eqb name "vulkan" then
    ModuleAndVersion_from_chars "Vulkan" 0
  else if String.eqb name "mt" || String.eqb name "mtl" || String.eqb name "metal" then
    ModuleAndVersion_from_chars "Metal" 0
  else if String.eqb name "d3d11" || String.eqb name "dx11" || String.eqb name "direct3d11" then
    ModuleAndVersion_from_chars "Direct3D11" 0
  else if String.eqb name "d3d12" || String.eqb name "dx12" || String.eqb name "direct3d12" then
    ModuleAndVersion_from_chars "Direct3D12" 0
  else if String.eqb name "null" then
    ModuleAndVersion_from_chars "Null" 0
  else if regex_match name regex_gl then
    ModuleAndVersion_from_chars "OpenGL" (atoi (advance 2 (c_str name)))
  else if regex_match name regex_opengl then
    ModuleAndVersion_from_chars "OpenGL" (atoi (advance 6 (c_str name)))
  else
    ModuleAndVersion_from_chars name 0.

(** The module-name arguments of the testbed are elements of argv: C strings,
    which hold no NUL character. *)
Fixpoint isArgument (s : string) : bool :=
  match s with
  | EmptyString => true
  | String c s' => negb (Ascii.eqb c "000"%char) && isArgument s'
  end.

(** The table of the recognized aliases and the module each one names. *)
Definition aliases : list (string * string) :=
  [("gl", "OpenGL"); ("opengl", "OpenGL");
   ("vk", "Vulkan"); ("vulkan", "Vulkan");
   ("mt", "Metal"); ("mtl", "Metal"); ("metal", "Metal");
   ("d3d11", "Direct3D11"); ("dx11", "Direct3D11"); ("direct3d11", "Direct3D11");
   ("d3d12", "Direct3D12"); ("dx12", "Direct3D12"); ("direct3d12", "Direct3D12");
   ("null", "Null")].

(** [prefix] followed by exactly three decimal digits. *)
Definition versioned (prefix : string) (d1 d2 d3 : ascii) : string :=
  String.append prefix (String d1 (String d2 (String d3 EmptyString))).

(** The number those three digits write. *)
Definition versionOf (d1 d2 d3 : ascii) : Z :=
  100 * digitValue d1 + 10 * digitValue d2 + digitValue d3.

End Testbed.

(* ===================================================================== *)
(** * Testbed: the main program                                            *)
(* ===================================================================== *)

Module TestbedMain.

Import Testbed.

(** ::strcmp on two C strings.  The C library fixes only the sign of the
    result; -1, 0 and 1 stand for negative, zero and positive. *)
Definition strcmp (a b : string) : Z :=
  match String.compare (c_str a) (c_str b) with
  | Eq => 0
  | Lt => -1
  | Gt => 1
  end.

(** The loop of HasProgramArgument,
      for (int i = 1; i < argc; ++i)
          if (::strcmp(argv[i], search) == 0) return true;
      return false;
    one unit of [fuel] per evaluation of the loop condition.  Reading
    [argv[i]] outside the array is undefined: [None]. *)
Fixpoint HasProgramArgument_loop (fuel : nat) (i argc : Z) (argv : list string)
    (search : string) : option bool :=
  match fuel with
  | O => None
  | S fuel' =>
      if (i <? argc)%Z then
        match argv !! Z.to_nat i with
        | None => None
        | Some arg =>
            if (strcmp arg search =? 0)%Z then Some true
            else HasProgramArgument_loop fuel' (i + 1) argc argv search
        end
      else Some false
  end.

(** static bool HasProgramArgument(int argc, char* argv[], const char* search) *)
Definition HasProgramArgument (argc : Z) (argv : list string) (search : string)
  : option bool :=
  HasProgramArgument_loop (S (Z.to_nat argc)) 1 argc argv search.

(** What the program prints and which tests it runs, in order. *)
Inductive Output :=
  | PrintHelpDocs
  | PrintRunIndependentTests
  | PrintSeparator
  | PrintRunTestbed (moduleName : string) (version : option Z)
  | PrintNewline
  | RunIndependentTests (arguments : list string)
  | RunAllTests (moduleName : string) (version : Z) (arguments : list string)
  | PrintAllModulesPassed
  | PrintOneModuleFailed
  | PrintModulesFailed (count : Z).

(** unsigned is 32 bits wide; static_cast<int> reinterprets it. *)
Definition UINT_modulus : Z := 2 ^ 32.

Definition static_cast_int (u : Z) : Z :=
  if (u <? 2 ^ 31)%Z then u else u - UINT_modulus.

Section Tests.

(** TestbedContext is declared in TestbedContext.h, which is not among the
    sources: the numbers of failures its test runs report are parameters,
    and so is the list that RenderSystem::FindModules returns. *)
Variable independentFailures : list string -> Z.
Variable rendererFailures : string -> Z -> list string -> Z.
Variable availableModules : list string.

(** static unsigned RunRendererIndependentTests(int argc, char* argv[]) *)
Definition RunRendererIndependentTests (arguments : list string) : Z * list Output :=
  (independentFailures arguments,
   [PrintRunIndependentTests; PrintSeparator; RunIndependentTests arguments;
    PrintSeparator]).

(** static unsigned RunTestbedForRenderer(const char* moduleName, int version,
                                          int argc, char* argv[]) *)
Definition RunTestbedForRenderer (moduleName : string) (version : Z)
    (arguments : list string) : Z * list Output :=
  (rendererFailures moduleName version arguments,
   [PrintRunTestbed moduleName (if (version =? 0)%Z then None else Some version);
    PrintSeparator; RunAllTests moduleName version arguments;
    PrintSeparator; PrintNewline]).

(** The first character of a C string; of the empty string, its NUL. *)
Definition firstChar (s : string) : ascii :=
  match c_str s with
  | EmptyString => "000"%char
  | String c _ => c
  end.

(** The first loop of GuardedMain,
      for (int i = 1; i < argc; ++i)
          if (argv[i][0] != '-')
              enabledModules.push_back(GetRendererModule(argv[i])); *)
Fixpoint gatherModules (fuel : nat) (i argc : Z) (argv : list string)
    (enabledModules : list ModuleAndVersion) : option (list ModuleAndVersion) :=
  match fuel with
  | O => None
  | S fuel' =>
      if (i <? argc)%Z then
        match argv !! Z.to_nat i with
        | None => None
        | Some arg =>
            gatherModules fuel' (i + 1) argc argv
              (if negb (Ascii.eqb (firstChar arg) "-"%char)
               then enabledModules ++ [GetRendererModule (c_str arg)]
               else enabledModules)
        end
      else Some enabledModules
  end.

(** The loop over the enabled modules,
      for (const ModuleAndVersion& module : enabledModules)
          if (RunTestbedForRenderer(...) != 0) ++modulesWithFailedTests; *)
Fixpoint runModules (enabledModules : list ModuleAndVersion) (arguments : list string)
    (modulesWithFailedTests : Z) (out : list Output) : Z * list Output :=
  match enabledModules with
  | [] => (modulesWithFailedTests, out)
  | module :: rest =>
      let '(failures, printed) :=
        RunTestbedForRenderer (c_str (name module)) (version module) arguments in
      runModules rest arguments
        (if negb (failures =? 0)%Z then (modulesWithFailedTests + 1) mod UINT_modulus
         else modulesWithFailedTests)
        (out ++ printed)
  end.

(** static int GuardedMain(int argc, char* argv[]): the result and what
    was printed and run.  The pause that follows on Windows is left out. *)
Definition GuardedMain (argc : Z) (argv : list string) : option (Z * list Output) :=
  match HasProgramArgument argc argv "-h"%string with
  | None => None
  | Some help1 =>
      (* || evaluates its right operand only when the left one is false *)
      match (if help1 then Some true else HasProgramArgument argc argv "--help"%string) with
      | None => None
      | Some true => Some (0, [PrintHelpDocs])
      | Some false =>
          (* Gather all explicitly specified module names *)
          match gatherModules (S (Z.to_nat argc)) 1 argc argv [] with
          | None => None
          | Some explicitModules =>
              let enabledModules :=
                match explicitModules with
                | [] => (fun module => ModuleAndVersion_from_string module 0)
                          <$> availableModules
                | _ => explicitModules
                end in
              let arguments := drop 1 argv in
              (* Run renderer independent tests *)
              let '(failures, out1) := RunRendererIndependentTests arguments in
              let failed1 := if negb (failures =? 0)%Z then 1 else 0 in
              (* Run renderer specific tests *)
              let '(modulesWithFailedTests, out2) :=
                runModules enabledModules arguments failed1 out1 in
              (* Print summary *)
              let summary :=
                if (modulesWithFailedTests =? 0)%Z then [PrintAllModulesPassed]
                else if (modulesWithFailedTests =? 1)%Z then [PrintOneModuleFailed]
                else if (1 <? modulesWithFailedTests)%Z
                     then [PrintModulesFailed modulesWithFailedTests]
                else [] in
              (* Return number of failed modules as error code *)
              Some (static_cast_int modulesWithFailedTests, out2 ++ summary)
          end
      end
  end.

End Tests.





(** Whether [search] is among the arguments behind the program name. *)
Definition isArgumentOf (argv : list string) (search : string) : Prop :=
  exists arg, arg ∈ drop 1 argv /\ c_str arg = c_str search.

End TestbedMain.

(* ===================================================================== *)
(** * Staging-buffer pool: notions for further properties                  *)
(* ===================================================================== *)

Module D3D12More.

Import D3D12.

(** The write offset of a chunk lies inside the chunk. *)
Definition offsetInside (chunk : D3D12StagingBuffer) : Prop :=
  0 <= offset_ chunk <= size_ chunk.

(** UINT64 sizes are not negative: the calls whose size argument is one. *)
Definition sizeArgumentValid (c : PoolCall) : Prop :=
  match c with
  | CallWriteStaged _ _ _ _ _ dataSize _ => 0 <= dataSize
  | _ => True
  end.

(** The bytes [offset, offset + size) of a resource. *)
Definition region (bytes : list Byte.byte) (offset size : Z) : list Byte.byte :=
  take (Z.to_nat size) (drop (Z.to_nat offset) bytes).

(** A pool whose global upload buffer is resource 1 of four bytes, and a
    device that holds it beside the example buffer. *)
Definition exampleUploadPool : D3D12StagingBufferPool :=
  {| device_ := 0%nat; chunkSize_ := 8; chunks_ := []; chunkIdx_ := 0%nat;
     globalUploadBuffer_ := {| native_ := Some 1%nat; size_ := 4; offset_ := 0 |};
     globalReadbackBuffer_ := D3D12StagingBuffer_default |}.

Definition exampleUploadDevice : Device :=
  {| resources := {[ 1%nat := [Byte.x0a; Byte.x0b; Byte.x0c; Byte.x0d];
                     7%nat := [Byte.x01; Byte.x02; Byte.x03; Byte.x04] ]};
     calls := [] |}.

End D3D12More.

(* ===================================================================== *)
(** * Tutorials: selection of the renderer module                          *)
(* ===================================================================== *)

Module Tutorial.

Import Testbed.

(** std::size_t is 64 bits wide; int is 32 bits wide. *)
Definition SIZE_modulus : Z := 2 ^ 64.

Definition INT_MAX : Z := 2 ^ 31 - 1.

(** What GetSelectedRendererModule writes to std::cout and std::cerr, in
    order. *)
Inductive Output :=
  | PrintSelectRenderer
  | PrintModule (i : Z) (module : string)
  | PrintInvalidInput
  | PrintSelectedRenderer (rendererModule : string).

#[global] Instance Output_eq_dec : EqDecision Output.
Proof. solve_decision. Defined.

(** The function returns the name or leaves with std::runtime_error. *)
Inductive Outcome :=
  | Returned (rendererModule : string)
  | Thrown (what : string).

(** std::string::empty *)
Definition empty (s : string) : bool :=
  match s with
  | EmptyString => true
  | String _ _ => false
  end.

(** int i = 0;
    for (const auto& mod : modules)
        std::cout << " " << (++i) << ".) " << mod << std::endl;
    Incrementing an int that holds INT_MAX is undefined: [None]. *)
Fixpoint printModules (i : Z) (modules : list string) : option (list Output) :=
  match modules with
  | [] => Some []
  | module :: modules' =>
      if i <? INT_MAX then
        match printModules (i + 1) modules' with
        | None => None
        | Some out => Some (PrintModule (i + 1) module :: out)
        end
      else None
  end.

(** while (rendererModule.empty()) { ... }, entered with an empty name.
    [input] lists the values that the successive [std::cin >> selection]
    store, one per iteration; with no value left the loop has no result. *)
Fixpoint selectLoop (modules : list string) (input : list Z)
  : option (string * list Output * list Z) :=
  match input with
  | [] => None
  | selection :: input' =>
      (* Print list of available modules *)
      match printModules 0 modules with
      | None => None
      | Some listing =>
          (* Wait for user input *)
          let selection := (selection - 1) mod SIZE_modulus in
          if selection <? Z.of_nat (length modules) then
            match modules !! Z.to_nat selection with
            | None => None
            | Some rendererModule =>
                if empty rendererModule then
                  match selectLoop modules input' with
                  | None => None
                  | Some (name, out, rest) =>
                      Some (name, PrintSelectRenderer :: listing ++ out, rest)
                  end
                else Some (rendererModule, PrintSelectRenderer :: listing, input')
            end
          else
            match selectLoop modules input' with
            | None => None
            | Some (name, out, rest) =>
                Some (name,
                      PrintSelectRenderer :: listing ++ PrintInvalidInput :: out, rest)
            end
      end
  end.

(** static std::string GetSelectedRendererModule(int argc, char* argv[]).
    [modules] is what LLGL::RenderSystem::FindModules returns; the result
    is the outcome, the output and the input that is left. *)
Definition GetSelectedRendererModule (argc : Z) (argv : list string)
    (modules : list string) (input : list Z)
  : option (Outcome * list Output * list Z) :=
  if 1 <? argc then
    (* Get renderer module name from command line argument *)
    match argv !! 1%nat with
    | None => None
    | Some arg =>
        let rendererModule := c_str arg in
        Some (Returned rendererModule, [PrintSelectedRenderer rendererModule], input)
    end
  else
    (* Find available modules *)
    match modules with
    | [] =>
        (* No modules available -> throw error *)
        Some (Thrown "no renderer modules available on target platform", [], input)
    | [rendererModule] =>
        (* Use the only available module *)
        Some (Returned rendererModule, [PrintSelectedRenderer rendererModule], input)
    | _ =>
        (* Let user select a renderer *)
        match selectLoop modules input with
        | None => None
        | Some (rendererModule, out, input') =>
            Some (Returned rendererModule,
                  out ++ [PrintSelectedRenderer rendererModule], input')
        end
    end.

(** How often an output occurs. *)
Definition occurrences (o : Output) (out : list Output) : nat :=
  length (filter (fun o' => o' = o) out).

(** A value typed at the prompt that names no module: the entries are
    numbered from 1. *)
Definition invalidSelection (modules : list string) (selection : Z) : Prop :=
  0 <= selection < SIZE_modulus
  /\ (selection = 0 \/ Z.of_nat (length modules) < selection).

End Tutorial.

(* ===================================================================== *)
(** * Properties of the staging-buffer pool                                *)
(* ===================================================================== *)

Module D3D12Proofs.

Import D3D12.

(** ** The search loop of WriteStaged *)

Lemma findChunk_bounds fuel chunks idx dataSize :
  (idx <= findChunk fuel chunks idx dataSize)%nat
  /\ ((idx <= length chunks)%nat ->
      (findChunk fuel chunks idx dataSize <= length chunks)%nat).
Proof.
  revert idx. induction fuel as [|fuel IH]; intros idx; simpl; [lia|].
  destruct (chunks !! idx) as [c|] eqn:Hc; [|lia].
  destruct (Capacity c dataSize); simpl; [lia|].
  apply lookup_lt_Some in Hc.
  destruct (IH (S idx)) as [H1 H2]. lia.
Qed.

Lemma findChunk_skips_full fuel chunks idx dataSize i :
  (idx <= i < findChunk fuel chunks idx dataSize)%nat ->
  exists c, chunks !! i = Some c /\ Capacity c dataSize = false.
Proof.
  revert idx. induction fuel as [|fuel IH]; intros idx; simpl; [lia|].
  destruct (chunks !! idx) as [c|] eqn:Hc; [|lia].
  destruct (Capacity c dataSize) eqn:Hcap; simpl; [lia|].
  intros Hi. destruct (decide (i = idx)) as [->|Hne]; [eauto|].
  apply (IH (S idx)). lia.
Qed.

(** With one unit of fuel per chunk the loop ends by its own condition: at a
    chunk that fits, or past the last chunk. *)
Lemma findChunk_stops fuel chunks idx dataSize :
  (length chunks <= fuel + idx)%nat ->
  match chunks !! findChunk fuel chunks idx dataSize with
  | Some c => Capacity c dataSize = true
  | None => True
  end.
Proof.
  revert idx. induction fuel as [|fuel IH]; intros idx Hfuel; simpl.
  - rewrite lookup_ge_None_2; [done | lia].
  - destruct (chunks !! idx) as [c|] eqn:Hc.
    + destruct (Capacity c dataSize) eqn:Hcap; simpl.
      * by rewrite Hc.
      * apply IH. lia.
    + by rewrite Hc.
Qed.

(** ** Staging buffers and the device *)

Lemma GetAlignedSize_ge size alignment : size <= GetAlignedSize size alignment.
Proof.
  unfold GetAlignedSize. destruct (1 <? alignment) eqn:Ha; [|lia].
  apply Z.ltb_lt in Ha.
  pose proof (Z.div_mod (size + alignment - 1) alignment ltac:(lia)) as Hdm.
  pose proof (Z.mod_pos_bound (size + alignment - 1) alignment ltac:(lia)) as Hb.
  nia.
Qed.

Lemma GetAlignedSize_one size : GetAlignedSize size 1 = size.
Proof. reflexivity. Qed.

Lemma TransitionResource_state ctx r newState flush :
  snd (TransitionResource ctx r newState flush)
  = {| native := native r; currentState := newState |}.
Proof. reflexivity. Qed.

Lemma Write_hr sb dev ctx dst dstOffset data dataSize mapResult hr dev' ctx' :
  StagingBuffer_Write sb dev ctx dst dstOffset data dataSize mapResult
    = Some (hr, dev', ctx') ->
  hr = (if FAILED mapResult then mapResult else S_OK).
Proof.
  unfold StagingBuffer_Write. intros H.
  destruct (native_ sb); [|done].
  destruct (FAILED mapResult); [by inversion H|].
  repeat case_match; by simplify_eq.
Qed.

Lemma memcpy_defined dst dstOffset src n :
  0 <= dstOffset -> 0 <= n -> n <= Z.of_nat (length src) ->
  dstOffset + n <= Z.of_nat (length dst) ->
  is_Some (memcpy dst dstOffset src n).
Proof.
  intros. unfold memcpy.
  rewrite !(proj2 (Z.leb_le _ _)) by lia. simpl. eauto.
Qed.

Lemma memcpy_length dst dstOffset src n dst' :
  memcpy dst dstOffset src n = Some dst' -> length dst' = length dst.
Proof.
  unfold memcpy. case_match eqn:Hc; [|done]. intros [= <-].
  repeat (apply andb_prop in Hc as [Hc ?]).
  rewrite !length_app, !length_take, length_drop. lia.
Qed.

(** A write that fits into a backed staging buffer is defined. *)
Lemma Write_defined sb dev ctx dst dstOffset data dataSize mapResult :
  backed dev sb -> Capacity sb dataSize = true ->
  0 <= dataSize <= Z.of_nat (length data) ->
  is_Some (StagingBuffer_Write sb dev ctx dst dstOffset data dataSize mapResult).
Proof.
  intros (h & bytes & Hn & Hm & Hlen & Hoff) Hcap Hdata.
  unfold StagingBuffer_Write. rewrite Hn.
  destruct (FAILED mapResult); [eauto|]. simpl. rewrite Hm.
  unfold Capacity in Hcap. apply Z.leb_le in Hcap.
  destruct (memcpy_defined bytes (offset_ sb) data dataSize) as [m' ->]; [lia..|].
  eauto.
Qed.

Lemma Create_backed dev size alignment heapType :
  0 <= size ->
  backed (fst (StagingBuffer_Create dev size alignment heapType))
         (snd (StagingBuffer_Create dev size alignment heapType)).
Proof.
  intros Hsize. unfold StagingBuffer_Create, backed. simpl.
  eexists _, _. split; [reflexivity|]. rewrite lookup_insert_eq.
  split; [reflexivity|]. rewrite length_replicate.
  pose proof (GetAlignedSize_ge size alignment). lia.
Qed.

(** Creating a buffer leaves every live resource as it is. *)
Lemma Create_preserves dev size alignment heapType h bytes :
  resources dev !! h = Some bytes ->
  resources (fst (StagingBuffer_Create dev size alignment heapType)) !! h = Some bytes.
Proof.
  intros Hh. unfold StagingBuffer_Create. simpl.
  rewrite lookup_insert_ne; [done|].
  intros <-. apply (is_fresh (dom (resources dev))).
  apply elem_of_dom. eauto.
Qed.

(** ** Reset *)

Lemma Reset_chunk_lookup p i c :
  chunks_ (Reset p) !! i = Some c ->
  exists c0, chunks_ p !! i = Some c0 /\ c = StagingBuffer_Reset c0.
Proof.
  simpl. rewrite list_lookup_fmap. destruct (chunks_ p !! i); simpl; [|done].
  intros [= <-]. eauto.
Qed.

(** C8: Reset keeps every chunk: the number of chunks, the size of each
    chunk and the native memory behind it are what they were, every chunk's
    write offset is zero, and the current chunk index is zero, so that the
    search of the next WriteStaged starts at chunk 0. *)
Theorem Reset_retains_chunks (p : D3D12StagingBufferPool) :
  length (chunks_ (Reset p)) = length (chunks_ p)
  /\ (forall i c, chunks_ p !! i = Some c ->
        exists c', chunks_ (Reset p) !! i = Some c'
                   /\ size_ c' = size_ c /\ native_ c' = native_ c /\ offset_ c' = 0)
  /\ chunkIdx_ (Reset p) = 0%nat
  /\ (forall dataSize,
        findChunk (length (chunks_ (Reset p))) (chunks_ (Reset p))
                  (chunkIdx_ (Reset p)) dataSize
        = findChunk (length (chunks_ p)) (chunks_ (Reset p)) 0 dataSize)
  /\ globalUploadBuffer_ (Reset p) = globalUploadBuffer_ p
  /\ globalReadbackBuffer_ (Reset p) = globalReadbackBuffer_ p.
Proof.
  split; [simpl; by rewrite length_fmap|].
  split.
  { intros i c Hc. exists (StagingBuffer_Reset c). simpl.
    rewrite list_lookup_fmap, Hc. done. }
  split; [done|]. split; [|done].
  intros dataSize. simpl. by rewrite length_fmap.
Qed.

(** ** WriteStaged *)

Lemma new_chunk_backed dev size :
  0 <= size ->
  backed (fst (StagingBuffer_new dev size)) (snd (StagingBuffer_new dev size))
  /\ size_ (snd (StagingBuffer_new dev size)) = size
  /\ offset_ (snd (StagingBuffer_new dev size)) = 0.
Proof.
  intros Hsize. split; [by apply Create_backed|]. done.
Qed.

(** C1: WriteStaged.  From the current chunk index the search passes
    exactly the chunks that cannot take [dataSize] more bytes and stops at
    the first one that can ([idx]); when there is none from that index on,
    one chunk of size max(chunkSize, dataSize) is appended and is the
    current chunk.  The data is written to the chunk at the resulting index
    with WriteAndIncrementOffset, whose HRESULT is the result, and no other
    chunk changes.  When the chunks are backed by the device and [data]
    holds [dataSize] bytes, the call is defined and returns the HRESULT of
    mapping the chunk if that failed and S_OK otherwise. *)
Theorem WriteStaged_finds_or_allocates_chunk
    (p : D3D12StagingBufferPool) (dev : Device) (ctx : D3D12CommandContext)
    (dstBuffer : D3D12Resource) (dstOffset : Z) (data : list Byte.byte)
    (dataSize : Z) (mapResult : HRESULT) :
  (chunkIdx_ p <= length (chunks_ p))%nat ->
  exists (idx : nat) (chunks1 : list D3D12StagingBuffer) (dev1 : Device)
         (chunk : D3D12StagingBuffer),
    (chunkIdx_ p <= idx <= length (chunks_ p))%nat
    /\ (forall i, (chunkIdx_ p <= i < idx)%nat ->
          exists c, chunks_ p !! i = Some c /\ Capacity c dataSize = false)
    /\ (((idx < length (chunks_ p))%nat
          /\ chunks1 = chunks_ p /\ dev1 = dev /\ Capacity chunk dataSize = true)
        \/ (idx = length (chunks_ p)
            /\ (forall i c, (chunkIdx_ p <= i)%nat -> chunks_ p !! i = Some c ->
                  Capacity c dataSize = false)
            /\ chunks1 = chunks_ p ++ [chunk]
            /\ (dev1, chunk) = StagingBuffer_new dev (Z.max (chunkSize_ p) dataSize)
            /\ size_ chunk = Z.max (chunkSize_ p) dataSize))
    /\ chunks1 !! idx = Some chunk
    /\ WriteStaged p dev ctx dstBuffer dstOffset data dataSize mapResult
       = match StagingBuffer_WriteAndIncrementOffset chunk dev1
                 (fst (TransitionResource ctx dstBuffer D3D12_RESOURCE_STATE_COPY_DEST true))
                 (D3D12Resource_Get dstBuffer) dstOffset data dataSize mapResult with
         | None => None
         | Some (hr, chunk', dev3, ctx2) =>
             Some (hr, setChunks p (<[idx := chunk']> chunks1) idx, dev3,
                   fst (TransitionResource ctx2
                          (snd (TransitionResource ctx dstBuffer
                                  D3D12_RESOURCE_STATE_COPY_DEST true))
                          (currentState dstBuffer) false),
                   dstBuffer)
         end
    /\ ((forall c, c ∈ chunks_ p -> backed dev c) ->
        0 <= dataSize <= Z.of_nat (length data) ->
        exists p' dev' ctx',
          WriteStaged p dev ctx dstBuffer dstOffset data dataSize mapResult
          = Some (if FAILED mapResult then mapResult else S_OK, p', dev', ctx', dstBuffer)).
Proof.
  intros Hidx.
  set (idx := findChunk (length (chunks_ p)) (chunks_ p) (chunkIdx_ p) dataSize).
  destruct (findChunk_bounds (length (chunks_ p)) (chunks_ p) (chunkIdx_ p) dataSize)
    as [Hlo Hhi]. specialize (Hhi Hidx). fold idx in Hlo, Hhi.
  pose proof (findChunk_skips_full (length (chunks_ p)) (chunks_ p) (chunkIdx_ p) dataSize)
    as Hskip. fold idx in Hskip.
  pose proof (findChunk_stops (length (chunks_ p)) (chunks_ p) (chunkIdx_ p) dataSize
                ltac:(lia)) as Hstop. fold idx in Hstop.
  assert (Hshape : forall chunks1 dev1 chunk,
    (if Nat.eqb idx (length (chunks_ p))
     then AllocChunk (setChunks p (chunks_ p) idx) dev dataSize
     else (setChunks p (chunks_ p) idx, dev)) = (setChunks p chunks1 idx, dev1) ->
    chunks1 !! idx = Some chunk ->
    WriteStaged p dev ctx dstBuffer dstOffset data dataSize mapResult
    = match StagingBuffer_WriteAndIncrementOffset chunk dev1
              (fst (TransitionResource ctx dstBuffer D3D12_RESOURCE_STATE_COPY_DEST true))
              (D3D12Resource_Get dstBuffer) dstOffset data dataSize mapResult with
      | None => None
      | Some (hr, chunk', dev3, ctx2) =>
          Some (hr, setChunks p (<[idx := chunk']> chunks1) idx, dev3,
                fst (TransitionResource ctx2
                       (snd (TransitionResource ctx dstBuffer
                               D3D12_RESOURCE_STATE_COPY_DEST true))
                       (currentState dstBuffer) false),
                dstBuffer)
      end).
  { intros chunks1 dev1 chunk Halloc Hchunk.
    unfold WriteStaged. fold idx. cbn [chunkIdx_ chunks_ setChunks] in *.
    rewrite Halloc. cbn. rewrite Hchunk.
    destruct (StagingBuffer_WriteAndIncrementOffset _ _ _ _ _ _ _ _)
      as [[[[hr chunk'] dev3] ctx2]|]; [|done].
    destruct dstBuffer; reflexivity. }
  assert (Hdefined : forall chunks1 dev1 chunk,
    chunks1 !! idx = Some chunk -> backed dev1 chunk -> Capacity chunk dataSize = true ->
    WriteStaged p dev ctx dstBuffer dstOffset data dataSize mapResult
    = match StagingBuffer_WriteAndIncrementOffset chunk dev1
              (fst (TransitionResource ctx dstBuffer D3D12_RESOURCE_STATE_COPY_DEST true))
              (D3D12Resource_Get dstBuffer) dstOffset data dataSize mapResult with
      | None => None
      | Some (hr, chunk', dev3, ctx2) =>
          Some (hr, setChunks p (<[idx := chunk']> chunks1) idx, dev3,
                fst (TransitionResource ctx2
                       (snd (TransitionResource ctx dstBuffer
                               D3D12_RESOURCE_STATE_COPY_DEST true))
                       (currentState dstBuffer) false),
                dstBuffer)
      end ->
    0 <= dataSize <= Z.of_nat (length data) ->
    exists p' dev' ctx',
      WriteStaged p dev ctx dstBuffer dstOffset data dataSize mapResult
      = Some (if FAILED mapResult then mapResult else S_OK, p', dev', ctx', dstBuffer)).
  { intros chunks1 dev1 chunk Hchunk Hb Hcap -> Hdata.
    unfold StagingBuffer_WriteAndIncrementOffset.
    destruct (Write_defined chunk dev1
                (fst (TransitionResource ctx dstBuffer D3D12_RESOURCE_STATE_COPY_DEST true))
                (D3D12Resource_Get dstBuffer) dstOffset data dataSize mapResult Hb Hcap Hdata)
      as [[[hr dev3] ctx2] Hw].
    rewrite Hw. apply Write_hr in Hw. subst hr. eauto. }
  destruct (decide (idx = length (chunks_ p))) as [Hnew|Hold].
  - (* no chunk from the current index on fits: a chunk is allocated *)
    destruct (StagingBuffer_new dev (Z.max (chunkSize_ p) dataSize))
      as [dev1 chunk] eqn:Hnewchunk.
    assert (Hlookup : (chunks_ p ++ [chunk]) !! idx = Some chunk).
    { rewrite Hnew. by rewrite lookup_app_r, Nat.sub_diag. }
    assert (Halloc :
      (if Nat.eqb idx (length (chunks_ p))
       then AllocChunk (setChunks p (chunks_ p) idx) dev dataSize
       else (setChunks p (chunks_ p) idx, dev))
      = (setChunks p (chunks_ p ++ [chunk]) idx, dev1)).
    { rewrite (proj2 (Nat.eqb_eq _ _) Hnew). unfold AllocChunk.
      cbn [chunkSize_ chunks_ setChunks]. rewrite Hnewchunk.
      unfold setChunks. cbn. rewrite length_app. simpl.
      do 2 f_equal. lia. }
    exists idx, (chunks_ p ++ [chunk]), dev1, chunk.
    split; [lia|]. split; [exact Hskip|].
    split.
    { right. split; [done|]. split.
      - intros i c Hi Hc. destruct (Hskip i) as (c' & Hc' & Hcap).
        + apply lookup_lt_Some in Hc. lia.
        + congruence.
      - split; [done|]. split; [done|].
        by inversion Hnewchunk. }
    split; [done|]. split; [by apply Hshape|].
    intros Hbacked Hdata.
    destruct (new_chunk_backed dev (Z.max (chunkSize_ p) dataSize) ltac:(lia))
      as (Hb & Hsz & Hoff).
    rewrite Hnewchunk in Hb, Hsz, Hoff. simpl in Hb, Hsz, Hoff.
    apply (Hdefined (chunks_ p ++ [chunk]) dev1 chunk); [done|done| |by apply Hshape|done].
    unfold Capacity. apply Z.leb_le. lia.
  - (* the search stopped at a chunk that fits *)
    destruct (chunks_ p !! idx) as [chunk|] eqn:Hchunk.
    2:{ apply lookup_ge_None in Hchunk. lia. }
    assert (Halloc :
      (if Nat.eqb idx (length (chunks_ p))
       then AllocChunk (setChunks p (chunks_ p) idx) dev dataSize
       else (setChunks p (chunks_ p) idx, dev))
      = (setChunks p (chunks_ p) idx, dev)).
    { by rewrite (proj2 (Nat.eqb_neq _ _) Hold). }
    exists idx, (chunks_ p), dev, chunk.
    split; [lia|]. split; [exact Hskip|].
    split; [left; repeat split; [lia|done]|].
    split; [done|]. split; [by apply Hshape|].
    intros Hbacked Hdata.
    apply (Hdefined (chunks_ p) dev chunk); [done| |done|by apply Hshape|done].
    apply Hbacked. by eapply list_elem_of_lookup_2.
Qed.

(** ** Staging capacity over sequences of calls *)

Lemma retains_refl p : retains p p.
Proof. unfold retains. split; [done|lia]. Qed.

Lemma retains_trans p1 p2 p3 : retains p1 p2 -> retains p2 p3 -> retains p1 p3.
Proof.
  unfold retains. intros (Ha & ? & ?) (Hb & ? & ?).
  split; [by etrans|lia].
Qed.

Lemma WriteAndIncrementOffset_size sb dev ctx dst dstOffset data dataSize mapResult
    hr sb' dev' ctx' :
  StagingBuffer_WriteAndIncrementOffset sb dev ctx dst dstOffset data dataSize mapResult
    = Some (hr, sb', dev', ctx') ->
  size_ sb' = size_ sb /\ native_ sb' = native_ sb.
Proof.
  unfold StagingBuffer_WriteAndIncrementOffset.
  destruct (StagingBuffer_Write _ _ _ _ _ _ _ _) as [[[hr0 dev0] ctx0]|]; [|done].
  intros [= <- <- <- <-]. by destruct (FAILED hr0).
Qed.

Lemma fmap_size_insert (chunks : list D3D12StagingBuffer) i c c' :
  chunks !! i = Some c -> size_ c' = size_ c ->
  size_ <$> <[i := c']> chunks = size_ <$> chunks.
Proof.
  intros Hc Hsz. rewrite list_fmap_insert, Hsz.
  apply list_insert_id. by rewrite list_lookup_fmap, Hc.
Qed.

(** What WriteStaged does to the chunk list: nothing but the write offset of
    one chunk changes, unless the search ran off the end, and then exactly
    one chunk is appended. *)
Lemma WriteStaged_chunks p dev ctx dst dstOffset data dataSize mapResult
    hr p' dev' ctx' dst' :
  WriteStaged p dev ctx dst dstOffset data dataSize mapResult
    = Some (hr, p', dev', ctx', dst') ->
  globalUploadBuffer_ p' = globalUploadBuffer_ p
  /\ globalReadbackBuffer_ p' = globalReadbackBuffer_ p
  /\ (chunkIdx_ p' < length (chunks_ p'))%nat
  /\ (chunkSizes p' = chunkSizes p
      \/ (exists size, chunkSizes p' = chunkSizes p ++ [size]
          /\ forall i c, (chunkIdx_ p <= i)%nat -> chunks_ p !! i = Some c ->
               Capacity c dataSize = false)).
Proof.
  unfold WriteStaged.
  set (idx := findChunk (length (chunks_ p)) (chunks_ p) (chunkIdx_ p) dataSize).
  pose proof (findChunk_skips_full (length (chunks_ p)) (chunks_ p) (chunkIdx_ p) dataSize)
    as Hskip. fold idx in Hskip.
  cbn [chunkIdx_ chunks_ setChunks].
  destruct (Nat.eqb idx (length (chunks_ p))) eqn:Heq.
  - apply Nat.eqb_eq in Heq. unfold AllocChunk. cbn [chunkSize_ chunks_ setChunks].
    destruct (StagingBuffer_new dev (Z.max (chunkSize_ p) dataSize)) as [dev1 chunk].
    cbn. destruct ((chunks_ p ++ [chunk]) !! _) as [c|] eqn:Hc; [|done].
    destruct (StagingBuffer_WriteAndIncrementOffset _ _ _ _ _ _ _ _)
      as [[[[hr0 chunk'] dev3] ctx2]|] eqn:Hw; [|done].
    intros [= <- <- <- <- <-]. cbn.
    apply WriteAndIncrementOffset_size in Hw as [Hsz _].
    split; [done|]. split; [done|]. split.
    { rewrite length_insert. apply lookup_lt_Some in Hc. done. }
    right. exists (size_ chunk). unfold chunkSizes. cbn. split.
    + rewrite (fmap_size_insert _ _ c) by done. by rewrite fmap_app.
    + intros i c0 Hi Hc0. destruct (Hskip i) as (c1 & Hc1 & Hcap).
      * apply lookup_lt_Some in Hc0. lia.
      * congruence.
  - cbn. destruct (chunks_ p !! idx) as [c|] eqn:Hc; [|done].
    destruct (StagingBuffer_WriteAndIncrementOffset _ _ _ _ _ _ _ _)
      as [[[[hr0 chunk'] dev3] ctx2]|] eqn:Hw; [|done].
    intros [= <- <- <- <- <-]. cbn.
    apply WriteAndIncrementOffset_size in Hw as [Hsz _].
    split; [done|]. split; [done|]. split.
    { rewrite length_insert. by apply lookup_lt_Some in Hc. }
    left. unfold chunkSizes. cbn. by rewrite (fmap_size_insert _ _ c).
Qed.

(** ResizeBuffer on a buffer whose write offset is at the start: the buffer
    it leaves is at least as large and its offset is still at the start. *)
Lemma ResizeBuffer_grows dev sb heapType size alignment :
  offset_ sb = 0 ->
  size_ sb <= size_ (snd (ResizeBuffer dev sb heapType size alignment))
  /\ offset_ (snd (ResizeBuffer dev sb heapType size alignment)) = 0.
Proof.
  intros Hoff. unfold ResizeBuffer, Capacity.
  destruct (GetAlignedSize size alignment <=? size_ sb - offset_ sb) eqn:Hcap; simpl.
  - split; [lia|done].
  - apply Z.leb_gt in Hcap.
    pose proof (GetAlignedSize_ge (GetAlignedSize size alignment) minAlignment).
    split; [lia|done].
Qed.

Lemma ResizeBuffer_only_when_needed dev sb heapType size alignment :
  ResizeBuffer dev sb heapType size alignment <> (dev, sb) ->
  size_ sb - offset_ sb < GetAlignedSize size alignment.
Proof.
  unfold ResizeBuffer, Capacity.
  destruct (GetAlignedSize size alignment <=? size_ sb - offset_ sb) eqn:Hcap; simpl.
  - done.
  - intros _. by apply Z.leb_gt in Hcap.
Qed.

Lemma GetUploadBufferAndGrow_retains p dev size alignment :
  globalsAtStart p ->
  retains p (fst (GetUploadBufferAndGrow p dev size alignment))
  /\ globalsAtStart (fst (GetUploadBufferAndGrow p dev size alignment))
  /\ chunks_ (fst (GetUploadBufferAndGrow p dev size alignment)) = chunks_ p
  /\ chunkIdx_ (fst (GetUploadBufferAndGrow p dev size alignment)) = chunkIdx_ p.
Proof.
  intros [Hu Hr]. unfold GetUploadBufferAndGrow.
  pose proof (ResizeBuffer_grows dev (globalUploadBuffer_ p) D3D12_HEAP_TYPE_UPLOAD
                size alignment Hu) as [Hsz Hoff].
  destruct (ResizeBuffer _ _ _ _ _) as [dev' sb]. simpl in *.
  unfold retains, globalsAtStart, chunkSizes. simpl.
  repeat split; [done|lia|lia|done|done].
Qed.

Lemma GetReadbackBufferAndGrow_retains p dev size alignment :
  globalsAtStart p ->
  retains p (fst (GetReadbackBufferAndGrow p dev size alignment))
  /\ globalsAtStart (fst (GetReadbackBufferAndGrow p dev size alignment))
  /\ chunks_ (fst (GetReadbackBufferAndGrow p dev size alignment)) = chunks_ p
  /\ chunkIdx_ (fst (GetReadbackBufferAndGrow p dev size alignment)) = chunkIdx_ p.
Proof.
  intros [Hu Hr]. unfold GetReadbackBufferAndGrow.
  pose proof (ResizeBuffer_grows dev (globalReadbackBuffer_ p) D3D12_HEAP_TYPE_READBACK
                size alignment Hr) as [Hsz Hoff].
  destruct (ResizeBuffer _ _ _ _ _) as [dev' sb]. simpl in *.
  unfold retains, globalsAtStart, chunkSizes. simpl.
  repeat split; [done|lia|lia|done|done].
Qed.

Lemma callPool_retains p c p' :
  poolInvariant p -> callPool p c = Some p' -> retains p p' /\ poolInvariant p'.
Proof.
  intros [Hg Hi] Hcall. destruct c; simpl in Hcall.
  - (* InitializeDevice *)
    inversion Hcall; subst. split; [|done].
    unfold retains, chunkSizes. simpl. split; [done|lia].
  - (* Reset *)
    inversion Hcall; subst. split.
    + unfold retains, chunkSizes. simpl. rewrite <- list_fmap_compose.
      split; [done|lia].
    + split; [done|simpl; lia].
  - (* WriteStaged *)
    destruct (WriteStaged _ _ _ _ _ _ _ _) as [[[[[hr p1] dev1] ctx1] dst1]|] eqn:Hw; [|done].
    inversion Hcall; subst.
    apply WriteStaged_chunks in Hw as (Hu & Hr & Hlt & Hsizes).
    destruct Hg as [Hg1 Hg2]. split.
    + unfold retains. rewrite Hu, Hr.
      split; [|lia]. destruct Hsizes as [->|(size & -> & _)]; [done|].
      by apply prefix_app_r.
    + split; [|lia]. unfold globalsAtStart. by rewrite Hu, Hr.
  - (* WriteImmediate *)
    unfold WriteImmediate in Hcall. cbn in Hcall.
    pose proof (GetUploadBufferAndGrow_retains p dev dataSize alignment Hg)
      as (Hret & Hg' & Hch & Hix).
    destruct (GetUploadBufferAndGrow p dev dataSize alignment) as [p1 dev1].
    simpl in *.
    destruct (StagingBuffer_Write _ _ _ _ _ _ _ _) as [[[hr dev2] ctx2]|]; [|done].
    inversion Hcall; subst. split; [done|]. split; [done|]. by rewrite Hch, Hix.
  - (* ReadSubresourceRegion *)
    unfold ReadSubresourceRegion in Hcall. cbn in Hcall.
    pose proof (GetReadbackBufferAndGrow_retains p dev dataSize alignment Hg)
      as (Hret & Hg' & Hch & Hix).
    destruct (GetReadbackBufferAndGrow p dev dataSize alignment) as [p1 dev1].
    simpl in *.
    assert (p' = p1) as ->.
    { repeat case_match; simplify_eq; done. }
    split; [done|]. split; [done|]. by rewrite Hch, Hix.
  - (* MapFeedbackBuffer *)
    unfold MapFeedbackBuffer in Hcall. cbn in Hcall.
    pose proof (GetReadbackBufferAndGrow_retains p dev
                  ((End readRange - Begin readRange) mod UINT64_modulus) alignment Hg)
      as (Hret & Hg' & Hch & Hix).
    destruct (GetReadbackBufferAndGrow p dev _ alignment) as [p1 dev1].
    simpl in *.
    assert (p' = p1) as ->.
    { repeat case_match; simplify_eq; done. }
    split; [done|]. split; [done|]. by rewrite Hch, Hix.
  - (* UnmapFeedbackBuffer *)
    destruct (UnmapFeedbackBuffer p dev); [|done].
    inversion Hcall; subst. split; [apply retains_refl|done].
  - (* MapUploadBuffer *)
    unfold MapUploadBuffer in Hcall.
    pose proof (GetUploadBufferAndGrow_retains p dev size alignment Hg)
      as (Hret & Hg' & Hch & Hix).
    destruct (GetUploadBufferAndGrow p dev size alignment) as [p1 dev1].
    simpl in *.
    destruct (GetNative (globalUploadBuffer_ p1)); [|done].
    inversion Hcall; subst. split; [done|]. split; [done|]. by rewrite Hch, Hix.
  - (* UnmapUploadBuffer *)
    destruct (UnmapUploadBuffer p dev commandContext dstBuffer writtenRange); [|done].
    inversion Hcall; subst. split; [apply retains_refl|done].
Qed.

Lemma callsPool_retains cs p p' :
  poolInvariant p -> callsPool p cs = Some p' -> retains p p' /\ poolInvariant p'.
Proof.
  revert p. induction cs as [|c cs IH]; intros p Hinv; simpl.
  - intros [= <-]. split; [apply retains_refl|done].
  - destruct (callPool p c) as [p1|] eqn:Hc; [|done]. intros Hcs.
    destruct (callPool_retains p c p1 Hinv Hc) as [Hr1 Hinv1].
    destruct (IH p1 Hinv1 Hcs) as [Hr2 Hinv2].
    split; [by eapply retains_trans|done].
Qed.

Lemma Pool_new_invariant device chunkSize : poolInvariant (Pool_new device chunkSize).
Proof. repeat split; simpl; lia. Qed.

(** Every pool that a sequence of calls produces from a new pool has its
    current chunk index inside the chunk list or just behind it, which is
    what WriteStaged relies on. *)
Lemma reachable_pool_invariant device chunkSize calls p :
  callsPool (Pool_new device chunkSize) calls = Some p ->
  globalsAtStart p /\ (chunkIdx_ p <= length (chunks_ p))%nat.
Proof.
  intros Hcalls.
  by destruct (callsPool_retains calls _ p (Pool_new_invariant device chunkSize) Hcalls).
Qed.

(** C2: staging memory only grows and is reused.  (1) When WriteStaged
    returns with more chunks than before, no chunk at or after the current
    index could take [dataSize] bytes, and exactly one chunk was appended;
    otherwise the chunk sizes are the same.  (2) ResizeBuffer changes a
    global buffer only when the alignment-rounded size exceeds what the
    buffer can take.  (3) Starting from a newly constructed pool, after any
    sequence of calls of the public member functions (Reset and
    InitializeDevice among them), any further sequence of calls retains
    every chunk with its size, in order, and leaves the global upload and
    readback buffers at least as large as they were. *)
Theorem staging_capacity_only_grows :
  (forall p dev ctx dst dstOffset data dataSize mapResult hr p' dev' ctx' dst',
      WriteStaged p dev ctx dst dstOffset data dataSize mapResult
        = Some (hr, p', dev', ctx', dst') ->
      chunkSizes p' = chunkSizes p
      \/ (exists size, chunkSizes p' = chunkSizes p ++ [size]
          /\ forall i c, (chunkIdx_ p <= i)%nat -> chunks_ p !! i = Some c ->
               Capacity c dataSize = false))
  /\ (forall dev sb heapType size alignment,
        ResizeBuffer dev sb heapType size alignment <> (dev, sb) ->
        size_ sb - offset_ sb < GetAlignedSize size alignment)
  /\ (forall device chunkSize calls p more p',
        callsPool (Pool_new device chunkSize) calls = Some p ->
        callsPool p more = Some p' ->
        chunkSizes p `prefix_of` chunkSizes p'
        /\ size_ (globalUploadBuffer_ p) <= size_ (globalUploadBuffer_ p')
        /\ size_ (globalReadbackBuffer_ p) <= size_ (globalReadbackBuffer_ p')).
Proof.
  split; [|split].
  - intros * Hw. by apply WriteStaged_chunks in Hw as (_ & _ & _ & H).
  - apply ResizeBuffer_only_when_needed.
  - intros device chunkSize calls p more p' Hreach Hmore.
    destruct (callsPool_retains calls _ p (Pool_new_invariant device chunkSize) Hreach)
      as [_ Hinv].
    by destruct (callsPool_retains more p p' Hinv Hmore) as [Hret _].
Qed.

(** ** ReadSubresourceRegion *)

Lemma execCommands_app mem cs1 cs2 :
  execCommands mem (cs1 ++ cs2)
  = match execCommands mem cs1 with
    | Some mem' => execCommands mem' cs2
    | None => None
    end.
Proof.
  revert mem. induction cs1 as [|c cs1 IH]; intros mem; simpl; [done|].
  destruct (execCommand mem c); [apply IH|done].
Qed.

Lemma execCommands_barriers mem (bs : list D3D12_RESOURCE_BARRIER) :
  execCommands mem (ResourceBarrier <$> bs) = Some mem.
Proof. induction bs as [|b bs IH]; simpl; done. Qed.

(** What the submission in ReadSubresourceRegion executes: the commands that
    were pending, then the copy into the readback buffer; barriers move no
    bytes. *)
Lemma submit_copy mem (pending : list D3D12Command)
    (bs1 bs2 : list D3D12_RESOURCE_BARRIER) (copy : D3D12Command) :
  execCommands mem (((pending ++ (ResourceBarrier <$> bs1)) ++ [copy])
                     ++ (ResourceBarrier <$> bs2))
  = match execCommands mem pending with
    | Some memAtCopy => execCommand memAtCopy copy
    | None => None
    end.
Proof.
  rewrite !execCommands_app.
  destruct (execCommands mem pending) as [m1|]; [|done].
  rewrite execCommands_barriers. simpl.
  destruct (execCommand m1 copy) as [m2|]; [|done].
  apply execCommands_barriers.
Qed.

Lemma memcpy_inv dst dstOffset src n dst' :
  memcpy dst dstOffset src n = Some dst' ->
  0 <= dstOffset /\ 0 <= n /\ n <= Z.of_nat (length src)
  /\ dstOffset + n <= Z.of_nat (length dst)
  /\ dst' = take (Z.to_nat dstOffset) dst ++ take (Z.to_nat n) src
            ++ drop (Z.to_nat (dstOffset + n)) dst.
Proof.
  unfold memcpy. case_match eqn:Hc; [|done]. intros [= <-].
  repeat (apply andb_prop in Hc as [Hc ?]).
  repeat split; try (by apply Z.leb_le).
Qed.

(** The copy into the readback buffer at offset 0, read back from there:
    its first [n] bytes are the source region. *)
Lemma execCommand_copy_to_start mem d s srcOffset n mem' :
  execCommand mem (CopyBufferRegion (Some d) 0 (Some s) srcOffset n) = Some mem' ->
  exists sBytes dBytes',
    mem !! s = Some sBytes /\ mem' !! d = Some dBytes'
    /\ 0 <= srcOffset /\ 0 <= n /\ srcOffset + n <= Z.of_nat (length sBytes)
    /\ take (Z.to_nat n) dBytes'
       = take (Z.to_nat n) (drop (Z.to_nat srcOffset) sBytes)
    /\ n <= Z.of_nat (length dBytes').
Proof.
  simpl. destruct (mem !! s) as [sBytes|] eqn:Hs; [|done].
  destruct (mem !! d) as [dBytes|] eqn:Hd; [|done].
  case_match eqn:Hc; [|done].
  destruct (memcpy dBytes 0 _ n) as [dBytes'|] eqn:Hm; [|done].
  intros [= <-].
  repeat (apply andb_prop in Hc as [Hc ?]).
  apply Z.leb_le in Hc. repeat match goal with H : _ = true |- _ => apply Z.leb_le in H end.
  pose proof (memcpy_length _ _ _ _ _ Hm) as Hlen.
  apply memcpy_inv in Hm as (_ & _ & Hn & Hdn & ->).
  exists sBytes. eexists. split; [done|]. rewrite lookup_insert_eq.
  split; [done|]. repeat split; try lia.
  simpl. rewrite take_app_le.
  - by rewrite take_take, Nat.min_id.
  - rewrite length_take, length_drop. rewrite length_drop in Hn. lia.
Qed.

(** Submitting a context whose list ends with [copy], possibly followed by
    barriers that were still pending. *)
Lemma FinishAndSubmit_copy mem (pending : list D3D12Command)
    (bs1 : list D3D12_RESOURCE_BARRIER) (copy : D3D12Command)
    (ctx : D3D12CommandContext) :
  commandList ctx = (pending ++ (ResourceBarrier <$> bs1)) ++ [copy] ->
  FinishAndSubmitCommandContext mem ctx
  = match execCommands mem pending with
    | Some memAtCopy =>
        match execCommand memAtCopy copy with
        | Some mem2 => Some (mem2, {| commandList := []; resourceBarriers := [] |})
        | None => None
        end
    | None => None
    end.
Proof.
  intros Hlist. unfold FinishAndSubmitCommandContext, FlushResourceBarriers.
  cbn [commandList]. rewrite Hlist, submit_copy.
  destruct (execCommands mem pending) as [m1|]; [|done].
  by destruct (execCommand m1 copy).
Qed.

Lemma ReadSubresourceRegion_unfold p dev ctx srcBuffer srcOffset data dataSize
    alignment mapResult :
  ReadSubresourceRegion p dev ctx srcBuffer srcOffset data dataSize alignment mapResult
  = let grown := GetReadbackBufferAndGrow p dev dataSize alignment in
    let readback := GetNative (globalReadbackBuffer_ (fst grown)) in
    let submitted :=
      commandList ctx
      ++ (ResourceBarrier
            <$> (resourceBarriers ctx
                 ++ transitionBarriers srcBuffer D3D12_RESOURCE_STATE_COPY_SOURCE))
      ++ [CopyBufferRegion readback 0 (native srcBuffer) srcOffset dataSize]
      ++ (ResourceBarrier
            <$> transitionBarriers
                  {| native := native srcBuffer;
                     currentState := D3D12_RESOURCE_STATE_COPY_SOURCE |}
                  (currentState srcBuffer)) in
    match execCommands (resources (snd grown)) (commandList ctx) with
    | None => None
    | Some memAtCopy =>
        match execCommand memAtCopy
                (CopyBufferRegion readback 0 (native srcBuffer) srcOffset dataSize) with
        | None => None
        | Some mem2 =>
            match readback with
            | None => None
            | Some h =>
                let dev3 := logCall (setResources (snd grown) mem2)
                              (Map h {| Begin := 0; End := dataSize |} mapResult) in
                if FAILED mapResult
                then Some {| read_hr := mapResult; read_pool := fst grown;
                             read_dev := dev3;
                             read_ctx := {| commandList := []; resourceBarriers := [] |};
                             read_submitted := submitted;
                             read_src := srcBuffer; read_data := data |}
                else
                  match mem2 !! h with
                  | None => None
                  | Some mappedData =>
                      match memcpy data 0 mappedData dataSize with
                      | None => None
                      | Some data' =>
                          Some {| read_hr := S_OK; read_pool := fst grown;
                                  read_dev := logCall dev3
                                                (Unmap h {| Begin := 0; End := 0 |});
                                  read_ctx := {| commandList := []; resourceBarriers := [] |};
                                  read_submitted := submitted;
                                  read_src := srcBuffer; read_data := data' |}
                      end
                  end
            end
        end
    end.
Proof.
  unfold ReadSubresourceRegion.
  destruct (GetReadbackBufferAndGrow p dev dataSize alignment) as [p1 dev1].
  destruct srcBuffer as [hs st].
  cbn [fst snd currentState native D3D12Resource_Get].
  set (copy := CopyBufferRegion _ 0 hs srcOffset dataSize).
  unfold TransitionResource. cbn [fst snd currentState native].
  match goal with
  | |- context [FinishAndSubmitCommandContext ?m ?c] =>
      rewrite (FinishAndSubmit_copy m (commandList ctx)
                 (resourceBarriers ctx
                    ++ (if st =? D3D12_RESOURCE_STATE_COPY_SOURCE then []
                        else [{| pResource := hs; StateBefore := st;
                                 StateAfter := D3D12_RESOURCE_STATE_COPY_SOURCE |}]))
                 copy c)
  end.
  2:{ destruct (st =? D3D12_RESOURCE_STATE_COPY_SOURCE);
        destruct (D3D12_RESOURCE_STATE_COPY_SOURCE =? st);
        cbn; by rewrite ?app_nil_r. }
  match goal with
  | |- context [submittedCommands ?c] =>
      assert (Hsubmitted :
        submittedCommands c
        = commandList ctx
          ++ (ResourceBarrier
                <$> (resourceBarriers ctx
                     ++ transitionBarriers {| native := hs; currentState := st |}
                          D3D12_RESOURCE_STATE_COPY_SOURCE))
          ++ [copy]
          ++ (ResourceBarrier
                <$> transitionBarriers
                      {| native := hs;
                         currentState := D3D12_RESOURCE_STATE_COPY_SOURCE |} st))
  end.
  { unfold submittedCommands, transitionBarriers, recordCommand, FlushResourceBarriers.
    cbn [currentState native].
    destruct (st =? D3D12_RESOURCE_STATE_COPY_SOURCE);
      destruct (D3D12_RESOURCE_STATE_COPY_SOURCE =? st);
      cbn [commandList resourceBarriers fmap list_fmap app];
      rewrite ?fmap_app, ?app_nil_r, <- ?app_assoc; reflexivity. }
  rewrite Hsubmitted.
  destruct (execCommands (resources dev1) (commandList ctx)) as [memAtCopy|]; [|done].
  destruct (execCommand memAtCopy copy) as [mem2|]; [|done].
  destruct (GetNative (globalReadbackBuffer_ p1)) as [h|]; [|done].
  destruct (FAILED mapResult); [done|].
  cbn. destruct (mem2 !! h); [|done].
  by destruct (memcpy data 0 _ dataSize).
Qed.

(** ** The tracked resource state *)


Lemma transition_brackets ctx ctx2 buffer copyState copies :
  resourceBarriers ctx2
    = resourceBarriers (fst (TransitionResource ctx buffer copyState true)) ->
  commandList ctx2
    = commandList (fst (TransitionResource ctx buffer copyState true)) ++ copies ->
  copyBracketed ctx
    (fst (TransitionResource ctx2 (snd (TransitionResource ctx buffer copyState true))
            (currentState buffer) false))
    buffer copyState copies.
Proof.
  unfold copyBracketed, TransitionResource, transitionBarriers.
  destruct buffer as [h st]. cbn [fst snd currentState native].
  intros Hb Hc.
  destruct (st =? copyState); destruct (copyState =? st);
    cbn [FlushResourceBarriers commandList resourceBarriers] in *;
    rewrite Hb, Hc; rewrite ?app_nil_r, <- ?app_assoc; done.
Qed.


(** C6: ReadSubresourceRegion.  Whenever the call returns, the readback
    buffer [h] was mapped with the read range [0, dataSize).  If mapping
    failed, that HRESULT is returned, the output memory is what it was, and
    the buffer is not unmapped.  Otherwise S_OK is returned, the first
    [dataSize] bytes of the output memory are the bytes that the source
    buffer held from [srcOffset] on when the copy was executed (after the
    commands that were still pending in the context), the rest of the output
    memory is untouched, and the readback buffer is unmapped with the
    written range [0, 0).  The call is defined when the context has nothing
    pending, the source range lies inside the source buffer, the output
    memory has room for [dataSize] > 0 bytes, and the readback buffer, if
    it is kept, is backed by the device. *)
Theorem ReadSubresourceRegion_result
    (p : D3D12StagingBufferPool) (dev : Device) (ctx : D3D12CommandContext)
    (srcBuffer : D3D12Resource) (srcOffset : Z) (data : list Byte.byte)
    (dataSize alignment : Z) (mapResult : HRESULT) :
  let grown := GetReadbackBufferAndGrow p dev dataSize alignment in
  (forall r,
      ReadSubresourceRegion p dev ctx srcBuffer srcOffset data dataSize alignment mapResult
        = Some r ->
      exists h,
        GetNative (globalReadbackBuffer_ (read_pool r)) = Some h
        /\ read_pool r = fst grown
        /\ if FAILED mapResult then
             read_hr r = mapResult
             /\ read_data r = data
             /\ calls (read_dev r)
                = calls dev ++ [Map h {| Begin := 0; End := dataSize |} mapResult]
           else
             read_hr r = S_OK
             /\ (exists memAtCopy hs srcBytes,
                   execCommands (resources (snd grown)) (commandList ctx) = Some memAtCopy
                   /\ native srcBuffer = Some hs
                   /\ memAtCopy !! hs = Some srcBytes
                   /\ 0 <= srcOffset /\ 0 <= dataSize
                   /\ srcOffset + dataSize <= Z.of_nat (length srcBytes)
                   /\ dataSize <= Z.of_nat (length data)
                   /\ read_data r
                      = take (Z.to_nat dataSize) (drop (Z.to_nat srcOffset) srcBytes)
                        ++ drop (Z.to_nat dataSize) data)
             /\ calls (read_dev r)
                = calls dev ++ [Map h {| Begin := 0; End := dataSize |} mapResult;
                                Unmap h {| Begin := 0; End := 0 |}])
  /\ (forall hs srcBytes,
        commandList ctx = [] ->
        native srcBuffer = Some hs ->
        resources dev !! hs = Some srcBytes ->
        0 <= srcOffset -> 0 < dataSize ->
        srcOffset + dataSize <= Z.of_nat (length srcBytes) ->
        dataSize <= Z.of_nat (length data) ->
        (Capacity (globalReadbackBuffer_ p) (GetAlignedSize dataSize alignment) = true ->
         backed dev (globalReadbackBuffer_ p)) ->
        exists r,
          ReadSubresourceRegion p dev ctx srcBuffer srcOffset data dataSize alignment mapResult
            = Some r
          /\ read_hr r = (if FAILED mapResult then mapResult else S_OK)
          /\ read_data r
             = if FAILED mapResult then data
               else take (Z.to_nat dataSize) (drop (Z.to_nat srcOffset) srcBytes)
                    ++ drop (Z.to_nat dataSize) data).
Proof.
  intros grown.
  assert (Hcalls : calls (snd grown) = calls dev).
  { subst grown. unfold GetReadbackBufferAndGrow, ResizeBuffer.
    by destruct (negb _). }
  assert (Hgeneral : forall r,
      ReadSubresourceRegion p dev ctx srcBuffer srcOffset data dataSize alignment mapResult
        = Some r ->
      exists h,
        GetNative (globalReadbackBuffer_ (read_pool r)) = Some h
        /\ read_pool r = fst grown
        /\ if FAILED mapResult then
             read_hr r = mapResult
             /\ read_data r = data
             /\ calls (read_dev r)
                = calls dev ++ [Map h {| Begin := 0; End := dataSize |} mapResult]
           else
             read_hr r = S_OK
             /\ (exists memAtCopy hs srcBytes,
                   execCommands (resources (snd grown)) (commandList ctx) = Some memAtCopy
                   /\ native srcBuffer = Some hs
                   /\ memAtCopy !! hs = Some srcBytes
                   /\ 0 <= srcOffset /\ 0 <= dataSize
                   /\ srcOffset + dataSize <= Z.of_nat (length srcBytes)
                   /\ dataSize <= Z.of_nat (length data)
                   /\ read_data r
                      = take (Z.to_nat dataSize) (drop (Z.to_nat srcOffset) srcBytes)
                        ++ drop (Z.to_nat dataSize) data)
             /\ calls (read_dev r)
                = calls dev ++ [Map h {| Begin := 0; End := dataSize |} mapResult;
                                Unmap h {| Begin := 0; End := 0 |}]).
  { intros r. rewrite ReadSubresourceRegion_unfold. fold grown. cbv zeta.
    destruct (execCommands (resources (snd grown)) (commandList ctx))
      as [memAtCopy|] eqn:Hpending; [|done].
    destruct (execCommand memAtCopy _) as [mem2|] eqn:Hcopy; [|done].
    destruct (GetNative (globalReadbackBuffer_ (fst grown))) as [h|] eqn:Hh; [|done].
    destruct (FAILED mapResult) eqn:Hfail.
    - intros [= <-]. exists h. cbn. rewrite Hcalls. done.
    - destruct (mem2 !! h) as [mappedData|] eqn:Hmapped; [|done].
      destruct (memcpy data 0 mappedData dataSize) as [data'|] eqn:Hout; [|done].
      intros [= <-]. exists h. cbn. rewrite Hcalls.
      split; [done|]. split; [done|]. split; [done|]. split.
      2:{ by rewrite <- app_assoc. }
      destruct (native srcBuffer) as [hs|] eqn:Hhs; [|done].
      apply execCommand_copy_to_start in Hcopy
        as (sBytes & dBytes' & Hs & Hd & ? & ? & ? & Htake & ?).
      assert (mappedData = dBytes') as -> by congruence.
      apply memcpy_inv in Hout as (_ & _ & ? & ? & ->).
      exists memAtCopy, hs, sBytes.
      repeat split; try done; try lia.
      simpl. by rewrite Htake. }
  split; [exact Hgeneral|].
  intros hs srcBytes Hnone Hhs Hsrc Hoff Hsize Hrange Hroom Hkept.
  pose proof (GetAlignedSize_ge dataSize alignment) as Haligned.
  (* the readback buffer after growing is backed and large enough *)
  assert (Hrb : exists h bytes,
             GetNative (globalReadbackBuffer_ (fst grown)) = Some h
             /\ resources (snd grown) !! h = Some bytes
             /\ dataSize <= Z.of_nat (length bytes)
             /\ resources (snd grown) !! hs = Some srcBytes).
  { subst grown. unfold GetReadbackBufferAndGrow, ResizeBuffer.
    destruct (Capacity (globalReadbackBuffer_ p) (GetAlignedSize dataSize alignment))
      eqn:Hcap; cbn [negb].
    - destruct (Hkept eq_refl) as (h & bytes & Hn & Hm & Hlen & Hoff0).
      exists h, bytes. cbn. unfold Capacity in Hcap. apply Z.leb_le in Hcap.
      repeat split; try done. lia.
    - pose proof (Create_backed dev (GetAlignedSize dataSize alignment) minAlignment
                    D3D12_HEAP_TYPE_READBACK ltac:(lia)) as (h & bytes & Hn & Hm & Hlen & _).
      pose proof (Create_preserves dev (GetAlignedSize dataSize alignment) minAlignment
                    D3D12_HEAP_TYPE_READBACK hs srcBytes Hsrc) as Hkeep.
      pose proof (GetAlignedSize_ge (GetAlignedSize dataSize alignment) minAlignment).
      destruct (StagingBuffer_Create dev _ minAlignment D3D12_HEAP_TYPE_READBACK)
        as [dev1 sb] eqn:Hcreate.
      cbn [fst snd globalReadbackBuffer_ setGlobalReadbackBuffer GetNative] in *.
      exists h, bytes. repeat split; try done.
      assert (size_ sb = GetAlignedSize (GetAlignedSize dataSize alignment) minAlignment)
        by (by inversion Hcreate).
      lia. }
  destruct Hrb as (h & bytes & Hh & Hbytes & Hlen & Hsrc1).
  assert (Hdefined : is_Some
    (ReadSubresourceRegion p dev ctx srcBuffer srcOffset data dataSize alignment mapResult)).
  { rewrite ReadSubresourceRegion_unfold. fold grown. cbv zeta.
    rewrite Hnone. cbn [execCommands]. rewrite Hh, Hhs.
    cbn [execCommand]. rewrite Hsrc1, Hbytes.
    rewrite !(proj2 (Z.leb_le _ _)) by lia. cbn [andb].
    destruct (memcpy_defined bytes 0 (drop (Z.to_nat srcOffset) srcBytes) dataSize)
      as [bytes' Hcp]; [lia|lia|rewrite length_drop; lia|lia|].
    rewrite Hcp. destruct (FAILED mapResult); [eauto|].
    rewrite lookup_insert_eq.
    destruct (memcpy_defined data 0 bytes' dataSize) as [data' ->]; [lia|lia| |lia|eauto].
    apply memcpy_length in Hcp. lia. }
  destruct Hdefined as [r Hr]. exists r. split; [done|].
  destruct (Hgeneral r Hr) as (h' & _ & _ & Hres).
  destruct (FAILED mapResult).
  - by destruct Hres as (-> & -> & _).
  - destruct Hres as (-> & (memAtCopy & hs' & srcBytes' & Hexec & Hhs' & Hlook & _ & _ & _ & _ & ->) & _).
    split; [done|].
    rewrite Hnone in Hexec. cbn in Hexec.
    assert (srcBytes' = srcBytes) as -> by congruence. done.
Qed.

(** ** The theorems at work on the small scenario *)

(** The only chunk has one byte left, two are written: the search passes the
    chunk, a chunk of size max(8, 2) is appended, and the write succeeds. *)
Lemma WriteStaged_finds_or_allocates_chunk_witness :
  (chunkIdx_ examplePool <= length (chunks_ examplePool))%nat
  /\ exists p' dev' ctx',
       WriteStaged examplePool exampleDevice exampleContext exampleBuffer
                   1 exampleData 2 S_OK
       = Some (S_OK, p', dev', ctx', exampleBuffer).
Proof.
  split; [simpl; lia|].
  destruct (WriteStaged_finds_or_allocates_chunk examplePool exampleDevice
              exampleContext exampleBuffer 1 exampleData 2 S_OK ltac:(simpl; lia))
    as (idx & chunks1 & dev1 & chunk & _ & _ & _ & _ & _ & Hdefined).
  apply Hdefined.
  - intros c Hc. apply list_elem_of_singleton in Hc as ->.
    exists 1%nat, [Byte.x00; Byte.x00; Byte.x00; Byte.x00].
    repeat split; try reflexivity. simpl. lia.
  - simpl. lia.
Defined.

Lemma staging_capacity_only_grows_witness :
  exists p p',
    callsPool (Pool_new 0 8) exampleCalls = Some p
    /\ callsPool p exampleMoreCalls = Some p'
    /\ chunkSizes p = [8] /\ chunkSizes p' = [8; 10]
    /\ chunkSizes p `prefix_of` chunkSizes p'
    /\ size_ (globalUploadBuffer_ p) <= size_ (globalUploadBuffer_ p')
    /\ size_ (globalReadbackBuffer_ p) <= size_ (globalReadbackBuffer_ p').
Proof.
  eexists. eexists.
  split; [vm_compute; reflexivity|].
  split; [vm_compute; reflexivity|].
  split; [reflexivity|]. split; [reflexivity|].
  refine (proj2 (proj2 staging_capacity_only_grows)
            0%nat 8 exampleCalls _ exampleMoreCalls _ _ _);
    vm_compute; reflexivity.
Defined.


Lemma ReadSubresourceRegion_result_witness :
  exists r,
    ReadSubresourceRegion (Pool_new 0 8) exampleDevice exampleContext exampleBuffer
                          1 exampleOutput 2 256 S_OK = Some r
    /\ read_hr r = S_OK
    /\ read_data r = [Byte.x02; Byte.x03; Byte.xff].
Proof.
  destruct (proj2 (ReadSubresourceRegion_result (Pool_new 0 8) exampleDevice
                     exampleContext exampleBuffer 1 exampleOutput 2 256 S_OK)
              7%nat [Byte.x01; Byte.x02; Byte.x03; Byte.x04])
    as (r & Hr & Hhr & Hdata).
  - reflexivity.
  - reflexivity.
  - reflexivity.
  - lia.
  - lia.
  - simpl. lia.
  - simpl. lia.
  - intros Hcap. vm_compute in Hcap. discriminate Hcap.
  - exists r. split; [exact Hr|]. split; [exact Hhr|exact Hdata].
Defined.

Lemma Reset_retains_chunks_witness :
  chunks_ examplePool !! 0%nat
    = Some {| native_ := Some 1%nat; size_ := 4; offset_ := 3 |}
  /\ exists c', chunks_ (Reset examplePool) !! 0%nat = Some c'
               /\ size_ c' = 4 /\ native_ c' = Some 1%nat /\ offset_ c' = 0.
Proof.
  split; [reflexivity|].
  exact (proj1 (proj2 (Reset_retains_chunks examplePool)) 0%nat _ eq_refl).
Defined.

End D3D12Proofs.

(* ===================================================================== *)
(** * More properties of the staging-buffer pool                           *)
(* ===================================================================== *)

Module D3D12Extra.

Import D3D12 D3D12More.

(** ** What a call of WriteStaged consists of *)

(** Every call that returns has searched to [idx], taken the chunk there
    (appending one first if [idx] is behind the last chunk), and written to
    it. *)
Lemma WriteStaged_inv p dev ctx dst dstOffset data dataSize mapResult
    hr p' dev' ctx' dst' :
  WriteStaged p dev ctx dst dstOffset data dataSize mapResult
    = Some (hr, p', dev', ctx', dst') ->
  let idx := findChunk (length (chunks_ p)) (chunks_ p) (chunkIdx_ p) dataSize in
  exists chunks1 dev1 chunk chunk' ctx2,
    ((idx = length (chunks_ p)
      /\ (dev1, chunk) = StagingBuffer_new dev (Z.max (chunkSize_ p) dataSize)
      /\ chunks1 = chunks_ p ++ [chunk])
     \/ (idx <> length (chunks_ p) /\ dev1 = dev /\ chunks1 = chunks_ p))
    /\ chunks1 !! idx = Some chunk
    /\ StagingBuffer_WriteAndIncrementOffset chunk dev1
         (fst (TransitionResource ctx dst D3D12_RESOURCE_STATE_COPY_DEST true))
         (native dst) dstOffset data dataSize mapResult
       = Some (hr, chunk', dev', ctx2)
    /\ p' = setChunks p (<[idx := chunk']> chunks1) idx
    /\ ctx' = fst (TransitionResource ctx2
                     (snd (TransitionResource ctx dst D3D12_RESOURCE_STATE_COPY_DEST true))
                     (currentState dst) false)
    /\ dst' = dst.
Proof.
  intros H idx. unfold WriteStaged in H. fold idx in H.
  cbn [chunkIdx_ chunks_ setChunks] in H.
  destruct (Nat.eqb idx (length (chunks_ p))) eqn:Heq.
  - apply Nat.eqb_eq in Heq. unfold AllocChunk in H.
    cbn [chunkSize_ chunks_ setChunks] in H.
    destruct (StagingBuffer_new dev (Z.max (chunkSize_ p) dataSize))
      as [dev1 chunk] eqn:Hnew.
    assert (Hidx : (length (chunks_ p ++ [chunk]) - 1)%nat = idx).
    { rewrite length_app. simpl. lia. }
    cbn [chunkIdx_ chunks_ setChunks] in H. rewrite Hidx in H.
    destruct (TransitionResource ctx dst D3D12_RESOURCE_STATE_COPY_DEST true)
      as [ctx1 dst1] eqn:Ht1.
    destruct ((chunks_ p ++ [chunk]) !! idx) as [c|] eqn:Hc; [|done].
    destruct (StagingBuffer_WriteAndIncrementOffset _ _ _ _ _ _ _ _)
      as [[[[hr0 chunk'] dev3] ctx2]|] eqn:Hw; [|done].
    destruct (TransitionResource ctx2 dst1 (currentState dst) false)
      as [ctx3 dst2] eqn:Ht2.
    injection H as <- <- <- <- <-.
    assert (Hd1 : dst1 = {| native := native dst;
                            currentState := D3D12_RESOURCE_STATE_COPY_DEST |}).
    { by rewrite <- (D3D12Proofs.TransitionResource_state ctx dst _ true), Ht1. }
    exists (chunks_ p ++ [chunk]), dev1, c, chunk', ctx2.
    assert (c = chunk) as ->.
    { rewrite Heq, lookup_app_r, Nat.sub_diag in Hc by lia. by inversion Hc. }
    split; [left; done|]. split; [done|]. split.
    { cbn [fst]. rewrite <- Hw. by rewrite Hd1. }
    split; [by unfold setChunks; cbn|]. split.
    { cbn [fst snd]. by rewrite Ht2. }
    pose proof (D3D12Proofs.TransitionResource_state ctx2 dst1 (currentState dst) false) as E.
    rewrite Ht2, Hd1 in E. simpl in E. subst dst2. by destruct dst.
  - apply Nat.eqb_neq in Heq. cbn [chunkIdx_ chunks_ setChunks] in H.
    destruct (TransitionResource ctx dst D3D12_RESOURCE_STATE_COPY_DEST true)
      as [ctx1 dst1] eqn:Ht1.
    destruct (chunks_ p !! idx) as [c|] eqn:Hc; [|done].
    destruct (StagingBuffer_WriteAndIncrementOffset _ _ _ _ _ _ _ _)
      as [[[[hr0 chunk'] dev3] ctx2]|] eqn:Hw; [|done].
    destruct (TransitionResource ctx2 dst1 (currentState dst) false)
      as [ctx3 dst2] eqn:Ht2.
    injection H as <- <- <- <- <-.
    assert (Hd1 : dst1 = {| native := native dst;
                            currentState := D3D12_RESOURCE_STATE_COPY_DEST |}).
    { by rewrite <- (D3D12Proofs.TransitionResource_state ctx dst _ true), Ht1. }
    exists (chunks_ p), dev, c, chunk', ctx2.
    split; [right; done|]. split; [done|]. split.
    { cbn [fst]. rewrite <- Hw. by rewrite Hd1. }
    split; [by unfold setChunks; cbn|]. split.
    { cbn [fst snd]. by rewrite Ht2. }
    pose proof (D3D12Proofs.TransitionResource_state ctx2 dst1 (currentState dst) false) as E.
    rewrite Ht2, Hd1 in E. simpl in E. subst dst2. by destruct dst.
Qed.

(** What the write does to the chunk it is given. *)
Lemma WriteAndIncrementOffset_chunk sb dev ctx dst dstOffset data dataSize mapResult
    hr sb' dev' ctx' :
  StagingBuffer_WriteAndIncrementOffset sb dev ctx dst dstOffset data dataSize mapResult
    = Some (hr, sb', dev', ctx') ->
  hr = (if FAILED mapResult then mapResult else S_OK)
  /\ sb' = (if FAILED mapResult then sb
            else {| native_ := native_ sb; size_ := size_ sb;
                    offset_ := offset_ sb + dataSize |}).
Proof.
  unfold StagingBuffer_WriteAndIncrementOffset.
  destruct (StagingBuffer_Write _ _ _ _ _ _ _ _) as [[[hr0 dev0] ctx0]|] eqn:Hw; [|done].
  intros [= <- <- <- <-].
  apply D3D12Proofs.Write_hr in Hw. subst hr0.
  destruct (FAILED mapResult) eqn:Hf; [by rewrite Hf|done].
Qed.

(** ** Chunks between resets *)

(** X6: a staged write never goes back.  When WriteStaged returns, the
    current chunk index is not lower than before, every chunk that existed
    is still at its index with the same native buffer and size, no write
    offset is lower than before, and only the chunk at the new current
    index can have changed: room left in an earlier chunk is not used again
    before the next Reset. *)
Theorem WriteStaged_never_goes_back
    (p : D3D12StagingBufferPool) (dev : Device) (ctx : D3D12CommandContext)
    (dst : D3D12Resource) (dstOffset : Z) (data : list Byte.byte) (dataSize : Z)
    (mapResult hr : HRESULT) (p' : D3D12StagingBufferPool) (dev' : Device)
    (ctx' : D3D12CommandContext) (dst' : D3D12Resource) :
  0 <= dataSize ->
  WriteStaged p dev ctx dst dstOffset data dataSize mapResult
    = Some (hr, p', dev', ctx', dst') ->
  (chunkIdx_ p <= chunkIdx_ p')%nat
  /\ forall i c, chunks_ p !! i = Some c ->
       exists c', chunks_ p' !! i = Some c'
                  /\ native_ c' = native_ c /\ size_ c' = size_ c
                  /\ offset_ c <= offset_ c'
                  /\ (i <> chunkIdx_ p' -> c' = c).
Proof.
  intros Hsize H.
  apply WriteStaged_inv in H
    as (chunks1 & dev1 & chunk & chunk' & ctx2 & Hcases & Hchunk & Hw & -> & _ & _).
  set (idx := findChunk (length (chunks_ p)) (chunks_ p) (chunkIdx_ p) dataSize) in *.
  apply WriteAndIncrementOffset_chunk in Hw as [_ Hchunk'].
  cbn [chunkIdx_ chunks_ setChunks].
  split; [apply D3D12Proofs.findChunk_bounds|].
  intros i c Hc.
  assert (Hc1 : chunks1 !! i = Some c).
  { destruct Hcases as [(_ & _ & ->)|(_ & _ & ->)]; [|done].
    by apply lookup_app_l_Some. }
  destruct (decide (i = idx)) as [->|Hne].
  - exists chunk'. rewrite list_lookup_insert_eq by (by eapply lookup_lt_Some).
    assert (c = chunk) as -> by congruence.
    split; [done|]. subst chunk'.
    destruct (FAILED mapResult); cbn; repeat split; try done; lia.
  - exists c. rewrite list_lookup_insert_ne by done.
    repeat split; try done; lia.
Qed.

Lemma WriteStaged_never_goes_back_witness :
  exists hr p' dev' ctx' dst',
    WriteStaged examplePool exampleDevice exampleContext exampleBuffer
                1 exampleData 2 S_OK
    = Some (hr, p', dev', ctx', dst')
    /\ chunkIdx_ examplePool = 0%nat /\ chunkIdx_ p' = 1%nat
    /\ (chunkIdx_ examplePool <= chunkIdx_ p')%nat.
Proof.
  do 5 eexists. split; [vm_compute; reflexivity|].
  split; [reflexivity|]. split; [reflexivity|].
  refine (proj1 (WriteStaged_never_goes_back examplePool exampleDevice exampleContext
                   exampleBuffer 1 exampleData 2 S_OK _ _ _ _ _ _ _)).
  - lia.
  - vm_compute. reflexivity.
Defined.

Lemma WriteStaged_offsets_inside p dev ctx dst dstOffset data dataSize mapResult
    hr p' dev' ctx' dst' :
  0 <= dataSize ->
  Forall offsetInside (chunks_ p) ->
  WriteStaged p dev ctx dst dstOffset data dataSize mapResult
    = Some (hr, p', dev', ctx', dst') ->
  Forall offsetInside (chunks_ p').
Proof.
  intros Hsize Hall H.
  apply WriteStaged_inv in H
    as (chunks1 & dev1 & chunk & chunk' & ctx2 & Hcases & Hchunk & Hw & -> & _ & _).
  set (idx := findChunk (length (chunks_ p)) (chunks_ p) (chunkIdx_ p) dataSize) in *.
  apply WriteAndIncrementOffset_chunk in Hw as [_ Hchunk'].
  cbn [chunks_ setChunks].
  pose proof (D3D12Proofs.findChunk_stops (length (chunks_ p)) (chunks_ p) (chunkIdx_ p)
                dataSize ltac:(lia)) as Hstop.
  fold idx in Hstop.
  assert (Hfits : offsetInside chunk /\ Capacity chunk dataSize = true).
  { destruct Hcases as [(Hidx & Hnew & ->)|(Hidx & _ & ->)].
    - unfold StagingBuffer_new, StagingBuffer_Create in Hnew.
      injection Hnew as _ ->. unfold offsetInside, Capacity. cbn.
      split; [lia|]. apply Z.leb_le. lia.
    - rewrite Hchunk in Hstop. split; [|done].
      rewrite Forall_forall in Hall. apply Hall. by eapply list_elem_of_lookup_2. }
  destruct Hfits as [Hin Hcap].
  assert (Hall1 : Forall offsetInside chunks1).
  { destruct Hcases as [(_ & _ & ->)|(_ & _ & ->)]; [|done].
    apply Forall_app. split; [done|]. by apply Forall_singleton. }
  apply Forall_insert; [done|]. subst chunk'.
  destruct (FAILED mapResult); [done|].
  unfold offsetInside, Capacity in *. cbn. apply Z.leb_le in Hcap. lia.
Qed.

Lemma callPool_chunks_unchanged p c p' :
  callPool p c = Some p' ->
  match c with
  | CallReset | CallWriteStaged _ _ _ _ _ _ _ => True
  | _ => chunks_ p' = chunks_ p /\ chunkIdx_ p' = chunkIdx_ p
  end.
Proof.
  destruct c; simpl; try done.
  - by intros [= <-].
  - unfold WriteImmediate, GetUploadBufferAndGrow.
    destruct (TransitionResource _ _ _ _) as [ctx1 dst1].
    destruct (ResizeBuffer _ _ _ _ _) as [dev1 sb].
    destruct (StagingBuffer_Write _ _ _ _ _ _ _ _) as [[[hr dev2] ctx2]|]; [|done].
    destruct (TransitionResource _ _ _ _). by intros [= <-].
  - rewrite D3D12Proofs.ReadSubresourceRegion_unfold. cbv zeta.
    unfold GetReadbackBufferAndGrow.
    destruct (ResizeBuffer _ _ _ _ _) as [dev1 sb]. cbn [fst snd].
    intros H. repeat case_match; simplify_eq; done.
  - unfold MapFeedbackBuffer, GetReadbackBufferAndGrow.
    destruct (ResizeBuffer _ _ _ _ _) as [dev1 sb].
    destruct (TransitionResource _ _ _ _) as [ctx1 src1].
    intros H. repeat case_match; simplify_eq; done.
  - destruct (UnmapFeedbackBuffer p dev); [|done]. by intros [= <-].
  - unfold MapUploadBuffer, GetUploadBufferAndGrow.
    destruct (ResizeBuffer _ _ _ _ _) as [dev1 sb].
    intros H. repeat case_match; simplify_eq; done.
  - destruct (UnmapUploadBuffer _ _ _ _ _); [|done]. by intros [= <-].
Qed.

Lemma callPool_offsets_inside p c p' :
  sizeArgumentValid c -> Forall offsetInside (chunks_ p) ->
  callPool p c = Some p' -> Forall offsetInside (chunks_ p').
Proof.
  intros Hvalid Hall Hcall.
  pose proof (callPool_chunks_unchanged p c p' Hcall) as Hsame.
  destruct c; try (by rewrite (proj1 Hsame)).
  - (* Reset *)
    simpl in Hcall. injection Hcall as <-. cbn [chunks_ Reset].
    apply Forall_fmap. eapply Forall_impl; [exact Hall|].
    intros c [H0 H1]. unfold offsetInside. cbn. lia.
  - (* WriteStaged *)
    simpl in Hcall, Hvalid.
    destruct (WriteStaged _ _ _ _ _ _ _ _) as [[[[[hr p1] dev1] ctx1] dst1]|] eqn:Hw; [|done].
    injection Hcall as <-.
    by eapply WriteStaged_offsets_inside.
Qed.

(** X7: in every pool that a sequence of calls produces from a new pool,
    each chunk's write offset lies between 0 and the chunk's size: staged
    data never runs past the end of a chunk. *)
Theorem chunk_offsets_stay_inside
    (device : nat) (chunkSize : Z) (calls : list PoolCall) (p : D3D12StagingBufferPool) :
  Forall sizeArgumentValid calls ->
  callsPool (Pool_new device chunkSize) calls = Some p ->
  forall i c, chunks_ p !! i = Some c -> 0 <= offset_ c <= size_ c.
Proof.
  intros Hvalid Hcalls.
  assert (Hgen : forall cs q q',
    Forall sizeArgumentValid cs -> Forall offsetInside (chunks_ q) ->
    callsPool q cs = Some q' -> Forall offsetInside (chunks_ q')).
  { induction cs as [|c cs IH]; intros q q' Hv Hq; simpl.
    - by intros [= <-].
    - apply Forall_cons in Hv as [Hc Hcs].
      destruct (callPool q c) as [q1|] eqn:Hcall; [|done].
      intros Hrest. eapply IH; [done| |done].
      by eapply callPool_offsets_inside. }
  intros i c Hc.
  assert (Hall : Forall offsetInside (chunks_ p)).
  { eapply Hgen; [done| |done]. constructor. }
  rewrite Forall_forall in Hall. apply Hall. by eapply list_elem_of_lookup_2.
Qed.

Lemma chunk_offsets_stay_inside_witness :
  exists p,
    callsPool (Pool_new 0 8) (exampleCalls ++ exampleMoreCalls) = Some p
    /\ forall i c, chunks_ p !! i = Some c -> 0 <= offset_ c <= size_ c.
Proof.
  eexists. split; [vm_compute; reflexivity|].
  refine (chunk_offsets_stay_inside 0%nat 8 (exampleCalls ++ exampleMoreCalls) _ _ _).
  - repeat constructor; simpl; lia.
  - vm_compute. reflexivity.
Defined.

(** X8: after Reset the first chunk is used again.  If the pool has a
    chunk and [dataSize] does not exceed the size of the first one, a
    WriteStaged that follows Reset allocates nothing: the number of chunks
    is unchanged, the current chunk is chunk 0, and chunk 0 keeps its native
    buffer and size with the write offset at [dataSize] (at 0 if mapping
    failed). *)
Theorem WriteStaged_after_Reset_reuses_first_chunk
    (p : D3D12StagingBufferPool) (dev : Device) (ctx : D3D12CommandContext)
    (dst : D3D12Resource) (dstOffset : Z) (data : list Byte.byte) (dataSize : Z)
    (mapResult hr : HRESULT) (p' : D3D12StagingBufferPool) (dev' : Device)
    (ctx' : D3D12CommandContext) (dst' : D3D12Resource) (c0 : D3D12StagingBuffer) :
  chunks_ p !! 0%nat = Some c0 ->
  dataSize <= size_ c0 ->
  WriteStaged (Reset p) dev ctx dst dstOffset data dataSize mapResult
    = Some (hr, p', dev', ctx', dst') ->
  length (chunks_ p') = length (chunks_ p)
  /\ chunkIdx_ p' = 0%nat
  /\ chunks_ p' !! 0%nat
     = Some {| native_ := native_ c0; size_ := size_ c0;
               offset_ := if FAILED mapResult then 0 else dataSize |}.
Proof.
  intros Hc0 Hfits H.
  apply WriteStaged_inv in H
    as (chunks1 & dev1 & chunk & chunk' & ctx2 & Hcases & Hchunk & Hw & -> & _ & _).
  assert (Hlen : (0 < length (chunks_ p))%nat) by (by eapply lookup_lt_Some).
  assert (Hidx : findChunk (length (chunks_ (Reset p))) (chunks_ (Reset p))
                   (chunkIdx_ (Reset p)) dataSize = 0%nat).
  { cbn [chunks_ chunkIdx_ Reset]. rewrite length_fmap.
    destruct (length (chunks_ p)) as [|n]; [lia|].
    cbn [findChunk]. rewrite list_lookup_fmap, Hc0. cbn.
    unfold Capacity. cbn. rewrite (proj2 (Z.leb_le _ _)) by lia. done. }
  rewrite Hidx in *.
  assert (Hlen' : length (chunks_ (Reset p)) = length (chunks_ p)).
  { cbn. by rewrite length_fmap. }
  destruct Hcases as [(Hbad & _)|(_ & -> & ->)]; [lia|].
  cbn [chunks_ chunkIdx_ setChunks].
  rewrite length_insert, Hlen'. split; [done|]. split; [done|].
  rewrite list_lookup_insert_eq by lia.
  cbn [chunks_ Reset] in Hchunk. rewrite list_lookup_fmap, Hc0 in Hchunk.
  injection Hchunk as <-.
  apply WriteAndIncrementOffset_chunk in Hw as [_ ->].
  by destruct (FAILED mapResult).
Qed.

Lemma WriteStaged_after_Reset_reuses_first_chunk_witness :
  exists hr p' dev' ctx' dst',
    WriteStaged (Reset examplePool) exampleDevice exampleContext exampleBuffer
                1 exampleData 2 S_OK
    = Some (hr, p', dev', ctx', dst')
    /\ chunks_ p' = [{| native_ := Some 1%nat; size_ := 4; offset_ := 2 |}]
    /\ length (chunks_ p') = length (chunks_ examplePool).
Proof.
  do 5 eexists. split; [vm_compute; reflexivity|]. split; [reflexivity|].
  refine (proj1 (WriteStaged_after_Reset_reuses_first_chunk examplePool exampleDevice
                   exampleContext exampleBuffer 1 exampleData 2 S_OK _ _ _ _ _ _ _ _ _)).
  - reflexivity.
  - simpl. lia.
  - vm_compute. reflexivity.
Defined.

Lemma Write_failed sb dev ctx dst dstOffset data dataSize mapResult hr dev' ctx' :
  FAILED mapResult = true ->
  StagingBuffer_Write sb dev ctx dst dstOffset data dataSize mapResult
    = Some (hr, dev', ctx') ->
  resources dev' = resources dev /\ ctx' = ctx.
Proof.
  intros Hfail. unfold StagingBuffer_Write.
  destruct (native_ sb); [|done]. rewrite Hfail. by intros [= <- <- <-].
Qed.

(** X9: a staged write whose mapping fails.  The failing HRESULT is
    returned, no copy is recorded (the command context only receives the
    two transitions), every resource of the device holds the bytes it held,
    and no chunk that existed changes; a chunk that was appended for the
    write stays in the pool, unused. *)
Theorem WriteStaged_failed_map_changes_nothing_but_allocation
    (p : D3D12StagingBufferPool) (dev : Device) (ctx : D3D12CommandContext)
    (dst : D3D12Resource) (dstOffset : Z) (data : list Byte.byte) (dataSize : Z)
    (mapResult hr : HRESULT) (p' : D3D12StagingBufferPool) (dev' : Device)
    (ctx' : D3D12CommandContext) (dst' : D3D12Resource) :
  FAILED mapResult = true ->
  WriteStaged p dev ctx dst dstOffset data dataSize mapResult
    = Some (hr, p', dev', ctx', dst') ->
  hr = mapResult
  /\ copyBracketed ctx ctx' dst D3D12_RESOURCE_STATE_COPY_DEST []
  /\ (forall h bytes, resources dev !! h = Some bytes ->
        resources dev' !! h = Some bytes)
  /\ (chunks_ p' = chunks_ p
      \/ exists chunk,
           chunks_ p' = chunks_ p ++ [chunk]
           /\ offset_ chunk = 0
           /\ size_ chunk = Z.max (chunkSize_ p) dataSize).
Proof.
  intros Hfail H.
  apply WriteStaged_inv in H
    as (chunks1 & dev1 & chunk & chunk' & ctx2 & Hcases & Hchunk & Hw & -> & -> & _).
  set (idx := findChunk (length (chunks_ p)) (chunks_ p) (chunkIdx_ p) dataSize) in *.
  pose proof (WriteAndIncrementOffset_chunk _ _ _ _ _ _ _ _ _ _ _ _ Hw) as [-> ->].
  rewrite Hfail. split; [done|].
  unfold StagingBuffer_WriteAndIncrementOffset in Hw.
  destruct (StagingBuffer_Write _ _ _ _ _ _ _ _) as [[[hr0 dev0] ctx0]|] eqn:Hwrite; [|done].
  apply (Write_failed _ _ _ _ _ _ _ _ _ _ _ Hfail) in Hwrite as [Hres ->].
  injection Hw as _ _ <- <-.
  split.
  { apply D3D12Proofs.transition_brackets; [done|by rewrite app_nil_r]. }
  rewrite Hres.
  cbn [chunks_ setChunks]. rewrite list_insert_id by done.
  destruct Hcases as [(_ & Hnew & ->)|(_ & -> & ->)].
  - split.
    + intros h bytes Hh. cbn.
      pose proof (D3D12Proofs.Create_preserves dev (Z.max (chunkSize_ p) dataSize) 1
                    D3D12_HEAP_TYPE_UPLOAD h bytes Hh) as Hkeep.
      unfold StagingBuffer_new in Hnew. rewrite <- Hnew in Hkeep. exact Hkeep.
    + right. exists chunk. split; [done|].
      unfold StagingBuffer_new, StagingBuffer_Create in Hnew.
      by injection Hnew as _ ->.
  - split; [done|]. by left.
Qed.

Lemma WriteStaged_failed_map_changes_nothing_but_allocation_witness :
  FAILED E_OUTOFMEMORY = true
  /\ exists p' dev' ctx' dst',
       WriteStaged examplePool exampleDevice exampleContext exampleBuffer
                   1 exampleData 2 E_OUTOFMEMORY
       = Some (E_OUTOFMEMORY, p', dev', ctx', dst')
       /\ length (chunks_ p') = 2%nat
       /\ resources dev' !! 7%nat = Some [Byte.x01; Byte.x02; Byte.x03; Byte.x04].
Proof.
  split; [reflexivity|].
  do 4 eexists. split; [vm_compute; reflexivity|]. split; [reflexivity|].
  refine (proj1 (proj2 (proj2 (WriteStaged_failed_map_changes_nothing_but_allocation
            examplePool exampleDevice exampleContext exampleBuffer 1 exampleData 2
            E_OUTOFMEMORY _ _ _ _ _ _ _))) 7%nat _ _).
  - reflexivity.
  - vm_compute. reflexivity.
  - reflexivity.
Defined.

(** ** Where the bytes go *)

Lemma memcpy_region dst dstOffset src n dst' :
  memcpy dst dstOffset src n = Some dst' ->
  region dst' dstOffset n = take (Z.to_nat n) src
  /\ 0 <= dstOffset /\ 0 <= n /\ n <= Z.of_nat (length src)
  /\ length dst' = length dst.
Proof.
  intros Hm. pose proof (D3D12Proofs.memcpy_length _ _ _ _ _ Hm) as Hlen.
  apply D3D12Proofs.memcpy_inv in Hm as (H0 & Hn & Hsrc & Hdst & ->).
  repeat split; try done. unfold region.
  rewrite drop_app_length'.
  2:{ rewrite length_take. lia. }
  rewrite take_app_length'; [done|]. rewrite length_take. lia.
Qed.

(** A copy command that executes leaves in the destination range the bytes
    of the source range. *)
Lemma execCommand_copy_region mem d dstOffset s srcOffset n mem' :
  execCommand mem (CopyBufferRegion d dstOffset s srcOffset n) = Some mem' ->
  exists hd hs sBytes dBytes',
    d = Some hd /\ s = Some hs
    /\ mem !! hs = Some sBytes /\ mem' !! hd = Some dBytes'
    /\ region dBytes' dstOffset n = region sBytes srcOffset n
    /\ 0 <= n /\ 0 <= srcOffset /\ srcOffset + n <= Z.of_nat (length sBytes)
    /\ (forall h, h <> hd -> mem' !! h = mem !! h).
Proof.
  simpl. destruct d as [hd|]; [|done]. destruct s as [hs|]; [|done].
  destruct (mem !! hs) as [sBytes|] eqn:Hs; [|done].
  destruct (mem !! hd) as [dBytes|] eqn:Hd; [|done].
  case_match eqn:Hc; [|done].
  destruct (memcpy dBytes dstOffset _ n) as [dBytes'|] eqn:Hm; [|done].
  intros [= <-].
  repeat (apply andb_prop in Hc as [Hc ?]).
  repeat match goal with H : (_ <=? _) = true |- _ => apply Z.leb_le in H end.
  apply memcpy_region in Hm as (Hr & _ & _ & _ & _).
  exists hd, hs, sBytes, dBytes'. rewrite lookup_insert_eq.
  repeat split; try done.
  intros h Hne. by rewrite lookup_insert_ne.
Qed.

Lemma execCommands_barriers_then mem (bs : list D3D12_RESOURCE_BARRIER) cs :
  execCommands mem ((ResourceBarrier <$> bs) ++ cs) = execCommands mem cs.
Proof.
  by rewrite D3D12Proofs.execCommands_app, D3D12Proofs.execCommands_barriers.
Qed.

Lemma FinishAndSubmit_exec mem ctx :
  FinishAndSubmitCommandContext mem ctx
  = match execCommands mem (commandList ctx) with
    | Some mem' => Some (mem', {| commandList := []; resourceBarriers := [] |})
    | None => None
    end.
Proof.
  unfold FinishAndSubmitCommandContext, FlushResourceBarriers. cbn [commandList].
  rewrite D3D12Proofs.execCommands_app.
  destruct (execCommands mem (commandList ctx)) as [m|]; [|done].
  by rewrite D3D12Proofs.execCommands_barriers.
Qed.

Lemma Write_succeeded sb dev ctx dst dstOffset data dataSize mapResult hr dev' ctx' :
  FAILED mapResult = false ->
  StagingBuffer_Write sb dev ctx dst dstOffset data dataSize mapResult
    = Some (hr, dev', ctx') ->
  exists h mapped mapped',
    native_ sb = Some h
    /\ resources dev !! h = Some mapped
    /\ memcpy mapped (offset_ sb) data dataSize = Some mapped'
    /\ resources dev' = <[h := mapped']> (resources dev)
    /\ ctx' = recordCommand ctx
                (CopyBufferRegion dst dstOffset (Some h) (offset_ sb) dataSize).
Proof.
  intros Hok. unfold StagingBuffer_Write.
  destruct (native_ sb) as [h|]; [|done]. rewrite Hok. cbn.
  destruct (resources dev !! h) as [mapped|] eqn:Hm; [|done].
  destruct (memcpy mapped (offset_ sb) data dataSize) as [mapped'|] eqn:Hc; [|done].
  intros [= <- <- <-]. exists h, mapped, mapped'. done.
Qed.

(** Executing a context that holds nothing but barriers and one copy. *)
Lemma exec_bracketed_copy mem ctx ctx' buffer copyState copy :
  commandList ctx = [] ->
  copyBracketed ctx ctx' buffer copyState [copy] ->
  execCommands mem (commandList ctx') = execCommand mem copy.
Proof.
  intros Hnone [Hlist _]. rewrite Hlist, Hnone. cbn [app].
  rewrite execCommands_barriers_then. cbn.
  by destruct (execCommand mem copy).
Qed.

(** X10: a staged write reaches its destination.  After a WriteStaged whose
    mapping succeeded, on a context with nothing else pending, submitting
    the context leaves the [dataSize] bytes of [data] in the destination
    buffer at [dstOffset]. *)
Theorem staged_write_reaches_destination
    (p : D3D12StagingBufferPool) (dev : Device) (ctx : D3D12CommandContext)
    (dst : D3D12Resource) (dstOffset : Z) (data : list Byte.byte) (dataSize : Z)
    (mapResult hr : HRESULT) (p' : D3D12StagingBufferPool) (dev' : Device)
    (ctx' : D3D12CommandContext) (dst' : D3D12Resource)
    (mem : gmap nat (list Byte.byte)) (ctx'' : D3D12CommandContext) :
  FAILED mapResult = false ->
  commandList ctx = [] ->
  WriteStaged p dev ctx dst dstOffset data dataSize mapResult
    = Some (hr, p', dev', ctx', dst') ->
  FinishAndSubmitCommandContext (resources dev') ctx' = Some (mem, ctx'') ->
  exists hd dBytes,
    native dst = Some hd
    /\ mem !! hd = Some dBytes
    /\ region dBytes dstOffset dataSize = take (Z.to_nat dataSize) data
    /\ dataSize <= Z.of_nat (length data)
    /\ ctx'' = {| commandList := []; resourceBarriers := [] |}.
Proof.
  intros Hok Hnone H Hsubmit.
  apply WriteStaged_inv in H
    as (chunks1 & dev1 & chunk & chunk' & ctx2 & _ & _ & Hw & _ & -> & _).
  unfold StagingBuffer_WriteAndIncrementOffset in Hw.
  destruct (StagingBuffer_Write _ _ _ _ _ _ _ _) as [[[hr0 dev0] ctx0]|] eqn:Hwrite; [|done].
  injection Hw as _ _ <- <-.
  apply (Write_succeeded _ _ _ _ _ _ _ _ _ _ _ Hok) in Hwrite
    as (h & mapped & mapped' & Hh & Hmapped & Hcopy & Hres & ->).
  rewrite FinishAndSubmit_exec in Hsubmit.
  rewrite (exec_bracketed_copy _ ctx _ dst D3D12_RESOURCE_STATE_COPY_DEST
             (CopyBufferRegion (native dst) dstOffset (Some h) (offset_ chunk) dataSize))
    in Hsubmit; [|done|by apply D3D12Proofs.transition_brackets].
  destruct (execCommand _ _) as [mem'|] eqn:Hexec; [|done].
  injection Hsubmit as <- <-.
  apply execCommand_copy_region in Hexec
    as (hd & hs & sBytes & dBytes' & Hd & [= <-] & Hs & Hd' & Hregion & _).
  rewrite Hres, lookup_insert_eq in Hs. injection Hs as <-.
  apply memcpy_region in Hcopy as (Hr & _ & _ & Hlen & _).
  exists hd, dBytes'. repeat split; try done. by rewrite Hregion.
Qed.

Lemma staged_write_reaches_destination_witness :
  exists hr p' dev' ctx' dst' mem ctx'',
    WriteStaged examplePool exampleDevice exampleContext exampleBuffer
                1 exampleData 2 S_OK
    = Some (hr, p', dev', ctx', dst')
    /\ FinishAndSubmitCommandContext (resources dev') ctx' = Some (mem, ctx'')
    /\ mem !! 7%nat = Some [Byte.x01; Byte.x0a; Byte.x0b; Byte.x04]
    /\ exists hd dBytes,
         native exampleBuffer = Some hd /\ mem !! hd = Some dBytes
         /\ region dBytes 1 2 = take (Z.to_nat 2) exampleData.
Proof.
  do 7 eexists. split; [vm_compute; reflexivity|].
  split; [vm_compute; reflexivity|]. split; [vm_compute; reflexivity|].
  destruct (staged_write_reaches_destination examplePool exampleDevice exampleContext
              exampleBuffer 1 exampleData 2 S_OK _ _ _ _ _ _ _
              eq_refl eq_refl ltac:(vm_compute; reflexivity)
              ltac:(vm_compute; reflexivity))
    as (hd & dBytes & H1 & H2 & H3 & _).
  exists hd, dBytes. split; [exact H1|]. split; [exact H2|exact H3].
Defined.

Lemma WriteImmediate_inv p dev ctx dst dstOffset data dataSize alignment mapResult
    hr p' dev' ctx' dst' :
  WriteImmediate p dev ctx dst dstOffset data dataSize alignment mapResult
    = Some (hr, p', dev', ctx', dst') ->
  let grown := GetUploadBufferAndGrow p dev dataSize alignment in
  exists ctx2,
    p' = fst grown /\ dst' = dst
    /\ StagingBuffer_Write (globalUploadBuffer_ (fst grown)) (snd grown)
         (fst (TransitionResource ctx dst D3D12_RESOURCE_STATE_COPY_DEST true))
         (native dst) dstOffset data dataSize mapResult
       = Some (hr, dev', ctx2)
    /\ ctx' = fst (TransitionResource ctx2
                     (snd (TransitionResource ctx dst D3D12_RESOURCE_STATE_COPY_DEST true))
                     (currentState dst) false).
Proof.
  intros H grown. unfold WriteImmediate in H. fold grown in H.
  destruct (TransitionResource ctx dst D3D12_RESOURCE_STATE_COPY_DEST true)
    as [ctx1 dst1] eqn:Ht1.
  destruct grown as [p1 dev1].
  destruct (StagingBuffer_Write _ _ _ _ _ _ _ _) as [[[hr0 dev2] ctx2]|] eqn:Hw; [|done].
  destruct (TransitionResource ctx2 dst1 (currentState dst) false) as [ctx3 dst2] eqn:Ht2.
  injection H as <- <- <- <- <-.
  assert (Hd1 : dst1 = {| native := native dst;
                          currentState := D3D12_RESOURCE_STATE_COPY_DEST |}).
  { by rewrite <- (D3D12Proofs.TransitionResource_state ctx dst _ true), Ht1. }
  exists ctx2. cbn [fst snd]. split; [done|]. split.
  { pose proof (D3D12Proofs.TransitionResource_state ctx2 dst1 (currentState dst) false) as E.
    rewrite Ht2, Hd1 in E. simpl in E. subst dst2. by destruct dst. }
  split; [by rewrite <- Hw, Hd1|]. by rewrite Ht2.
Qed.

Lemma grow_readback_preserves p dev size alignment h bytes :
  resources dev !! h = Some bytes ->
  resources (snd (GetReadbackBufferAndGrow p dev size alignment)) !! h = Some bytes.
Proof.
  intros Hh. unfold GetReadbackBufferAndGrow, ResizeBuffer.
  destruct (negb _); [|done].
  pose proof (D3D12Proofs.Create_preserves dev (GetAlignedSize size alignment) minAlignment
                D3D12_HEAP_TYPE_READBACK h bytes Hh) as Hkeep.
  by destruct (StagingBuffer_Create _ _ _ _).
Qed.

(** X11: what WriteImmediate writes, ReadSubresourceRegion reads back.  On
    a context with nothing else pending, an immediate write of [dataSize]
    bytes to a buffer at [offset], followed by a read of [dataSize] bytes
    from the same buffer at the same offset, puts exactly the written bytes
    into the output memory (both mappings succeeding). *)
Theorem immediate_write_then_read_returns_data
    (p : D3D12StagingBufferPool) (dev : Device) (ctx : D3D12CommandContext)
    (buffer : D3D12Resource) (offset : Z) (data output : list Byte.byte)
    (dataSize alignmentW alignmentR : Z) (mapW mapR hr : HRESULT)
    (p1 : D3D12StagingBufferPool) (dev1 : Device) (ctx1 : D3D12CommandContext)
    (buffer1 : D3D12Resource) (r : ReadResult) :
  FAILED mapW = false -> FAILED mapR = false ->
  commandList ctx = [] ->
  WriteImmediate p dev ctx buffer offset data dataSize alignmentW mapW
    = Some (hr, p1, dev1, ctx1, buffer1) ->
  ReadSubresourceRegion p1 dev1 ctx1 buffer1 offset output dataSize alignmentR mapR
    = Some r ->
  read_hr r = S_OK
  /\ read_data r = take (Z.to_nat dataSize) data ++ drop (Z.to_nat dataSize) output.
Proof.
  intros HokW HokR Hnone Hwrite Hread.
  apply WriteImmediate_inv in Hwrite as (ctx2 & -> & -> & Hw & ->).
  apply (Write_succeeded _ _ _ _ _ _ _ _ _ _ _ HokW) in Hw
    as (hu & mapped & mapped' & Hhu & Hmapped & Hcopy & Hres & ->).
  set (upload := globalUploadBuffer_ (fst (GetUploadBufferAndGrow p dev dataSize alignmentW)))
    in *.
  set (copyW := CopyBufferRegion (native buffer) offset (Some hu) (offset_ upload) dataSize)
    in *.
  rewrite D3D12Proofs.ReadSubresourceRegion_unfold in Hread. cbv zeta in Hread.
  set (grownR := GetReadbackBufferAndGrow _ dev1 dataSize alignmentR) in *.
  rewrite (exec_bracketed_copy _ ctx _ buffer D3D12_RESOURCE_STATE_COPY_DEST copyW)
    in Hread; [|done|by apply D3D12Proofs.transition_brackets].
  destruct (execCommand (resources (snd grownR)) copyW) as [memAtCopy|] eqn:HexecW; [|done].
  destruct (execCommand memAtCopy _) as [mem2|] eqn:HexecR; [|done].
  destruct (GetNative (globalReadbackBuffer_ (fst grownR))) as [hr0|] eqn:Hhr; [|done].
  rewrite HokR in Hread.
  destruct (mem2 !! hr0) as [mappedData|] eqn:Hmem2; [|done].
  destruct (memcpy output 0 mappedData dataSize) as [data'|] eqn:Hout; [|done].
  injection Hread as <-. cbn [read_hr read_data]. split; [done|].
  (* the upload buffer still holds the data when the write's copy executes *)
  assert (Hupload : resources (snd grownR) !! hu = Some mapped').
  { apply grow_readback_preserves. by rewrite Hres, lookup_insert_eq. }
  apply execCommand_copy_region in HexecW
    as (hb & ? & uBytes & bBytes & Hb & [= <-] & Hu & Hb' & HregionW & _).
  rewrite Hupload in Hu. injection Hu as <-.
  apply execCommand_copy_region in HexecR
    as (? & hb' & sBytes & rBytes & [= <-] & Hsrc & Hs & Hr' & HregionR & _).
  assert (hb' = hb) as -> by congruence.
  rewrite Hb' in Hs. injection Hs as <-.
  rewrite Hmem2 in Hr'. injection Hr' as <-.
  apply memcpy_region in Hcopy as (HrW & _ & _ & _ & _).
  apply D3D12Proofs.memcpy_inv in Hout as (_ & _ & _ & _ & ->).
  cbn [Z.to_nat take app Z.add].
  change (take (Z.to_nat dataSize) mappedData) with
    (take (Z.to_nat dataSize) (drop (Z.to_nat 0) mappedData)).
  fold (region mappedData 0 dataSize).
  by rewrite HregionR, HregionW, HrW.
Qed.

Lemma immediate_write_then_read_returns_data_witness :
  exists hr p1 dev1 ctx1 buffer1 r,
    WriteImmediate (Pool_new 0 8) exampleDevice exampleContext exampleBuffer
                   1 exampleData 2 256 S_OK
    = Some (hr, p1, dev1, ctx1, buffer1)
    /\ ReadSubresourceRegion p1 dev1 ctx1 buffer1 1 exampleOutput 2 256 S_OK = Some r
    /\ read_data r = [Byte.x0a; Byte.x0b; Byte.xff].
Proof.
  do 6 eexists. split; [vm_compute; reflexivity|].
  split; [vm_compute; reflexivity|].
  refine (proj2 (immediate_write_then_read_returns_data (Pool_new 0 8) exampleDevice
                   exampleContext exampleBuffer 1 exampleData exampleOutput 2 256 256
                   S_OK S_OK _ _ _ _ _ _ eq_refl eq_refl eq_refl _ _)).
  - vm_compute. reflexivity.
  - vm_compute. reflexivity.
Defined.

(** ** The feedback and upload mappings *)

Lemma exec_after_transition mem ctx buffer newState copy :
  commandList ctx = [] ->
  execCommands mem
    (commandList (recordCommand (fst (TransitionResource ctx buffer newState true)) copy))
  = execCommand mem copy.
Proof.
  intros Hnone. unfold TransitionResource, recordCommand, FlushResourceBarriers.
  destruct (currentState buffer =? newState); cbn [fst commandList resourceBarriers];
    rewrite Hnone; cbn [app]; rewrite execCommands_barriers_then; cbn;
    by destruct (execCommand mem copy).
Qed.

(** X12: MapFeedbackBuffer.  On a context with nothing else pending, when
    the call returns the readback buffer has been mapped with the read
    range [0, numBytes), numBytes being End - Begin as a 64-bit unsigned
    number, and its first numBytes bytes are the bytes of the source buffer
    from Begin on.  The HRESULT of the mapping is returned as it is.  Unlike
    ReadSubresourceRegion the call does not restore the resource state: the
    source buffer is left in COPY_SOURCE, and the context has been
    submitted. *)
Theorem MapFeedbackBuffer_maps_source_range
    (p : D3D12StagingBufferPool) (dev : Device) (ctx : D3D12CommandContext)
    (src : D3D12Resource) (readRange : D3D12_RANGE) (alignment : Z)
    (mapResult hr : HRESULT) (p' : D3D12StagingBufferPool) (dev' : Device)
    (ctx' : D3D12CommandContext) (src' : D3D12Resource)
    (hs : nat) (sBytes : list Byte.byte) :
  let numBytes := (End readRange - Begin readRange) mod UINT64_modulus in
  commandList ctx = [] ->
  native src = Some hs ->
  resources dev !! hs = Some sBytes ->
  MapFeedbackBuffer p dev ctx src readRange alignment mapResult
    = Some (hr, p', dev', ctx', src') ->
  hr = mapResult
  /\ src' = {| native := native src; currentState := D3D12_RESOURCE_STATE_COPY_SOURCE |}
  /\ ctx' = {| commandList := []; resourceBarriers := [] |}
  /\ exists h mapped,
       GetNative (globalReadbackBuffer_ p') = Some h
       /\ resources dev' !! h = Some mapped
       /\ region mapped 0 numBytes = region sBytes (Begin readRange) numBytes
       /\ calls dev' = calls dev ++ [Map h {| Begin := 0; End := numBytes |} mapResult].
Proof.
  intros numBytes Hnone Hhs Hsrc H.
  unfold MapFeedbackBuffer in H. fold numBytes in H.
  pose proof (grow_readback_preserves p dev numBytes alignment hs sBytes Hsrc) as Hkeep.
  assert (Hcalls : calls (snd (GetReadbackBufferAndGrow p dev numBytes alignment))
                   = calls dev).
  { unfold GetReadbackBufferAndGrow, ResizeBuffer. by destruct (negb _). }
  destruct (GetReadbackBufferAndGrow p dev numBytes alignment) as [p1 dev1].
  cbn [fst snd] in *.
  pose proof (D3D12Proofs.TransitionResource_state ctx src
                D3D12_RESOURCE_STATE_COPY_SOURCE true) as Hstate.
  pose proof (exec_after_transition (resources dev1) ctx src
                D3D12_RESOURCE_STATE_COPY_SOURCE
                (CopyBufferRegion (GetNative (globalReadbackBuffer_ p1)) 0
                   (native src) (Begin readRange) numBytes) Hnone) as Hexec.
  destruct (TransitionResource ctx src D3D12_RESOURCE_STATE_COPY_SOURCE true)
    as [ctx1 src1].
  cbn [fst snd] in *. subst src1. cbn [D3D12Resource_Get native] in H.
  rewrite FinishAndSubmit_exec, Hexec in H.
  destruct (execCommand _ _) as [mem2|] eqn:Hcopy; [|done].
  destruct (GetNative (globalReadbackBuffer_ p1)) as [h|] eqn:Hh; [|done].
  injection H as <- <- <- <- <-.
  split; [done|]. split; [done|]. split; [done|].
  apply execCommand_copy_region in Hcopy
    as (? & hs' & sBytes' & mapped & [= <-] & Hs' & Hlook & Hmapped & Hregion & _).
  assert (hs' = hs) as -> by congruence.
  rewrite Hkeep in Hlook. injection Hlook as <-.
  exists h, mapped. cbn. rewrite Hcalls. done.
Qed.

Lemma MapFeedbackBuffer_maps_source_range_witness :
  exists hr p' dev' ctx' src' h,
    MapFeedbackBuffer (Pool_new 0 8) exampleDevice exampleContext exampleBuffer
                      {| Begin := 1; End := 3 |} 256 S_OK
    = Some (hr, p', dev', ctx', src')
    /\ currentState src' = D3D12_RESOURCE_STATE_COPY_SOURCE
    /\ GetNative (globalReadbackBuffer_ p') = Some h
    /\ region (default [] (resources dev' !! h)) 0 2 = [Byte.x02; Byte.x03].
Proof.
  do 6 eexists. split; [vm_compute; reflexivity|]. split; [reflexivity|].
  split; [reflexivity|].
  destruct (MapFeedbackBuffer_maps_source_range (Pool_new 0 8) exampleDevice
              exampleContext exampleBuffer {| Begin := 1; End := 3 |} 256 S_OK
              _ _ _ _ _ 7%nat [Byte.x01; Byte.x02; Byte.x03; Byte.x04]
              eq_refl eq_refl eq_refl ltac:(vm_compute; reflexivity))
    as (_ & _ & _ & h & mapped & Hh & Hm & Hr & _).
  injection Hh as <-. rewrite Hm. exact Hr.
Defined.

(** X13: UnmapUploadBuffer.  On a context with nothing else pending, the
    call unmaps the upload buffer with the written range as given and
    submits a copy of End - Begin bytes to the destination at offset Begin;
    the bytes it takes are those at the start of the upload buffer, from
    offset 0 on, not those from Begin on.  The destination is left in
    COPY_DEST and the context has been submitted. *)
Theorem UnmapUploadBuffer_copies_from_buffer_start
    (p : D3D12StagingBufferPool) (dev : Device) (ctx : D3D12CommandContext)
    (dst : D3D12Resource) (writtenRange : D3D12_RANGE) (dev' : Device)
    (ctx' : D3D12CommandContext) (dst' : D3D12Resource)
    (h : nat) (uBytes : list Byte.byte) :
  let numBytes := (End writtenRange - Begin writtenRange) mod UINT64_modulus in
  commandList ctx = [] ->
  GetNative (globalUploadBuffer_ p) = Some h ->
  resources dev !! h = Some uBytes ->
  UnmapUploadBuffer p dev ctx dst writtenRange = Some (dev', ctx', dst') ->
  dst' = {| native := native dst; currentState := D3D12_RESOURCE_STATE_COPY_DEST |}
  /\ ctx' = {| commandList := []; resourceBarriers := [] |}
  /\ calls dev' = calls dev ++ [Unmap h writtenRange]
  /\ exists hd dBytes,
       native dst = Some hd
       /\ resources dev' !! hd = Some dBytes
       /\ region dBytes (Begin writtenRange) numBytes = region uBytes 0 numBytes.
Proof.
  intros numBytes Hnone Hh Hbytes H.
  unfold UnmapUploadBuffer in H. rewrite Hh in H. fold numBytes in H.
  pose proof (D3D12Proofs.TransitionResource_state ctx dst
                D3D12_RESOURCE_STATE_COPY_DEST true) as Hstate.
  pose proof (exec_after_transition
                (resources (logCall dev (Unmap h writtenRange))) ctx dst
                D3D12_RESOURCE_STATE_COPY_DEST
                (CopyBufferRegion (native dst) (Begin writtenRange) (Some h) 0 numBytes)
                Hnone) as Hexec.
  destruct (TransitionResource ctx dst D3D12_RESOURCE_STATE_COPY_DEST true)
    as [ctx1 dst1].
  cbn [fst snd] in *. subst dst1. cbn [D3D12Resource_Get native] in H.
  rewrite FinishAndSubmit_exec, Hexec in H.
  destruct (execCommand _ _) as [mem2|] eqn:Hcopy; [|done].
  injection H as <- <- <-.
  split; [done|]. split; [done|]. split; [done|].
  apply execCommand_copy_region in Hcopy
    as (hd & ? & uBytes' & dBytes & Hd & [= <-] & Hlook & Hd' & Hregion & _).
  cbn in Hlook. rewrite Hbytes in Hlook. injection Hlook as <-.
  exists hd, dBytes. done.
Qed.

Lemma UnmapUploadBuffer_copies_from_buffer_start_witness :
  exists dev' ctx' dst',
    UnmapUploadBuffer
      exampleUploadPool exampleUploadDevice exampleContext exampleBuffer {| Begin := 2; End := 4 |}
    = Some (dev', ctx', dst')
    /\ resources dev' !! 7%nat = Some [Byte.x01; Byte.x02; Byte.x0a; Byte.x0b]
    /\ currentState dst' = D3D12_RESOURCE_STATE_COPY_DEST.
Proof.
  do 3 eexists. split; [vm_compute; reflexivity|].
  split; [vm_compute; reflexivity|].
  destruct (UnmapUploadBuffer_copies_from_buffer_start
              exampleUploadPool exampleUploadDevice
              exampleContext exampleBuffer {| Begin := 2; End := 4 |}
              _ _ _ 1%nat [Byte.x0a; Byte.x0b; Byte.x0c; Byte.x0d]
              eq_refl eq_refl ltac:(vm_compute; reflexivity)
              ltac:(vm_compute; reflexivity))
    as (Hdst & _).
  by rewrite Hdst.
Defined.

(** X14: MapUploadBuffer followed by UnmapUploadBuffer.  The mapping
    returns the HRESULT of Map as it is and maps the global upload buffer
    without a read range, after growing it so that [size] bytes fit; the
    unmapping that follows unmaps that same resource with the written
    range, so the two native calls pair up.  Neither call touches the
    chunks of the pool. *)
Theorem MapUploadBuffer_then_Unmap_pairs_up
    (p : D3D12StagingBufferPool) (dev : Device) (size alignment : Z)
    (mapResult hr : HRESULT) (p1 : D3D12StagingBufferPool) (dev1 dev2 : Device)
    (ctx ctx2 : D3D12CommandContext) (dst dst2 : D3D12Resource)
    (writtenRange : D3D12_RANGE) :
  MapUploadBuffer p dev size alignment mapResult = Some (hr, p1, dev1) ->
  UnmapUploadBuffer p1 dev1 ctx dst writtenRange = Some (dev2, ctx2, dst2) ->
  hr = mapResult
  /\ chunks_ p1 = chunks_ p /\ chunkIdx_ p1 = chunkIdx_ p
  /\ size <= size_ (globalUploadBuffer_ p1) - offset_ (globalUploadBuffer_ p1)
  /\ exists h,
       GetNative (globalUploadBuffer_ p1) = Some h
       /\ calls dev2 = calls dev ++ [Map h {| Begin := 0; End := 0 |} mapResult;
                                     Unmap h writtenRange].
Proof.
  intros Hmap Hunmap.
  unfold MapUploadBuffer, GetUploadBufferAndGrow, ResizeBuffer in Hmap.
  pose proof (D3D12Proofs.GetAlignedSize_ge size alignment) as Hal.
  pose proof (D3D12Proofs.GetAlignedSize_ge (GetAlignedSize size alignment) minAlignment)
    as Hmin.
  assert (Hgrown :
    exists sb dev0,
      p1 = setGlobalUploadBuffer p sb /\ calls dev0 = calls dev
      /\ size <= size_ sb - offset_ sb
      /\ exists h, GetNative sb = Some h
                   /\ dev1 = logCall dev0 (Map h {| Begin := 0; End := 0 |} mapResult)
                   /\ hr = mapResult).
  { destruct (negb (Capacity (globalUploadBuffer_ p) (GetAlignedSize size alignment)))
      eqn:Hcap.
    - unfold StagingBuffer_Create in Hmap.
      cbn [GetNative native_ setGlobalUploadBuffer globalUploadBuffer_] in Hmap.
      injection Hmap as <- <- <-.
      eexists _, (setResources dev _). split; [reflexivity|]. split; [reflexivity|].
      cbn [size_ offset_]. split; [lia|].
      eexists. split; [reflexivity|]. split; reflexivity.
    - cbn [setGlobalUploadBuffer globalUploadBuffer_] in Hmap.
      destruct (GetNative (globalUploadBuffer_ p)) as [h|] eqn:Hh; [|done].
      injection Hmap as <- <- <-.
      apply negb_false_iff in Hcap. unfold Capacity in Hcap. apply Z.leb_le in Hcap.
      exists (globalUploadBuffer_ p), dev. split; [reflexivity|]. split; [done|].
      split; [lia|]. by exists h. }
  destruct Hgrown as (sb & dev0 & -> & Hcalls & Hfits & h & Hh & -> & ->).
  split; [done|]. split; [done|]. split; [done|]. split; [done|].
  exists h. split; [done|].
  unfold UnmapUploadBuffer in Hunmap.
  cbn [setGlobalUploadBuffer globalUploadBuffer_] in Hunmap. rewrite Hh in Hunmap.
  destruct (TransitionResource ctx dst D3D12_RESOURCE_STATE_COPY_DEST true) as [ctx1 dst1].
  destruct (FinishAndSubmitCommandContext _ _) as [[mem2 ctx3]|]; [|done].
  injection Hunmap as <- <- <-.
  cbn. rewrite Hcalls, <- app_assoc. done.
Qed.

Lemma MapUploadBuffer_then_Unmap_pairs_up_witness :
  exists p1 dev1 dev2 ctx2 dst2,
    MapUploadBuffer (Pool_new 0 8) exampleDevice 2 256 S_OK = Some (S_OK, p1, dev1)
    /\ UnmapUploadBuffer p1 dev1 exampleContext exampleBuffer {| Begin := 1; End := 3 |}
       = Some (dev2, ctx2, dst2)
    /\ 2 <= size_ (globalUploadBuffer_ p1) - offset_ (globalUploadBuffer_ p1).
Proof.
  do 5 eexists. split; [vm_compute; reflexivity|].
  split; [vm_compute; reflexivity|].
  refine (proj1 (proj2 (proj2 (proj2
    (MapUploadBuffer_then_Unmap_pairs_up (Pool_new 0 8) exampleDevice 2 256 S_OK S_OK
       _ _ _ exampleContext _ exampleBuffer _ {| Begin := 1; End := 3 |} _ _))))).
  - vm_compute; reflexivity.
  - vm_compute; reflexivity.
Defined.

(** X15: MapFeedbackBuffer followed by UnmapFeedbackBuffer.  After a
    mapping that returned, the unmapping is defined: it unmaps the resource
    that was mapped, with the empty written range, and leaves the memory as
    it is. *)
Theorem MapFeedbackBuffer_then_Unmap_pairs_up
    (p : D3D12StagingBufferPool) (dev : Device) (ctx : D3D12CommandContext)
    (src : D3D12Resource) (readRange : D3D12_RANGE) (alignment : Z)
    (mapResult hr : HRESULT) (p' : D3D12StagingBufferPool) (dev' : Device)
    (ctx' : D3D12CommandContext) (src' : D3D12Resource) :
  MapFeedbackBuffer p dev ctx src readRange alignment mapResult
    = Some (hr, p', dev', ctx', src') ->
  exists h dev'',
    UnmapFeedbackBuffer p' dev' = Some dev''
    /\ resources dev'' = resources dev'
    /\ calls dev'' =
         calls dev
         ++ [Map h {| Begin := 0;
                      End := (End readRange - Begin readRange) mod UINT64_modulus |}
                 mapResult;
             Unmap h {| Begin := 0; End := 0 |}].
Proof.
  intros H. unfold MapFeedbackBuffer in H.
  assert (Hcalls : calls (snd (GetReadbackBufferAndGrow p dev
                     ((End readRange - Begin readRange) mod UINT64_modulus) alignment))
                   = calls dev).
  { unfold GetReadbackBufferAndGrow, ResizeBuffer. by destruct (negb _). }
  destruct (GetReadbackBufferAndGrow _ _ _ _) as [p1 dev1].
  destruct (TransitionResource ctx src D3D12_RESOURCE_STATE_COPY_SOURCE true)
    as [ctx1 src1].
  destruct (FinishAndSubmitCommandContext _ _) as [[mem2 ctx3]|]; [|done].
  destruct (GetNative (globalReadbackBuffer_ p1)) as [h|] eqn:Hh; [|done].
  injection H as <- <- <- <- <-.
  unfold UnmapFeedbackBuffer. rewrite Hh.
  eexists h, _. split; [reflexivity|]. split; [done|].
  cbn in *. rewrite Hcalls, <- app_assoc. done.
Qed.

Lemma MapFeedbackBuffer_then_Unmap_pairs_up_witness :
  exists hr p' dev' ctx' src' h dev'',
    MapFeedbackBuffer (Pool_new 0 8) exampleDevice exampleContext exampleBuffer
                      {| Begin := 1; End := 3 |} 256 S_OK
    = Some (hr, p', dev', ctx', src')
    /\ UnmapFeedbackBuffer p' dev' = Some dev''
    /\ calls dev'' = [Map h {| Begin := 0; End := 2 |} S_OK;
                      Unmap h {| Begin := 0; End := 0 |}].
Proof.
  destruct (MapFeedbackBuffer (Pool_new 0 8) exampleDevice exampleContext exampleBuffer
              {| Begin := 1; End := 3 |} 256 S_OK)
    as [[[[[hr p'] dev'] ctx'] src']|] eqn:H; [|vm_compute in H; discriminate].
  destruct (MapFeedbackBuffer_then_Unmap_pairs_up _ _ _ _ _ _ _ _ _ _ _ _ H)
    as (h & dev'' & Hunmap & _ & Hcalls).
  exists hr, p', dev', ctx', src', h, dev''.
  split; [reflexivity|]. split; [exact Hunmap|exact Hcalls].
Defined.

End D3D12Extra.

(* ===================================================================== *)
(** * Properties of the OpenGL backend                                     *)
(* ===================================================================== *)

Module GLProofs.

Import GL.

(** ** Swap chain *)

(** C5, as stated, fails on the OpenGL swap chain: it reports one swap
    buffer, not two or more. *)
Lemma GLSwapChain_reports_one_buffer :
  ~ (2 <= GetNumSwapBuffers exampleSwapChain
     /\ GetCurrentSwapIndex exampleSwapChain < GetNumSwapBuffers exampleSwapChain).
Proof. unfold GetNumSwapBuffers. intros [H _]. lia. Qed.

(** C5, amended: every OpenGL swap chain reports exactly one swap buffer and
    the current swap index 0, so the index it reports is strictly less than
    the number of buffers it reports. *)
Theorem GLSwapChain_swap_index_in_range (sc : GLSwapChain) :
  GetNumSwapBuffers sc = 1
  /\ GetCurrentSwapIndex sc = 0
  /\ 0 <= GetCurrentSwapIndex sc < GetNumSwapBuffers sc.
Proof. unfold GetNumSwapBuffers, GetCurrentSwapIndex. lia. Qed.

(** ** Deferred command buffer *)

Lemma opcodeOfValue_opcodeValue op : opcodeOfValue (opcodeValue op) = Some op.
Proof. destruct op; reflexivity. Qed.

Lemma recordDeferred_foldl cs stream :
  foldl recordDeferred stream cs = stream ++ concat (encodeCommand <$> cs).
Proof.
  revert stream. induction cs as [|c cs IH]; intros stream; simpl.
  - by rewrite app_nil_r.
  - rewrite IH. unfold recordDeferred. by rewrite <- app_assoc.
Qed.

Lemma issueImmediate_foldl cs context :
  foldl issueImmediate context cs
  = context ++ ((fun c => nativeCall (opcode c) (payload c) (trailing c)) <$> cs).
Proof.
  revert context. induction cs as [|c cs IH]; intros context; simpl.
  - by rewrite app_nil_r.
  - rewrite IH. unfold issueImmediate. by rewrite <- app_assoc.
Qed.

(** Replaying one recorded command makes its native call and continues
    directly behind its array data. *)
Lemma replay_step fuel context c rest :
  wellFormed c = true ->
  replay (S fuel) context (encodeCommand c ++ rest)
  = replay fuel (context ++ [nativeCall (opcode c) (payload c) (trailing c)]) rest.
Proof.
  unfold wellFormed. intros Hwf. apply andb_prop in Hwf as [Hp Ht].
  apply Nat.eqb_eq in Hp. apply Nat.eqb_eq in Ht.
  unfold encodeCommand. cbn [app replay]. rewrite opcodeOfValue_opcodeValue.
  rewrite <- Hp, <- app_assoc.
  assert (Htake : take (length (payload c)) (payload c ++ trailing c ++ rest) = payload c)
    by (by rewrite take_app_length).
  assert (Hdrop : drop (length (payload c)) (payload c ++ trailing c ++ rest)
                  = trailing c ++ rest)
    by (by rewrite drop_app_length).
  rewrite (proj2 (Nat.leb_le _ _)) by (rewrite length_app; lia).
  rewrite Htake, Hdrop, <- Ht.
  rewrite (proj2 (Nat.leb_le _ _)) by (rewrite length_app; lia).
  by rewrite take_app_length, drop_app_length.
Qed.

Lemma replay_encoded cs : forall fuel context,
  Forall (fun c => wellFormed c = true) cs ->
  (length cs <= fuel)%nat ->
  replay fuel context (concat (encodeCommand <$> cs))
  = Some (context ++ ((fun c => nativeCall (opcode c) (payload c) (trailing c)) <$> cs)).
Proof.
  induction cs as [|c cs IH]; intros fuel context Hwf Hfuel.
  - simpl. rewrite app_nil_r. by destruct fuel.
  - apply Forall_cons in Hwf as [Hc Hcs].
    destruct fuel as [|fuel]; [simpl in Hfuel; lia|].
    cbn [fmap list_fmap concat]. rewrite replay_step by done.
    rewrite IH; [|done|simpl in Hfuel; lia].
    by rewrite <- app_assoc.
Qed.

Lemma encoded_length cs : (length cs <= length (concat (encodeCommand <$> cs)))%nat.
Proof.
  induction cs as [|c cs IH]; [simpl; lia|].
  rewrite fmap_cons. cbn [concat]. rewrite length_app. unfold encodeCommand in *.
  cbn [length]. lia.
Qed.

(** C4: for every sequence of well-formed commands, replaying the stream
    that the deferred command buffer recorded makes, on any context, exactly
    the native calls that issuing the same commands immediately makes: the
    same calls, in the same order, with the same arguments.  The stream
    holds, for each command in turn, its opcode, the fields of its payload
    struct and directly after them its array data. *)
Theorem deferred_replay_matches_immediate
    (cs : list GLCommand) (context : list GLNativeCall) :
  Forall (fun c => wellFormed c = true) cs ->
  deferredCommandBuffer cs
    = concat ((fun c => opcodeValue (opcode c) :: payload c ++ trailing c) <$> cs)
  /\ executeDeferred context (deferredCommandBuffer cs)
     = Some (immediateCommandBuffer context cs).
Proof.
  intros Hwf. unfold deferredCommandBuffer, executeDeferred, immediateCommandBuffer.
  rewrite recordDeferred_foldl, issueImmediate_foldl. simpl.
  split; [done|].
  apply replay_encoded; [done|apply encoded_length].
Qed.

Lemma deferred_replay_matches_immediate_witness :
  Forall (fun c => wellFormed c = true) exampleCommands
  /\ deferredCommandBuffer exampleCommands
     = [40; 4; 0; 3;
        1; 4096; 16; 3; 10; 11; 12;
        12; 0; 2; 0; 0; 640; 480; 640; 0; 640; 480; 0; 1; 0; 1;
        39]
  /\ executeDeferred [] (deferredCommandBuffer exampleCommands)
     = Some (immediateCommandBuffer [] exampleCommands).
Proof.
  assert (Hwf : Forall (fun c => wellFormed c = true) exampleCommands).
  { repeat constructor. }
  split; [exact Hwf|]. split; [reflexivity|].
  exact (proj2 (deferred_replay_matches_immediate exampleCommands [] Hwf)).
Defined.

End GLProofs.

(* ===================================================================== *)
(** * Properties of Canvas                                                 *)
(* ===================================================================== *)

Module PlatformProofs.

Import Platform.

(** C9: on a platform that is not a mobile platform Canvas::Create returns
    null for every descriptor, whatever the mobile implementations would
    do, and Canvas::AdaptForVideoMode returns false for every canvas and
    every video-mode descriptor. *)
Theorem Canvas_Create_null_and_AdaptForVideoMode_false :
  forall (CanvasDescriptor VideoModeDescriptor : Type)
         (platformCreate : CanvasDescriptor -> option Canvas)
         (desc : CanvasDescriptor) (canvas : Canvas)
         (videoModeDesc : VideoModeDescriptor),
    Create CanvasDescriptor platformCreate false desc = None
    /\ AdaptForVideoMode VideoModeDescriptor canvas videoModeDesc = false.
Proof. intros. split; reflexivity. Qed.

(** ** Event listeners *)

Lemma AddOnceToSharedList_NoDup cont entry :
  NoDup cont -> NoDup (AddOnceToSharedList cont entry).
Proof.
  intros Hnd. unfold AddOnceToSharedList. case_bool_decide as Hin; [done|].
  apply NoDup_app. split; [done|]. split; [|apply NoDup_singleton].
  intros x Hx Hx'. apply list_elem_of_singleton in Hx' as ->. done.
Qed.

Lemma RemoveFromSharedList_subset cont entry x :
  x ∈ RemoveFromSharedList cont entry -> x ∈ cont.
Proof.
  induction cont as [|e cont IH]; simpl; [done|].
  case_bool_decide as He.
  - intros Hx. by apply elem_of_cons; right.
  - intros Hx. apply elem_of_cons in Hx as [->|Hx].
    + by apply elem_of_cons; left.
    + apply elem_of_cons; right. by apply IH.
Qed.

Lemma RemoveFromSharedList_NoDup cont entry :
  NoDup cont -> NoDup (RemoveFromSharedList cont entry).
Proof.
  induction 1 as [|e cont Hnotin Hnd IH]; simpl; [constructor|].
  case_bool_decide; [done|].
  constructor; [|done].
  intros Hin. apply Hnotin. by eapply RemoveFromSharedList_subset.
Qed.

(** In a list without repetitions, erasing the first occurrence erases the
    only one. *)
Lemma RemoveFromSharedList_gone cont entry :
  NoDup cont -> entry ∉ RemoveFromSharedList cont entry.
Proof.
  induction 1 as [|e cont Hnotin Hnd IH]; simpl; [apply not_elem_of_nil|].
  case_bool_decide as He.
  - by subst e.
  - intros Hin. apply elem_of_cons in Hin as [->|Hin]; [done|]. by apply IH.
Qed.

Lemma RemoveFromSharedList_keeps cont entry x :
  x <> entry -> x ∈ cont -> x ∈ RemoveFromSharedList cont entry.
Proof.
  intros Hne. induction cont as [|e cont IH]; simpl; [done|].
  intros Hin. apply elem_of_cons in Hin as [->|Hin].
  - case_bool_decide; [done|]. by apply elem_of_cons; left.
  - case_bool_decide; [done|]. apply elem_of_cons; right. by apply IH.
Qed.

Lemma callCanvas_NoDup canvas c :
  NoDup (eventListeners_ canvas) -> NoDup (eventListeners_ (callCanvas canvas c)).
Proof.
  destruct c; simpl.
  - apply AddOnceToSharedList_NoDup.
  - apply RemoveFromSharedList_NoDup.
Qed.

Lemma callsCanvas_NoDup cs canvas :
  NoDup (eventListeners_ canvas) -> NoDup (eventListeners_ (callsCanvas canvas cs)).
Proof.
  revert canvas. induction cs as [|c cs IH]; intros canvas Hnd; simpl; [done|].
  apply IH. by apply callCanvas_NoDup.
Qed.

Lemma notified_iff canvas lst :
  ListenerOnProcessEvents lst ∈ ProcessEvents canvas <-> lst ∈ eventListeners_ canvas.
Proof.
  unfold ProcessEvents. rewrite elem_of_app, list_elem_of_fmap. split.
  - intros [(l & [= ->] & Hl)|Hin]; [done|].
    by apply list_elem_of_singleton in Hin.
  - intros Hin. left. eauto.
Qed.

(** C10: after any sequence of AddEventListener and RemoveEventListener
    calls on a new canvas, (1) the listener list holds no listener twice;
    (2) AddEventListener leaves the list as it is when the listener is in it
    and appends it otherwise, so that adding the same listener again changes
    nothing; (3) after RemoveEventListener the listener is not in the list
    and ProcessEvents does not notify it, while every other listener of the
    list is still notified. *)
Theorem Canvas_listeners_unique (calls : list ListenerCall) (lst : EventListener) :
  let canvas := callsCanvas Canvas_new calls in
  NoDup (eventListeners_ canvas)
  /\ (lst ∈ eventListeners_ canvas ->
      eventListeners_ (AddEventListener canvas lst) = eventListeners_ canvas)
  /\ (lst ∉ eventListeners_ canvas ->
      eventListeners_ (AddEventListener canvas lst) = eventListeners_ canvas ++ [lst])
  /\ AddEventListener (AddEventListener canvas lst) lst = AddEventListener canvas lst
  /\ ListenerOnProcessEvents lst ∈ ProcessEvents (AddEventListener canvas lst)
  /\ (lst ∉ eventListeners_ (RemoveEventListener canvas lst))
  /\ (ListenerOnProcessEvents lst ∉ ProcessEvents (RemoveEventListener canvas lst))
  /\ (forall other, other <> lst ->
        ListenerOnProcessEvents other ∈ ProcessEvents canvas ->
        ListenerOnProcessEvents other ∈ ProcessEvents (RemoveEventListener canvas lst)).
Proof.
  intros canvas.
  assert (Hnd : NoDup (eventListeners_ canvas)).
  { apply callsCanvas_NoDup. simpl. constructor. }
  split; [done|].
  split.
  { intros Hin. simpl. unfold AddOnceToSharedList. by rewrite bool_decide_eq_true_2. }
  split.
  { intros Hin. simpl. unfold AddOnceToSharedList. by rewrite bool_decide_eq_false_2. }
  split.
  { unfold AddEventListener. f_equal. simpl. unfold AddOnceToSharedList at 1.
    rewrite bool_decide_eq_true_2; [done|].
    unfold AddOnceToSharedList. case_bool_decide; [done|].
    apply elem_of_app. right. by apply list_elem_of_singleton. }
  split.
  { apply notified_iff. simpl. unfold AddOnceToSharedList.
    case_bool_decide; [done|]. apply elem_of_app. right.
    by apply list_elem_of_singleton. }
  split; [by apply RemoveFromSharedList_gone|].
  split.
  { rewrite notified_iff. by apply RemoveFromSharedList_gone. }
  intros other Hne. rewrite !notified_iff. by apply RemoveFromSharedList_keeps.
Qed.

(** Listener 5 is added twice and listener 9 once; 5 is then removed. *)
Lemma Canvas_listeners_unique_witness :
  let canvas :=
    callsCanvas Canvas_new
      [CallAddEventListener 5%nat; CallAddEventListener 9%nat; CallAddEventListener 5%nat] in
  eventListeners_ canvas = [5%nat; 9%nat]
  /\ 5%nat ∈ eventListeners_ canvas
  /\ eventListeners_ (AddEventListener canvas 5%nat) = eventListeners_ canvas
  /\ ProcessEvents (RemoveEventListener canvas 5%nat)
     = [ListenerOnProcessEvents 9%nat; CanvasOnProcessEvents].
Proof.
  intros canvas.
  assert (Hin : 5%nat ∈ eventListeners_ canvas).
  { apply elem_of_cons. left. reflexivity. }
  split; [reflexivity|]. split; [exact Hin|]. split; [|reflexivity].
  exact (proj1 (proj2 (Canvas_listeners_unique
           [CallAddEventListener 5%nat; CallAddEventListener 9%nat;
            CallAddEventListener 5%nat] 5%nat)) Hin).
Defined.

End PlatformProofs.

(* ===================================================================== *)
(** * Properties of the testbed's module names                             *)
(* ===================================================================== *)

Module TestbedProofs.

Import Testbed.

Local Open Scope string_scope.

(** ** Characters *)

Lemma isdigit_cases c :
  isdigit c = true ->
  c ∈ ["0"; "1"; "2"; "3"; "4"; "5"; "6"; "7"; "8"; "9"]%char.
Proof.
  destruct c as [[] [] [] [] [] [] [] []]; intros H;
    try discriminate H;
    repeat first [apply list_elem_of_here | apply list_elem_of_further].
Qed.

Ltac digit_cases c H :=
  apply isdigit_cases in H;
  repeat (apply elem_of_cons in H as [H|H]; [subst c|]);
  [..|by apply elem_of_nil in H].

Lemma isdigit_not_nul c : isdigit c = true -> Ascii.eqb c "000"%char = false.
Proof. intros H. digit_cases c H; reflexivity. Qed.

Lemma atoi_digit c s : isdigit c = true -> atoi (String c s) = atoiDigits 0 (String c s).
Proof. intros H. digit_cases c H; reflexivity. Qed.

Lemma c_str_argument s : isArgument s = true -> c_str s = s.
Proof.
  induction s as [|c s IH]; simpl; [done|].
  intros H. apply andb_prop in H as [Hc Hs].
  destruct (Ascii.eqb c "000"); [done|]. by rewrite IH.
Qed.

(** ** The two regular expressions *)

Lemma regex_match_literal c r s :
  regex_match s ((Literal c, 1%nat) :: r) = true <->
  exists s', s = String c s' /\ regex_match s' r = true.
Proof.
  destruct s as [|c' s']; cbn [regex_match matchRepeat atomMatches].
  - split; [done|]. by intros (? & ? & _).
  - destruct (Ascii.eqb c' c) eqn:Hc.
    + apply Ascii.eqb_eq in Hc as ->. split; [eauto|].
      by intros (? & [= <-] & ?).
    + apply Ascii.eqb_neq in Hc. split; [done|].
      by intros (? & [= ? _] & _).
Qed.

Lemma regex_match_three_digits s :
  regex_match s [(DecimalDigit, 3%nat)] = true <->
  exists d1 d2 d3,
    isdigit d1 = true /\ isdigit d2 = true /\ isdigit d3 = true
    /\ s = String d1 (String d2 (String d3 EmptyString)).
Proof.
  split.
  - destruct s as [|d1 [|d2 [|d3 [|? ?]]]];
      cbn [regex_match matchRepeat atomMatches];
      try discriminate;
      destruct (isdigit d1) eqn:H1; try discriminate;
      try (destruct (isdigit d2) eqn:H2; try discriminate);
      try (destruct (isdigit d3) eqn:H3; try discriminate).
    intros _. exists d1, d2, d3. done.
  - intros (d1 & d2 & d3 & H1 & H2 & H3 & ->).
    cbn [regex_match matchRepeat atomMatches]. by rewrite H1, H2, H3.
Qed.

Lemma regex_gl_matches s :
  regex_match s regex_gl = true <->
  exists d1 d2 d3,
    isdigit d1 = true /\ isdigit d2 = true /\ isdigit d3 = true
    /\ s = versioned "gl" d1 d2 d3.
Proof.
  unfold regex_gl, versioned. rewrite regex_match_literal. split.
  - intros (s1 & -> & H). apply regex_match_literal in H as (s2 & -> & H).
    apply regex_match_three_digits in H as (d1 & d2 & d3 & ? & ? & ? & ->).
    exists d1, d2, d3. done.
  - intros (d1 & d2 & d3 & H1 & H2 & H3 & ->). eexists. split; [reflexivity|].
    apply regex_match_literal. eexists. split; [reflexivity|].
    apply regex_match_three_digits. by exists d1, d2, d3.
Qed.

Lemma regex_opengl_matches s :
  regex_match s regex_opengl = true <->
  exists d1 d2 d3,
    isdigit d1 = true /\ isdigit d2 = true /\ isdigit d3 = true
    /\ s = versioned "opengl" d1 d2 d3.
Proof.
  unfold regex_opengl, versioned. split.
  - intros H.
    do 6 (apply regex_match_literal in H as (? & -> & H)).
    apply regex_match_three_digits in H as (d1 & d2 & d3 & ? & ? & ? & ->).
    exists d1, d2, d3. done.
  - intros (d1 & d2 & d3 & H1 & H2 & H3 & ->).
    do 6 (apply regex_match_literal; eexists; split; [reflexivity|]).
    apply regex_match_three_digits. by exists d1, d2, d3.
Qed.

Lemma atoi_three_digits d1 d2 d3 :
  isdigit d1 = true -> isdigit d2 = true -> isdigit d3 = true ->
  atoi (String d1 (String d2 (String d3 EmptyString))) = versionOf d1 d2 d3.
Proof.
  intros H1 H2 H3. rewrite atoi_digit by done. simpl.
  rewrite H1, H2, H3. unfold versionOf. lia.
Qed.

(** ** GetRendererModule *)

Lemma isArgument_String c s :
  isArgument (String c s) = negb (Ascii.eqb c "000"%char) && isArgument s.
Proof. reflexivity. Qed.

Lemma versioned_isArgument prefix d1 d2 d3 :
  prefix = "gl" \/ prefix = "opengl" ->
  isdigit d1 = true -> isdigit d2 = true -> isdigit d3 = true ->
  isArgument (versioned prefix d1 d2 d3) = true.
Proof.
  intros Hp H1 H2 H3.
  apply isdigit_not_nul in H1, H2, H3.
  destruct Hp as [-> | ->]; unfold versioned;
    cbv [String.append]; rewrite !isArgument_String, H1, H2, H3; reflexivity.
Qed.

Lemma GetRendererModule_versioned prefix d1 d2 d3 :
  prefix = "gl" \/ prefix = "opengl" ->
  isdigit d1 = true -> isdigit d2 = true -> isdigit d3 = true ->
  GetRendererModule (versioned prefix d1 d2 d3)
  = {| name := "OpenGL"; version := versionOf d1 d2 d3 |}.
Proof.
  intros Hp H1 H2 H3.
  pose proof (versioned_isArgument _ _ _ _ Hp H1 H2 H3) as Harg.
  pose proof (atoi_three_digits _ _ _ H1 H2 H3) as Hatoi.
  unfold GetRendererModule. rewrite (c_str_argument _ Harg).
  destruct Hp as [-> | ->].
  - rewrite (proj2 (regex_gl_matches _)) by (by exists d1, d2, d3).
    unfold versioned. cbv [String.append]. cbn -[atoi]. by rewrite Hatoi.
  - rewrite (proj2 (regex_opengl_matches _)) by (by exists d1, d2, d3).
    assert (Hgl : regex_match (versioned "opengl" d1 d2 d3) regex_gl = false)
      by reflexivity.
    rewrite Hgl.
    unfold versioned. cbv [String.append]. cbn -[atoi]. by rewrite Hatoi.
Qed.

Lemma GetRendererModule_alias alias module :
  (alias, module) ∈ aliases ->
  GetRendererModule alias = {| name := module; version := 0 |}.
Proof.
  unfold aliases. intros H.
  repeat (apply elem_of_cons in H as [H|H]; [by inversion H; subst|]).
  by apply elem_of_nil in H.
Qed.

Lemma GetRendererModule_other nm :
  isArgument nm = true ->
  (forall alias module, (alias, module) ∈ aliases -> nm <> alias) ->
  (forall prefix d1 d2 d3, prefix = "gl" \/ prefix = "opengl" ->
     isdigit d1 = true -> isdigit d2 = true -> isdigit d3 = true ->
     nm <> versioned prefix d1 d2 d3) ->
  GetRendererModule nm = {| name := nm; version := 0 |}.
Proof.
  intros Harg Halias Hversioned.
  assert (Hne : forall alias, alias ∈ aliases.*1 -> String.eqb nm alias = false).
  { intros alias Hin. apply String.eqb_neq.
    apply list_elem_of_fmap in Hin as ([a m] & -> & Hin). by eapply Halias. }
  unfold GetRendererModule.
  rewrite !Hne
    by (unfold aliases; cbn [fmap list_fmap fst];
        repeat first [apply list_elem_of_here | apply list_elem_of_further]).
  cbn [orb].
  destruct (regex_match nm regex_gl) eqn:Hgl.
  { apply regex_gl_matches in Hgl as (d1 & d2 & d3 & H1 & H2 & H3 & ->).
    exact (False_ind _ (Hversioned "gl" d1 d2 d3 (or_introl eq_refl) H1 H2 H3 eq_refl)). }
  destruct (regex_match nm regex_opengl) eqn:Hopengl.
  { apply regex_opengl_matches in Hopengl as (d1 & d2 & d3 & H1 & H2 & H3 & ->).
    exact (False_ind _ (Hversioned "opengl" d1 d2 d3 (or_intror eq_refl) H1 H2 H3 eq_refl)). }
  unfold ModuleAndVersion_from_chars. by rewrite c_str_argument.
Qed.

(** C7: GetRendererModule on the module names given to the testbed.
    (1) Every recognized alias is mapped to its module with version 0.
    (2) "gl" or "opengl" followed by exactly three decimal digits is mapped
    to "OpenGL" with the version those digits write.  (3) Every other name,
    an element of argv, is returned unchanged with version 0. *)
Theorem GetRendererModule_maps_names :
  (forall alias module, (alias, module) ∈ aliases ->
     GetRendererModule alias = {| name := module; version := 0 |})
  /\ (forall prefix d1 d2 d3, prefix = "gl" \/ prefix = "opengl" ->
       isdigit d1 = true -> isdigit d2 = true -> isdigit d3 = true ->
       GetRendererModule (versioned prefix d1 d2 d3)
       = {| name := "OpenGL"; version := versionOf d1 d2 d3 |})
  /\ (forall nm, isArgument nm = true ->
       (forall alias module, (alias, module) ∈ aliases -> nm <> alias) ->
       (forall prefix d1 d2 d3, prefix = "gl" \/ prefix = "opengl" ->
          isdigit d1 = true -> isdigit d2 = true -> isdigit d3 = true ->
          nm <> versioned prefix d1 d2 d3) ->
       GetRendererModule nm = {| name := nm; version := 0 |}).
Proof.
  split; [exact GetRendererModule_alias|].
  split; [exact GetRendererModule_versioned|exact GetRendererModule_other].
Qed.

Example GetRendererModule_opengl : GetRendererModule "opengl" = {| name := "OpenGL"; version := 0 |}.
Proof. reflexivity. Qed.

Example GetRendererModule_opengl007 :
  GetRendererModule "opengl007" = {| name := "OpenGL"; version := 7 |}.
Proof. reflexivity. Qed.

(** Two digits, four digits and upper case are not recognized. *)
Example GetRendererModule_unrecognized :
  GetRendererModule "gl33" = {| name := "gl33"; version := 0 |}
  /\ GetRendererModule "gl3300" = {| name := "gl3300"; version := 0 |}
  /\ GetRendererModule "GL" = {| name := "GL"; version := 0 |}.
Proof. repeat split; reflexivity. Qed.

(** A std::string with an embedded NUL, which no element of argv can be, is
    cut at the NUL by the const char* constructor. *)
Example GetRendererModule_embedded_nul :
  GetRendererModule (String "a" (String "000" (String "b" EmptyString)))
  = {| name := "a"; version := 0 |}.
Proof. reflexivity. Qed.

Lemma GetRendererModule_maps_names_witness :
  isArgument "software" = true
  /\ GetRendererModule "software" = {| name := "software"; version := 0 |}
  /\ GetRendererModule "gl330" = {| name := "OpenGL"; version := 330 |}
  /\ GetRendererModule "vk" = {| name := "Vulkan"; version := 0 |}.
Proof.
  destruct GetRendererModule_maps_names as (Halias & Hversioned & Hother).
  split; [reflexivity|]. split; [|split].
  - apply Hother.
    + reflexivity.
    + intros alias module Hin. unfold aliases in Hin.
      repeat (apply elem_of_cons in Hin as [Hin|Hin]; [injection Hin as -> ->; discriminate|]).
      by apply elem_of_nil in Hin.
    + intros prefix d1 d2 d3 [-> | ->] _ _ _; discriminate.
  - exact (Hversioned "gl" "3"%char "3"%char "0"%char (or_introl eq_refl)
             eq_refl eq_refl eq_refl).
  - apply Halias. unfold aliases.
    do 2 (apply elem_of_cons; right). apply elem_of_cons. left. reflexivity.
Defined.

End TestbedProofs.

(* ===================================================================== *)
(** * Properties of the testbed's main program                             *)
(* ===================================================================== *)

Module TestbedMainProofs.

Import Testbed TestbedMain.

Lemma compare_refl s : String.compare s s = Eq.
Proof.
  pose proof (String.compare_antisym s s) as H.
  destruct (String.compare s s); simpl in H; congruence.
Qed.

Lemma strcmp_zero a b : (strcmp a b =? 0) = true <-> c_str a = c_str b.
Proof.
  unfold strcmp. split.
  - destruct (String.compare (c_str a) (c_str b)) eqn:Hc; try discriminate.
    intros _. by apply String.compare_eq_iff.
  - intros ->. by rewrite compare_refl.
Qed.

(** The loop, started at index [i] with enough fuel on a well-formed
    argument vector, looks at exactly the arguments from [i] on. *)
Lemma HasProgramArgument_loop_spec argv search : forall fuel i,
  0 <= i -> (0 < fuel)%nat ->
  Z.of_nat (length argv) - i < Z.of_nat fuel ->
  exists b,
    HasProgramArgument_loop fuel i (Z.of_nat (length argv)) argv search = Some b
    /\ (b = true <->
        exists arg, arg ∈ drop (Z.to_nat i) argv /\ c_str arg = c_str search).
Proof.
  induction fuel as [|fuel IH]; intros i Hi Hpos Hfuel; [lia|].
  cbn [HasProgramArgument_loop].
  destruct (i <? Z.of_nat (length argv)) eqn:Hlt.
  - apply Z.ltb_lt in Hlt.
    destruct (argv !! Z.to_nat i) as [arg|] eqn:Harg.
    2:{ apply lookup_ge_None in Harg. lia. }
    assert (Hdrop : drop (Z.to_nat i) argv = arg :: drop (Z.to_nat (i + 1)) argv).
    { replace (Z.to_nat (i + 1)) with (S (Z.to_nat i)) by lia.
      by apply drop_S. }
    destruct (strcmp arg search =? 0) eqn:Hcmp.
    + exists true. split; [done|]. split; [|done]. intros _.
      exists arg. split; [|by apply strcmp_zero].
      rewrite Hdrop. apply list_elem_of_here.
    + destruct (IH (i + 1)) as (b & Hb & Hiff); [lia|lia|lia|].
      exists b. split; [done|]. rewrite Hiff, Hdrop. split.
      * intros (a & Ha & Heq). exists a. split; [|done].
        by apply list_elem_of_further.
      * intros (a & Ha & Heq). apply elem_of_cons in Ha as [->|Ha]; [|eauto].
        apply strcmp_zero in Heq. congruence.
  - apply Z.ltb_ge in Hlt. exists false. split; [done|]. split; [done|].
    intros (a & Ha & _). rewrite drop_ge in Ha by lia.
    by apply elem_of_nil in Ha.
Qed.

(** X1: for an argument vector of [argc] entries HasProgramArgument returns,
    and it returns true exactly when one of the arguments behind the
    program name equals [search]; the program name itself is never
    compared. *)
Theorem HasProgramArgument_finds_arguments
    (argc : Z) (argv : list string) (search : string) :
  argc = Z.of_nat (length argv) ->
  exists b,
    HasProgramArgument argc argv search = Some b
    /\ (b = true <-> isArgumentOf argv search).
Proof.
  intros ->. unfold HasProgramArgument, isArgumentOf.
  apply (HasProgramArgument_loop_spec argv search _ 1); lia.
Qed.

Lemma HasProgramArgument_finds_arguments_witness :
  HasProgramArgument 3 ["-h"; "gl"; "--fast"]%string "-h"%string = Some false
  /\ exists b,
       HasProgramArgument 3 ["testbed"; "gl"; "-h"]%string "-h"%string = Some b
       /\ (b = true <-> isArgumentOf ["testbed"; "gl"; "-h"]%string "-h"%string).
Proof.
  split; [reflexivity|].
  apply HasProgramArgument_finds_arguments. reflexivity.
Defined.

(** ** GuardedMain *)

Lemma HasProgramArgument_true argv search :
  isArgumentOf argv search ->
  HasProgramArgument (Z.of_nat (length argv)) argv search = Some true.
Proof.
  intros Hin.
  destruct (HasProgramArgument_loop_spec argv search (S (Z.to_nat (Z.of_nat (length argv)))) 1)
    as (b & Hb & Hiff); [lia..|].
  unfold HasProgramArgument. rewrite Hb. f_equal. by apply Hiff.
Qed.


Lemma HasProgramArgument_defined argv search :
  exists b, HasProgramArgument (Z.of_nat (length argv)) argv search = Some b.
Proof.
  destruct (HasProgramArgument_loop_spec argv search (S (Z.to_nat (Z.of_nat (length argv)))) 1)
    as (b & Hb & _); [lia..|]. eauto.
Qed.

(** X2: when -h or --help is among the arguments, GuardedMain prints the
    help text and returns 0; it runs no test, whatever else is on the
    command line. *)
Theorem GuardedMain_help_runs_nothing
    (independentFailures : list string -> Z)
    (rendererFailures : string -> Z -> list string -> Z)
    (availableModules : list string) (argc : Z) (argv : list string) :
  argc = Z.of_nat (length argv) ->
  isArgumentOf argv "-h" \/ isArgumentOf argv "--help" ->
  GuardedMain independentFailures rendererFailures availableModules argc argv
  = Some (0, [PrintHelpDocs]).
Proof.
  intros -> Hhelp. unfold GuardedMain.
  destruct (HasProgramArgument_defined argv "-h") as (b1 & Hb1). rewrite Hb1.
  destruct b1; [done|].
  destruct Hhelp as [Hh|Hh].
  - rewrite (HasProgramArgument_true _ _ Hh) in Hb1. done.
  - by rewrite (HasProgramArgument_true _ _ Hh).
Qed.

Lemma GuardedMain_help_runs_nothing_witness :
  GuardedMain (fun _ => 3) (fun _ _ _ => 1) ["OpenGL"]%string 4
              ["testbed"; "gl"; "--help"; "vk"]%string
  = Some (0, [PrintHelpDocs]).
Proof.
  apply GuardedMain_help_runs_nothing; [reflexivity|].
  right. exists "--help"%string. split; [|reflexivity].
  do 1 apply list_elem_of_further. apply list_elem_of_here.
Defined.





(** ** GetRendererModule, beyond the aliases *)

Lemma digitValue_range c : isdigit c = true -> 0 <= digitValue c <= 9.
Proof.
  intros H. apply TestbedProofs.isdigit_cases in H.
  repeat (apply elem_of_cons in H as [->|H]; [vm_compute; split; discriminate|]).
  by apply elem_of_nil in H.
Qed.

(** X4: whatever string GetRendererModule is given, the version it returns
    lies between 0 and 999, and it is different from 0 only for the module
    "OpenGL". *)
Theorem GetRendererModule_version_range (nm : string) :
  0 <= version (GetRendererModule nm) <= 999
  /\ (version (GetRendererModule nm) <> 0 -> name (GetRendererModule nm) = "OpenGL"%string).
Proof.
  assert (Hversioned : forall prefix d1 d2 d3,
    prefix = "gl"%string \/ prefix = "opengl"%string ->
    isdigit d1 = true -> isdigit d2 = true -> isdigit d3 = true ->
    0 <= version (GetRendererModule (versioned prefix d1 d2 d3)) <= 999
    /\ name (GetRendererModule (versioned prefix d1 d2 d3)) = "OpenGL"%string).
  { intros prefix d1 d2 d3 Hp H1 H2 H3.
    rewrite (TestbedProofs.GetRendererModule_versioned _ _ _ _ Hp H1 H2 H3).
    cbn [version name]. unfold versionOf.
    pose proof (digitValue_range _ H1). pose proof (digitValue_range _ H2).
    pose proof (digitValue_range _ H3). split; [lia|done]. }
  destruct (regex_match nm regex_gl) eqn:Hgl.
  { apply TestbedProofs.regex_gl_matches in Hgl as (d1 & d2 & d3 & H1 & H2 & H3 & ->).
    destruct (Hversioned "gl"%string d1 d2 d3) as [Hr Hn]; auto. }
  destruct (regex_match nm regex_opengl) eqn:Hopengl.
  { apply TestbedProofs.regex_opengl_matches in Hopengl
      as (d1 & d2 & d3 & H1 & H2 & H3 & ->).
    destruct (Hversioned "opengl"%string d1 d2 d3) as [Hr Hn]; auto. }
  unfold GetRendererModule. rewrite Hgl, Hopengl.
  repeat match goal with
         | |- context [if ?b then _ else _] => destruct b
         end; cbn [version ModuleAndVersion_from_chars]; split; (lia || done).
Qed.

Lemma GetRendererModule_version_range_witness :
  name (GetRendererModule "gl330"%string) = "OpenGL"%string.
Proof.
  apply (proj2 (GetRendererModule_version_range "gl330"%string)).
  vm_compute. discriminate.
Defined.

(** X5: on the testbed's arguments GetRendererModule is a normalisation:
    the name it returns is returned unchanged, with version 0, when it is
    given to GetRendererModule again. *)
Theorem GetRendererModule_name_is_normal (nm : string) :
  isArgument nm = true ->
  GetRendererModule (name (GetRendererModule nm))
  = {| name := name (GetRendererModule nm); version := 0 |}.
Proof.
  intros Harg.
  destruct (regex_match nm regex_gl) eqn:Hgl.
  { apply TestbedProofs.regex_gl_matches in Hgl as (d1 & d2 & d3 & H1 & H2 & H3 & ->).
    by rewrite (TestbedProofs.GetRendererModule_versioned "gl"%string d1 d2 d3) by auto. }
  destruct (regex_match nm regex_opengl) eqn:Hopengl.
  { apply TestbedProofs.regex_opengl_matches in Hopengl
      as (d1 & d2 & d3 & H1 & H2 & H3 & ->).
    by rewrite (TestbedProofs.GetRendererModule_versioned "opengl"%string d1 d2 d3) by auto. }
  assert (Hcases :
    GetRendererModule nm = {| name := nm; version := 0 |}
    \/ exists module,
         module ∈ ["OpenGL"; "Vulkan"; "Metal"; "Direct3D11"; "Direct3D12"; "Null"]%string
         /\ GetRendererModule nm = {| name := module; version := 0 |}).
  { unfold GetRendererModule. rewrite Hgl, Hopengl.
    repeat match goal with
           | |- context [if ?b then _ else _] => destruct b
           end;
      first [ left; unfold ModuleAndVersion_from_chars;
              rewrite (TestbedProofs.c_str_argument nm Harg); reflexivity
            | right; eexists; split; [|reflexivity];
              repeat first [apply list_elem_of_here | apply list_elem_of_further] ]. }
  destruct Hcases as [Hsame|(module & Hin & Hmodule)].
  - rewrite Hsame. cbn [name]. exact Hsame.
  - rewrite Hmodule. cbn [name].
    repeat (apply elem_of_cons in Hin as [->|Hin]; [reflexivity|]).
    by apply elem_of_nil in Hin.
Qed.

Lemma GetRendererModule_name_is_normal_witness :
  isArgument "opengl450"%string = true
  /\ GetRendererModule "opengl450"%string = {| name := "OpenGL"%string; version := 450 |}
  /\ GetRendererModule (name (GetRendererModule "opengl450"%string))
     = {| name := "OpenGL"%string; version := 0 |}.
Proof.
  split; [reflexivity|]. split; [reflexivity|].
  exact (GetRendererModule_name_is_normal "opengl450"%string eq_refl).
Defined.

End TestbedMainProofs.

(* ===================================================================== *)
(** * Tutorials: selection of the renderer module, properties              *)
(* ===================================================================== *)

Module TutorialProofs.

Import Testbed Tutorial.

Lemma printModules_listing (modules : list string) (i : Z) :
  0 <= i ->
  i + Z.of_nat (length modules) <= INT_MAX ->
  exists listing,
    printModules i modules = Some listing
    /\ occurrences PrintInvalidInput listing = 0%nat
    /\ occurrences PrintSelectRenderer listing = 0%nat.
Proof.
  revert i. induction modules as [|m modules IH]; intros i Hi Hmax.
  - by exists [].
  - cbn [length] in Hmax.
    destruct (IH (i + 1)) as (listing & Hl & Hinv & Hsel); [lia..|].
    exists (PrintModule (i + 1) m :: listing).
    cbn [printModules]. rewrite Hl.
    destruct (Z.ltb_spec i INT_MAX); [|lia].
    split; [done|]. unfold occurrences in *.
    rewrite !filter_cons_False by done. done.
Qed.

Lemma occurrences_app (o : Output) (l1 l2 : list Output) :
  occurrences o (l1 ++ l2) = (occurrences o l1 + occurrences o l2)%nat.
Proof. unfold occurrences. by rewrite filter_app, length_app. Qed.

Lemma occurrences_cons_same (o : Output) (l : list Output) :
  occurrences o (o :: l) = S (occurrences o l).
Proof. unfold occurrences. by rewrite filter_cons_True. Qed.

Lemma occurrences_cons_other (o o' : Output) (l : list Output) :
  o' <> o -> occurrences o (o' :: l) = occurrences o l.
Proof. intros. unfold occurrences. by rewrite filter_cons_False. Qed.

Lemma invalidSelection_wraps (modules : list string) (selection : Z) :
  Z.of_nat (length modules) <= INT_MAX ->
  invalidSelection modules selection ->
  ((selection - 1) mod SIZE_modulus <? Z.of_nat (length modules)) = false.
Proof.
  intros Hmax [Hrange Hbad]. apply Z.ltb_ge.
  unfold SIZE_modulus, INT_MAX in *.
  destruct Hbad as [->|Hbig].
  - change ((0 - 1) mod 2 ^ 64) with (2 ^ 64 - 1). lia.
  - rewrite Z.mod_small by lia. lia.
Qed.

Lemma selectLoop_result (modules : list string) (input : list Z)
    (name : string) (out : list Output) (rest : list Z) :
  selectLoop modules input = Some (name, out, rest) ->
  name ∈ modules /\ empty name = false
  /\ exists consumed, consumed <> [] /\ input = consumed ++ rest.
Proof.
  revert out. induction input as [|selection input IH]; intros out H; [done|].
  cbn [selectLoop] in H.
  destruct (printModules 0 modules) as [listing|]; [|done].
  destruct (_ <? _).
  - destruct (modules !! _) as [m|] eqn:Hm; [|done].
    destruct (empty m) eqn:Hempty.
    + destruct (selectLoop modules input) as [[[name' out'] rest']|]; [|done].
      injection H as <- <- <-.
      destruct (IH _ eq_refl) as (Hin & Hne & consumed & _ & ->).
      split; [done|]. split; [done|]. by exists (selection :: consumed).
    + injection H as <- <- <-.
      split; [by eapply list_elem_of_lookup_2|]. split; [done|].
      by exists [selection].
  - destruct (selectLoop modules input) as [[[name' out'] rest']|]; [|done].
    injection H as <- <- <-.
    destruct (IH _ eq_refl) as (Hin & Hne & consumed & _ & ->).
    split; [done|]. split; [done|]. by exists (selection :: consumed).
Qed.

Lemma selectLoop_first_valid (modules : list string) (bad : list Z) (k : Z)
    (rest : list Z) (name : string) :
  Z.of_nat (length modules) <= INT_MAX ->
  Forall (invalidSelection modules) bad ->
  1 <= k <= Z.of_nat (length modules) ->
  modules !! Z.to_nat (k - 1) = Some name ->
  empty name = false ->
  exists out,
    selectLoop modules (bad ++ k :: rest) = Some (name, out, rest)
    /\ occurrences PrintInvalidInput out = length bad
    /\ occurrences PrintSelectRenderer out = S (length bad).
Proof.
  intros Hmax Hbad Hk Hname Hne.
  destruct (printModules_listing modules 0) as (listing & Hl & Hinv & Hsel);
    [lia..|].
  induction Hbad as [|b bad Hb _ IH].
  - exists (PrintSelectRenderer :: listing).
    cbn [app selectLoop]. rewrite Hl.
    assert (Hmod : (k - 1) mod SIZE_modulus = k - 1).
    { apply Z.mod_small. unfold SIZE_modulus, INT_MAX in *. lia. }
    rewrite Hmod. destruct (Z.ltb_spec (k - 1) (Z.of_nat (length modules))); [|lia].
    rewrite Hname, Hne. split; [done|].
    rewrite occurrences_cons_other by done. rewrite occurrences_cons_same.
    cbn [length]. by rewrite Hinv, Hsel.
  - destruct IH as (out & Hloop & Hi & Hs).
    exists (PrintSelectRenderer :: listing ++ PrintInvalidInput :: out).
    cbn [app selectLoop]. rewrite Hl, (invalidSelection_wraps modules b Hmax Hb), Hloop.
    split; [done|].
    rewrite occurrences_cons_other by done. rewrite occurrences_cons_same.
    rewrite !occurrences_app, occurrences_cons_same.
    rewrite occurrences_cons_other by done.
    cbn [length]. rewrite Hinv, Hsel, Hi, Hs. done.
Qed.

(** X16: GetSelectedRendererModule.  Whenever the function comes to an end,
    with an argument on the command line it returns argv[1] and reads no
    input; without one it throws exactly when no module is available, and
    otherwise returns one of the available modules, which is the only
    module or has a name that is not empty.  The last thing it prints when
    it returns is the selected name. *)
Theorem GetSelectedRendererModule_returns_argument_or_module
    (argc : Z) (argv modules : list string) (input : list Z)
    (outcome : Outcome) (out : list Output) (input' : list Z) :
  GetSelectedRendererModule argc argv modules input = Some (outcome, out, input') ->
  match outcome with
  | Returned name =>
      last out = Some (PrintSelectedRenderer name)
      /\ ((1 < argc /\ c_str <$> argv !! 1%nat = Some name /\ input' = input)
          \/ (argc <= 1 /\ name ∈ modules
              /\ (modules = [name] \/ empty name = false)))
  | Thrown _ => argc <= 1 /\ modules = [] /\ out = [] /\ input' = input
  end.
Proof.
  unfold GetSelectedRendererModule. intros H.
  destruct (Z.ltb_spec 1 argc) as [Hargc|Hargc].
  - destruct (argv !! 1%nat) as [arg|]; [|done].
    injection H as <- <- <-. split; [done|]. by left.
  - destruct modules as [|m [|m' modules]].
    + by injection H as <- <- <-.
    + injection H as <- <- <-. split; [done|]. right.
      split; [done|]. split; [apply list_elem_of_here|by left].
    + destruct (selectLoop _ input) as [[[name out'] rest]|] eqn:Hloop; [|done].
      injection H as <- <- <-.
      apply selectLoop_result in Hloop as (Hin & Hne & _).
      split; [by rewrite last_snoc|]. right. split; [done|]. split; [done|]. by right.
Qed.

Lemma GetSelectedRendererModule_returns_argument_or_module_witness :
  exists out,
    GetSelectedRendererModule 1 ["tutorial"%string]
      ["OpenGL"%string; "Vulkan"%string] [5; 2]
    = Some (Returned "Vulkan"%string, out, [])
    /\ last out = Some (PrintSelectedRenderer "Vulkan"%string).
Proof.
  eexists. split; [vm_compute; reflexivity|].
  exact (proj1 (GetSelectedRendererModule_returns_argument_or_module 1
                  ["tutorial"%string] ["OpenGL"%string; "Vulkan"%string] [5; 2]
                  (Returned "Vulkan"%string) _ [] ltac:(vm_compute; reflexivity))).
Defined.

(** X17: GetSelectedRendererModule.  Without an argument and with two or
    more modules available, the function asks until a value names a
    module: if the values typed first are all 0 or greater than the number
    of modules (0 wraps around to the largest std::size_t when it is
    decremented), and the next value k is between 1 and the number of
    modules and its module has a name that is not empty, then the function
    returns module k - 1 of the list, has printed the prompt once per value
    read and "invalid input" once per rejected value, and leaves the rest
    of the input unread. *)
Theorem GetSelectedRendererModule_first_valid_selection
    (argc : Z) (argv modules : list string) (bad : list Z) (k : Z)
    (rest : list Z) (name : string) :
  argc <= 1 ->
  (2 <= length modules)%nat ->
  Z.of_nat (length modules) <= INT_MAX ->
  Forall (invalidSelection modules) bad ->
  1 <= k <= Z.of_nat (length modules) ->
  modules !! Z.to_nat (k - 1) = Some name ->
  empty name = false ->
  exists out,
    GetSelectedRendererModule argc argv modules (bad ++ k :: rest)
    = Some (Returned name, out, rest)
    /\ occurrences PrintInvalidInput out = length bad
    /\ occurrences PrintSelectRenderer out = S (length bad).
Proof.
  intros Hargc Hlen Hmax Hbad Hk Hname Hne.
  destruct (selectLoop_first_valid modules bad k rest name Hmax Hbad Hk Hname Hne)
    as (out & Hloop & Hi & Hs).
  exists (out ++ [PrintSelectedRenderer name]).
  unfold GetSelectedRendererModule.
  destruct (Z.ltb_spec 1 argc); [lia|].
  destruct modules as [|m [|m' modules]]; [cbn in Hlen; lia..|].
  rewrite Hloop. split; [done|].
  rewrite !occurrences_app, !occurrences_cons_other by done.
  unfold occurrences at 2 4. cbn [filter list_filter length]. lia.
Qed.

Lemma GetSelectedRendererModule_first_valid_selection_witness :
  exists out,
    GetSelectedRendererModule 1 ["tutorial"%string]
      ["OpenGL"%string; "Vulkan"%string] ([0; 3] ++ 2 :: [1])
    = Some (Returned "Vulkan"%string, out, [1])
    /\ occurrences PrintInvalidInput out = 2%nat
    /\ occurrences PrintSelectRenderer out = 3%nat.
Proof.
  refine (GetSelectedRendererModule_first_valid_selection 1 ["tutorial"%string]
            ["OpenGL"%string; "Vulkan"%string] [0; 3] 2 [1] "Vulkan"%string
            _ _ _ _ _ _ _).
  - lia.
  - cbn. lia.
  - vm_compute. discriminate.
  - repeat constructor; unfold invalidSelection, SIZE_modulus; cbn; lia.
  - cbn. lia.
  - reflexivity.
  - reflexivity.
Defined.

End TutorialProofs.
